(** * MeetMind: the meeting-processing pipeline

    A shallow embedding of the backend's asynchronous pipeline
    (aiService.js, taskService.js, the upload route of meetingRoutes.js and
    the helpers of the Meeting and Task models), and the properties of it
    that the design document states.

    JavaScript values are embedded as an inductive type [value]; functions
    that can throw return in an error monad over an explicit [World]
    (the Airtable tables and the trace of calls to external services);
    external services (OpenAI, Airtable, the clock, the runtime's
    [JSON.parse]) are fields of an environment [Env] over which every
    theorem quantifies. *)

From Stdlib Require Import ZArith QArith Ascii.
From stdpp Require Import base gmap strings list pretty.

Open Scope Z_scope.
Set Warnings "-register-all".
Set Default Proof Using "Type".

(** ** JavaScript values *)

(** The values that flow through the pipeline: what [JSON.parse] can return,
    plus [undefined].  Numbers are integers (fractional numbers do not occur
    in the modelled paths).  An object is its list of own properties. *)
Inductive value : Type :=
  | VUndefined
  | VNull
  | VBool (b : bool)
  | VNum (n : Z)
  | VStr (s : string)
  | VArr (l : list value)
  | VObj (props : list (string * value)).

(** What a [throw] carries.  [AppError] is the class of utils/errorHandler.js;
    [ClientError] is an error raised by a client library (OpenAI, Airtable),
    with [error.response?.status] when it has one; [JsError] is a built-in
    error (TypeError, SyntaxError, Error) with its name and message. *)
Inductive Thrown : Type :=
  | AppError (message : string) (statusCode : Z)
  | ClientError (message : string) (response_status : option Z)
  | JsError (name message : string).

Definition error_message (e : Thrown) : string :=
  match e with
  | AppError m _ => m
  | ClientError m _ => m
  | JsError _ m => m
  end.

(** [error.response?.status] *)
Definition error_response_status (e : Thrown) : option Z :=
  match e with
  | ClientError _ st => st
  | _ => None
  end.

(** [this.status = `${statusCode}`.startsWith('4') ? 'fail' : 'error'] *)
Definition AppError_status (statusCode : Z) : string :=
  match pretty statusCode with
  | String "4"%char _ => "fail"
  | _ => "error"
  end.

(** Truthiness ([!v], [v || d], [c ? a : b]). *)
Definition truthy (v : value) : bool :=
  match v with
  | VUndefined | VNull => false
  | VBool b => b
  | VNum n => negb (n =? 0)
  | VStr s => negb (String.eqb s EmptyString)
  | VArr _ | VObj _ => true
  end.

(** [v !== 'literal'] *)
Definition strict_neq_str (v : value) (lit : string) : bool :=
  match v with
  | VStr s => negb (String.eqb s lit)
  | _ => true
  end.

(** [v === 0] *)
Definition strict_eq_zero (v : value) : bool :=
  match v with
  | VNum n => n =? 0
  | _ => false
  end.

(** [typeof v === 'string'] *)
Definition is_string (v : value) : bool :=
  match v with VStr _ => true | _ => false end.

(** [l.join(sep)] on an array of strings. *)
Fixpoint join (sep : string) (l : list string) : string :=
  match l with
  | [] => EmptyString
  | x :: r => match r with
              | [] => x
              | _ :: _ => x +:+ sep +:+ join sep r
              end
  end.

(** [String(v)], as a template literal [`${v}`] applies it.  An array is
    rendered as its elements joined by commas, [null] and [undefined]
    elements as empty text; an object as [[object Object]]. *)
Fixpoint to_string (v : value) : string :=
  match v with
  | VUndefined => "undefined"
  | VNull => "null"
  | VBool true => "true"
  | VBool false => "false"
  | VNum n => pretty n
  | VStr s => s
  | VArr l =>
      join ","
        (List.map (fun x => match x with
                            | VUndefined | VNull => EmptyString
                            | _ => to_string x
                            end) l)
  | VObj _ => "[object Object]"
  end.

(** The property names the modelled code reads.  None of them is defined on
    a prototype of a JSON value, except [length] on arrays and strings. *)
Inductive Key : Type :=
  | K_action_items | K_length
  | K_task | K_assignee | K_deadline | K_priority | K_category.

Definition key_name (k : Key) : string :=
  match k with
  | K_action_items => "action_items"
  | K_length => "length"
  | K_task => "task"
  | K_assignee => "assignee"
  | K_deadline => "deadline"
  | K_priority => "priority"
  | K_category => "category"
  end.

Fixpoint assoc (k : string) (props : list (string * value)) : value :=
  match props with
  | [] => VUndefined
  | (k', v) :: r => if String.eqb k' k then v else assoc k r
  end.

(** [v.k]: a TypeError on [undefined] and [null]; the own property of an
    object; [length] of an array or a string; [undefined] otherwise. *)
Definition get_prop (v : value) (k : Key) : Thrown + value :=
  match v with
  | VUndefined =>
      inl (JsError "TypeError"
             ("Cannot read properties of undefined (reading '" +:+ key_name k +:+ "')"))
  | VNull =>
      inl (JsError "TypeError"
             ("Cannot read properties of null (reading '" +:+ key_name k +:+ "')"))
  | VObj props => inr (assoc (key_name k) props)
  | VArr l =>
      match k with
      | K_length => inr (VNum (Z.of_nat (List.length l)))
      | _ => inr VUndefined
      end
  | VStr s =>
      match k with
      | K_length => inr (VNum (Z.of_nat (String.length s)))
      | _ => inr VUndefined
      end
  | VBool _ | VNum _ => inr VUndefined
  end.

(** ** Meeting model helpers: [parseParticipants] *)

(** Characters are 8-bit code units.  The white space and line terminators
    of ECMAScript in that range: TAB, LF, VT, FF, CR, SP and NBSP. *)
Definition is_whitespace (c : ascii) : bool :=
  match Ascii.N_of_ascii c with
  | 9%N | 10%N | 11%N | 12%N | 13%N | 32%N | 160%N => true
  | _ => false
  end.

(** [s.split(sep)] for a one-character separator. *)
Fixpoint split (sep : ascii) (s : string) : list string :=
  match s with
  | EmptyString => [EmptyString]
  | String c rest =>
      if Ascii.eqb c sep then EmptyString :: split sep rest
      else match split sep rest with
           | [] => [String c EmptyString]
           | hd :: tl => String c hd :: tl
           end
  end.

Fixpoint trimStart (s : string) : string :=
  match s with
  | EmptyString => EmptyString
  | String c rest => if is_whitespace c then trimStart rest else s
  end.

Fixpoint trimEnd (s : string) : string :=
  match s with
  | EmptyString => EmptyString
  | String c rest =>
      match trimEnd rest with
      | EmptyString => if is_whitespace c then EmptyString else String c EmptyString
      | r => String c r
      end
  end.

(** [s.trim()] *)
Definition trim (s : string) : string := trimEnd (trimStart s).

(** [parseParticipants] of the Meeting model. *)
Definition parseParticipants (participantsString : value) : list string :=
  match participantsString with
  | VStr s =>
      if negb (truthy participantsString) then []
      else List.filter (fun p => (0 <? String.length p)%nat)
             (List.map trim (split ","%char s))
  | _ => []
  end.

(** [formatParticipants] of the Meeting model, on an array of strings. *)
Definition formatParticipants (participantsArray : list string) : string :=
  join ", " participantsArray.

(** ** External services and the world *)

(** The uploaded recording ([req.file]). *)
Record AudioFile : Type := {
  originalname : string;
  mimetype : string;
  file_size : Z
}.

(** A [verbose_json] transcription as the OpenAI client declares it: a
    [text] string, and further fields that may be absent. *)
Record WhisperReply : Type := {
  reply_text : string;
  reply_duration : value;
  reply_language : value;
  reply_segments : value;
  reply_words : value
}.

(** The object [transcribeAudio] returns. *)
Record TranscriptionResult : Type := {
  text : value;
  duration : value;
  language : value;
  segments : value;
  words : value
}.

(** A request to [openai.chat.completions.create]: one system and one user
    message. *)
Record ChatRequest : Type := {
  model : string;
  system_content : string;
  user_content : string;
  temperature : Q;
  max_tokens : Z
}.

(** The fields of an Airtable record, by field name. *)
Abbreviation Fields := (gmap string value).

(** [record.fields[name]] *)
Definition field (f : Fields) (name : string) : value :=
  default VUndefined (f !! name).

(** Everything outside the process.  A chat completion is the list of the
    [choices[i].message.content] (a string or null); [JSON_parse] is the
    runtime's [JSON.parse], [None] when it throws a SyntaxError;
    [StringToNumber_positive s] tells whether the text [s], converted to a
    number, is greater than zero; an Airtable call is rejected when its
    oracle returns an error. *)
Record Env : Type := {
  OPENAI_API_KEY : value;
  airtable_configured : bool;
  transcriptions_create : AudioFile -> Thrown + WhisperReply;
  chat_completions_create : ChatRequest -> Thrown + list (option string);
  JSON_parse : string -> option value;
  StringToNumber_positive : string -> bool;
  meetings_update_rejected : string -> Fields -> option Thrown;
  tasks_create_rejected : list Fields -> option Thrown;
  now : string
}.

(** The calls that leave the process, in the order they are made. *)
Inductive Effect : Type :=
  | E_transcription (file : AudioFile)
  | E_chat (req : ChatRequest)
  | E_meetings_update (id : string) (fields : Fields)
  | E_tasks_create (records : list Fields).

(** The Meetings table (record id to fields), the Tasks table (records in
    creation order) and the trace of external calls. *)
Record World : Type := {
  meetings : gmap string Fields;
  tasks : list (string * Fields);
  trace : list Effect
}.

(** ** Computations that can throw *)

Definition M (A : Type) : Type := World -> (Thrown + A) * World.

Definition ret {A} (a : A) : M A := fun w => (inr a, w).

Definition throw {A} (e : Thrown) : M A := fun w => (inl e, w).

Definition bind {A B} (m : M A) (k : A -> M B) : M B :=
  fun w => match m w with
           | (inr a, w') => k a w'
           | (inl e, w') => (inl e, w')
           end.

(** [try { m } catch (error) { h error }] *)
Definition try_catch {A} (m : M A) (h : Thrown -> M A) : M A :=
  fun w => match m w with
           | (inr a, w') => (inr a, w')
           | (inl e, w') => h e w'
           end.

Definition lift {A} (r : Thrown + A) : M A := fun w => (r, w).

(** The world after further external calls. *)
Definition traced (w : World) (es : list Effect) : World :=
  {| meetings := meetings w; tasks := tasks w; trace := trace w ++ es |}.

Definition emit (e : Effect) : M unit := fun w => (inr tt, traced w [e]).

Notation "'let*' x ':=' m 'in' k" := (bind m (fun x => k))
  (at level 10, x pattern, m at level 100, k at level 200).

(** [if (c) throw e;] *)
Definition throw_if (c : bool) (e : Thrown) : M unit :=
  if c then throw e else ret tt.

Fixpoint mapM {A B} (f : A -> M B) (l : list A) : M (list B) :=
  match l with
  | [] => ret []
  | x :: r => let* y := f x in let* ys := mapM f r in ret (y :: ys)
  end.

(** [arr.map(f)]: only an array has a [map] method. *)
Definition js_map {B} (v : value) (f : value -> M B) : M (list B) :=
  match v with
  | VArr l => mapM f l
  | _ => throw (JsError "TypeError" "map is not a function")
  end.

(** [v > 0] *)
Definition gt_zero (env : Env) (v : value) : bool :=
  match v with
  | VNum n => 0 <? n
  | VBool b => b
  | VStr s => StringToNumber_positive env s
  | VArr _ => StringToNumber_positive env (to_string v)
  | VUndefined | VNull | VObj _ => false
  end.

(** ** The Airtable tables *)

Definition TABLES_MEETINGS : string := "Meetings".
Definition TABLES_TASKS : string := "Tasks".

Module FIELDS.
Module MEETINGS.
Definition TRANSCRIPT : string := "transcript".
Definition MOM : string := "mom".
Definition ACTION_POINTS : string := "action_points".
Definition SUMMARY : string := "summary".
End MEETINGS.
Module TASKS.
Definition NAME : string := "name".
Definition OWNER_ID : string := "owner_id".
Definition STATUS : string := "status".
Definition DEADLINE : string := "deadline".
Definition SOURCE_MEETING : string := "source_meeting".
Definition TEAM : string := "team".
Definition DESCRIPTION : string := "description".
Definition PRIORITY : string := "priority".
Definition CREATED_AT : string := "created_at".
End TASKS.
End FIELDS.

Module TASK_STATUS.
Definition PENDING : string := "pending".
Definition IN_PROGRESS : string := "in_progress".
Definition DONE : string := "done".
Definition CANCELLED : string := "cancelled".
End TASK_STATUS.

Module TASK_PRIORITY.
Definition LOW : string := "low".
Definition MEDIUM : string := "medium".
Definition HIGH : string := "high".
Definition URGENT : string := "urgent".
End TASK_PRIORITY.

(** [isAirtableConfigured()] *)
Definition isAirtableConfigured (env : Env) : bool := airtable_configured env.

(** [getTable(name)]: throws when the base was not configured. *)
Definition getTable (env : Env) (tableName : string) : M unit :=
  throw_if (negb (airtable_configured env))
    (JsError "Error"
       "Airtable not configured. Please add AIRTABLE_API_KEY and AIRTABLE_BASE_ID to environment variables.").

(** [meetingsTable.update([{ id, fields }])]: a partial update; the fields
    that are not named keep their value. *)
Definition meetings_update (env : Env) (id : string) (fields : Fields) : M unit :=
  let* _ := emit (E_meetings_update id fields) in
  fun w =>
    match meetings_update_rejected env id fields, meetings w !! id with
    | Some e, _ => (inl e, w)
    | None, None => (inl (ClientError "Could not find what you are looking for" None), w)
    | None, Some old =>
        (inr tt, {| meetings := <[id := fields ∪ old]> (meetings w);
                    tasks := tasks w; trace := trace w |})
    end.

Definition record_id (n : nat) : string := "rec" +:+ pretty n.

(** [tasksTable.create(records)]: all the records or none; the table gives
    each record a new id and keeps the fields as they were sent. *)
Definition tasks_create (env : Env) (records : list Fields)
  : M (list (string * Fields)) :=
  let* _ := emit (E_tasks_create records) in
  fun w =>
    match tasks_create_rejected env records with
    | Some e => (inl e, w)
    | None =>
        let created :=
          imap (fun i f => (record_id (List.length (tasks w) + i), f)) records in
        (inr created, {| meetings := meetings w; tasks := tasks w ++ created;
                         trace := trace w |})
    end.

(** ** aiService.js *)

Definition dq : string := String (ascii_of_nat 34) EmptyString.
Definition nl : string := String (ascii_of_nat 10) EmptyString.

(** A word between double quotes. *)
Definition quoted (s : string) : string := dq +:+ s +:+ dq.

Definition rate_limit_error : Thrown :=
  AppError "OpenAI API rate limit exceeded. Please try again later." 429.

(** [error.response?.status === n] *)
Definition response_status_is (error : Thrown) (n : Z) : bool :=
  match error_response_status error with
  | Some st => st =? n
  | None => false
  end.

(** The error the [catch] block of the three chat stages throws: the rate
    limit is kept, anything else becomes the stage's own failure. *)
Definition rethrown (failure : string) (error : Thrown) : Thrown :=
  if response_status_is error 429 then rate_limit_error
  else AppError failure 500.

(** [!!process.env.OPENAI_API_KEY] *)
Definition isOpenAIConfigured (env : Env) : bool := truthy (OPENAI_API_KEY env).

(** [openai.audio.transcriptions.create({ file, model: 'whisper-1', ... })] *)
Definition openai_transcriptions_create (env : Env) (file : AudioFile)
  : M WhisperReply :=
  let* _ := emit (E_transcription file) in
  lift (transcriptions_create env file).

(** [openai.chat.completions.create(req)] *)
Definition openai_chat_completions_create (env : Env) (req : ChatRequest)
  : M (list (option string)) :=
  let* _ := emit (E_chat req) in
  lift (chat_completions_create env req).

Definition content_value (content : option string) : value :=
  match content with
  | Some s => VStr s
  | None => VNull
  end.

(** [completion.choices[0].message.content] *)
Definition first_choice_content (choices : list (option string)) : M value :=
  match choices with
  | [] => throw (JsError "TypeError"
                   "Cannot read properties of undefined (reading 'message')")
  | content :: _ => ret (content_value content)
  end.

(** [JSON.parse(v)]: the argument is converted to text first. *)
Definition js_JSON_parse (env : Env) (v : value) : M value :=
  match JSON_parse env (to_string v) with
  | Some parsed => ret parsed
  | None => throw (JsError "SyntaxError" "Unexpected token in JSON")
  end.

(** The error the [catch] block of [transcribeAudio] throws for the error it
    caught. *)
Definition transcribeAudio_rethrown (error : Thrown) : Thrown :=
  if response_status_is error 429 then rate_limit_error
  else if response_status_is error 401 then
    AppError "OpenAI API authentication failed" 500
  else if response_status_is error 413 then
    AppError "Audio file too large. Maximum size is 25MB." 400
  else AppError "Failed to transcribe audio" 500.

Definition transcribeAudio (env : Env) (audioFile : AudioFile)
  : M TranscriptionResult :=
  try_catch
    (let* _ := throw_if (negb (isOpenAIConfigured env))
                 (AppError "OpenAI API not configured" 500) in
     let* transcription := openai_transcriptions_create env audioFile in
     ret {| text := VStr (reply_text transcription);
            duration := reply_duration transcription;
            language := reply_language transcription;
            segments := reply_segments transcription;
            words := reply_words transcription |})
    (fun error => throw (transcribeAudio_rethrown error)).

(** [participants.length > 0 ? participants.join(', ') : 'Not specified'] *)
Definition render_participants (participants : list string) : string :=
  if (0 <? List.length participants)%nat then join ", " participants
  else "Not specified".

Definition MOM_prompt (transcript : value) (meetingTitle : string)
  (participants : list string) : string :=
"
Please create comprehensive Minutes of Meeting (MOM) from the following meeting transcript.

Meeting Title: " +:+ meetingTitle +:+ "
Participants: " +:+ render_participants participants +:+ "

Transcript:
" +:+ to_string transcript +:+ "

Please format the MOM with the following structure:
1. Meeting Overview
2. Attendees
3. Key Discussion Points
4. Decisions Made
5. Action Items (with responsible persons if mentioned)
6. Next Steps
7. Next Meeting (if mentioned)

Make it professional, concise, and well-organized.
".

Definition MOM_system : string :=
  "You are a professional meeting secretary who creates detailed and well-structured Minutes of Meeting. Focus on clarity, accuracy, and actionable items.".

Definition MOM_request (transcript : value) (meetingTitle : string)
  (participants : list string) : ChatRequest :=
  {| model := "gpt-4";
     system_content := MOM_system;
     user_content := MOM_prompt transcript meetingTitle participants;
     temperature := 3 # 10;
     max_tokens := 2000 |}.

Definition generateMOM (env : Env) (transcript : value) (meetingTitle : string)
  (participants : list string) : M value :=
  try_catch
    (let* _ := throw_if (negb (isOpenAIConfigured env))
                 (AppError "OpenAI API not configured" 500) in
     let* completion :=
       openai_chat_completions_create env
         (MOM_request transcript meetingTitle participants) in
     let* mom := first_choice_content completion in
     ret mom)
    (fun error => throw (rethrown "Failed to generate Minutes of Meeting" error)).

Definition extract_prompt (text : value) (context : string) : string :=
"
Analyze the following " +:+ context +:+ " and extract all action items, tasks, and follow-ups mentioned.

" +:+ (if String.eqb context "transcript" then "Meeting Transcript:"
       else "Meeting Content:") +:+ "
" +:+ to_string text +:+ "

Please extract action items in the following JSON format:
{
  " +:+ quoted "action_items" +:+ ": [
    {
      " +:+ quoted "task" +:+ ": " +:+ quoted "Description of the task" +:+ ",
      " +:+ quoted "assignee" +:+ ": "
        +:+ quoted "Person responsible (if mentioned, otherwise 'Not specified')" +:+ ",
      " +:+ quoted "deadline" +:+ ": "
        +:+ quoted "Deadline if mentioned (otherwise 'Not specified')" +:+ ",
      " +:+ quoted "priority" +:+ ": " +:+ quoted "high/medium/low (based on context)" +:+ ",
      " +:+ quoted "category" +:+ ": "
        +:+ quoted "Category of the task (e.g., 'Development', 'Research', 'Meeting', 'Documentation')" +:+ "
    }
  ]
}

Focus on:
- Clear, actionable tasks
- Specific deliverables
- Follow-up meetings
- Research or investigation tasks
- Decisions that require implementation

Return only the JSON object, no additional text.
".

Definition extract_system : string :=
  "You are an expert at identifying and extracting action items from meeting content. Return only valid JSON.".

Definition extract_request (text : value) (context : string) : ChatRequest :=
  {| model := "gpt-4";
     system_content := extract_system;
     user_content := extract_prompt text context;
     temperature := 2 # 10;
     max_tokens := 1500 |}.

(** [extractActionItems(text, context = 'transcript')].  The parsed response
    is returned as it is: its [action_items] property, whatever it holds. *)
Definition extractActionItems (env : Env) (text : value) (context : string)
  : M value :=
  try_catch
    (let* _ := throw_if (negb (isOpenAIConfigured env))
                 (AppError "OpenAI API not configured" 500) in
     let* completion :=
       openai_chat_completions_create env (extract_request text context) in
     let* response := first_choice_content completion in
     let* actionItems := js_JSON_parse env response in
     let* items := lift (get_prop actionItems K_action_items) in
     let* _ := lift (get_prop items K_length) in
     ret items)
    (fun error => throw (rethrown "Failed to extract action items" error)).

(** One line of the summary prompt:
    [`- ${item.task} (Assignee: ${item.assignee}, Deadline: ${item.deadline})`] *)
Definition action_item_line (item : value) : M string :=
  let* task := lift (get_prop item K_task) in
  let* assignee := lift (get_prop item K_assignee) in
  let* deadline := lift (get_prop item K_deadline) in
  ret ("- " +:+ to_string task +:+ " (Assignee: " +:+ to_string assignee
       +:+ ", Deadline: " +:+ to_string deadline +:+ ")").

Definition summary_prompt (mom : value) (actionItemsText : string) : string :=
"
Create a concise, email-ready summary from the following Minutes of Meeting.

Minutes of Meeting:
" +:+ to_string mom +:+ "

Action Items:
" +:+ actionItemsText +:+ "

Please create a professional email summary that includes:
1. Brief meeting overview (2-3 sentences)
2. Key decisions/outcomes
3. Priority action items
4. Next steps

Keep it concise (under 300 words) and suitable for sending to stakeholders who may not have attended the meeting.
Use a professional but friendly tone.
".

Definition summary_system : string :=
  "You are a professional communicator who creates clear, concise email summaries of meetings for busy executives and stakeholders.".

Definition summary_request (mom : value) (actionItemsText : string) : ChatRequest :=
  {| model := "gpt-4";
     system_content := summary_system;
     user_content := summary_prompt mom actionItemsText;
     temperature := 3 # 10;
     max_tokens := 800 |}.

(** The default value of a parameter: [actionItems = []]. *)
Definition or_empty_array (v : value) : value :=
  match v with VUndefined => VArr [] | _ => v end.

(** [actionItems.length > 0 ? actionItems.map(...).join('\n')
                            : 'No specific action items identified.'] *)
Definition action_items_text (env : Env) (actionItems : value) : M string :=
  let* len := lift (get_prop actionItems K_length) in
  if gt_zero env len then
    let* lines := js_map actionItems action_item_line in
    ret (join nl lines)
  else ret "No specific action items identified.".

(** [generateEmailSummary(mom, actionItems = [])] *)
Definition generateEmailSummary (env : Env) (mom : value) (actionItems : value)
  : M value :=
  try_catch
    (let* _ := throw_if (negb (isOpenAIConfigured env))
                 (AppError "OpenAI API not configured" 500) in
     let* actionItemsText :=
       action_items_text env (or_empty_array actionItems) in
     let* completion :=
       openai_chat_completions_create env
         (summary_request mom actionItemsText) in
     let* summary := first_choice_content completion in
     ret summary)
    (fun error => throw (rethrown "Failed to generate email summary" error)).

(** What [processCompleteeMeeting] returns. *)
Record AIResults : Type := {
  transcription : TranscriptionResult;
  mom : value;
  actionItems : value;
  emailSummary : value;
  processingComplete : bool;
  processedAt : string
}.

Definition processCompleteeMeeting (env : Env) (audioFile : AudioFile)
  (meetingTitle : string) (participants : list string) : M AIResults :=
  try_catch
    (let* transcription := transcribeAudio env audioFile in
     let* mom := generateMOM env (text transcription) meetingTitle participants in
     let* actionItems := extractActionItems env (text transcription) "transcript" in
     let* emailSummary := generateEmailSummary env mom actionItems in
     ret {| transcription := transcription;
            mom := mom;
            actionItems := actionItems;
            emailSummary := emailSummary;
            processingComplete := true;
            processedAt := now env |})
    (fun error => throw error).

(** ** taskService.js *)

(** A task as [formatTaskRecord] returns it. *)
Record TaskRecord : Type := {
  id : string;
  name : value;
  owner_id : value;
  status : value;
  deadline : value;
  source_meeting : value;
  team : value;
  description : value;
  priority : value;
  created_at : value
}.

Definition formatTaskRecord (record : string * Fields) : TaskRecord :=
  {| id := record.1;
     name := field record.2 FIELDS.TASKS.NAME;
     owner_id := field record.2 FIELDS.TASKS.OWNER_ID;
     status := field record.2 FIELDS.TASKS.STATUS;
     deadline := field record.2 FIELDS.TASKS.DEADLINE;
     source_meeting := field record.2 FIELDS.TASKS.SOURCE_MEETING;
     team := field record.2 FIELDS.TASKS.TEAM;
     description := field record.2 FIELDS.TASKS.DESCRIPTION;
     priority := field record.2 FIELDS.TASKS.PRIORITY;
     created_at := field record.2 FIELDS.TASKS.CREATED_AT |}.

(** [a || b] *)
Definition js_or (a b : value) : value := if truthy a then a else b.

(** The object literal built for one action item. *)
Definition task_record (env : Env) (meetingId projectId : value)
  (task assignee deadline priority : value) : Fields :=
  <[FIELDS.TASKS.NAME := task]>
  (<[FIELDS.TASKS.OWNER_ID :=
       if strict_neq_str assignee "Not specified" then assignee else VNull]>
  (<[FIELDS.TASKS.STATUS := VStr TASK_STATUS.PENDING]>
  (<[FIELDS.TASKS.DEADLINE :=
       if strict_neq_str deadline "Not specified" then deadline else VNull]>
  (<[FIELDS.TASKS.SOURCE_MEETING :=
       if truthy meetingId then VArr [meetingId] else VUndefined]>
  (<[FIELDS.TASKS.TEAM := projectId]>
  (<[FIELDS.TASKS.DESCRIPTION :=
       VStr ("Auto-generated from meeting action item: " +:+ to_string task)]>
  (<[FIELDS.TASKS.PRIORITY := js_or priority (VStr TASK_PRIORITY.MEDIUM)]>
  (<[FIELDS.TASKS.CREATED_AT := VStr (now env)]> ∅)))))))).

(** The callback of [actionItems.map]: reading a property of an item that
    is [null] or [undefined] throws. *)
Definition task_fields (env : Env) (meetingId projectId : value) (item : value)
  : M Fields :=
  let* task := lift (get_prop item K_task) in
  let* assignee := lift (get_prop item K_assignee) in
  let* deadline := lift (get_prop item K_deadline) in
  let* priority := lift (get_prop item K_priority) in
  ret (task_record env meetingId projectId task assignee deadline priority).

(** [!actionItems || actionItems.length === 0] *)
Definition no_action_items (actionItems : value) : M bool :=
  if negb (truthy actionItems) then ret true
  else let* len := lift (get_prop actionItems K_length) in
       ret (strict_eq_zero len).

Definition createTasksFromActionItems (env : Env) (actionItems : value)
  (meetingId projectId : value) : M (list TaskRecord) :=
  try_catch
    (let* _ := throw_if (negb (isAirtableConfigured env))
                 (AppError "Airtable not configured" 500) in
     let* none := no_action_items actionItems in
     if none then ret []
     else
       let* _ := getTable env TABLES_TASKS in
       let* records := js_map actionItems (task_fields env meetingId projectId) in
       let* createdRecords := tasks_create env records in
       ret (List.map formatTaskRecord createdRecords))
    (fun error =>
       throw (AppError "Failed to create tasks from action items" 500)).

(** ** meetingRoutes.js: the background job of [POST /upload] *)

(** [aiResults.actionItems && aiResults.actionItems.length > 0] *)
Definition has_action_items (env : Env) (actionItems : value) : M bool :=
  if truthy actionItems then
    let* len := lift (get_prop actionItems K_length) in
    ret (gt_zero env len)
  else ret false.

(** The fields of the update that stores the AI results. *)
Definition results_fields (aiResults : AIResults) : Fields :=
  <[FIELDS.MEETINGS.TRANSCRIPT := text (transcription aiResults)]>
  (<[FIELDS.MEETINGS.MOM := mom aiResults]>
  (<[FIELDS.MEETINGS.SUMMARY := emailSummary aiResults]> ∅)).

Definition processAIAnalysis (env : Env) (file : AudioFile) (title : string)
  (participants : list string) (meetingId projectId : string) : M unit :=
  try_catch
    (let* aiResults := processCompleteeMeeting env file title participants in
     let* _ := getTable env TABLES_MEETINGS in
     let* _ := meetings_update env meetingId (results_fields aiResults) in
     let* some := has_action_items env (actionItems aiResults) in
     if some then
       let* tasks :=
         createTasksFromActionItems env (actionItems aiResults)
           (VStr meetingId) (VStr projectId) in
       let taskIds := List.map (fun task => VStr (id task)) tasks in
       meetings_update env meetingId
         {[ FIELDS.MEETINGS.ACTION_POINTS := VArr taskIds ]}
     else ret tt)
    (fun error => throw error).

(** The annotation the route writes when the job fails. *)
Definition failure_fields (error : Thrown) : Fields :=
  {[ FIELDS.MEETINGS.MOM := VStr ("AI processing failed: " +:+ error_message error) ]}.

(** [participants ? participants.split(',') : []], on the form field. *)
Definition upload_participants (participants : option string) : list string :=
  match participants with
  | Some s => if truthy (VStr s) then split ","%char s else []
  | None => []
  end.

(** The detached part of the upload handler:
    [processAIAnalysis(...).catch(error => meetingsTable.update(...).catch(...))].
    It runs after the 202 response was sent and never throws. *)
Definition upload_background (env : Env) (file : AudioFile) (title : string)
  (participants : option string) (meetingId project_id : string) : M unit :=
  try_catch
    (processAIAnalysis env file title (upload_participants participants)
       meetingId project_id)
    (fun error =>
       try_catch (meetings_update env meetingId (failure_fields error))
         (fun updateError => ret tt)).

(** ** Predicates on strings used in the statements *)

(** [s.includes(c)] for one character. *)
Fixpoint contains (c : ascii) (s : string) : bool :=
  match s with
  | EmptyString => false
  | String d rest => Ascii.eqb d c || contains c rest
  end.

Fixpoint all_whitespace (s : string) : bool :=
  match s with
  | EmptyString => true
  | String c rest => is_whitespace c && all_whitespace rest
  end.

Definition starts_with_whitespace (s : string) : bool :=
  match s with
  | EmptyString => false
  | String c _ => is_whitespace c
  end.

Fixpoint ends_with_whitespace (s : string) : bool :=
  match s with
  | EmptyString => false
  | String c EmptyString => is_whitespace c
  | String _ rest => ends_with_whitespace rest
  end.

(** ** The Task model: the schema of an action item *)

Definition priorities : list string :=
  [TASK_PRIORITY.LOW; TASK_PRIORITY.MEDIUM; TASK_PRIORITY.HIGH; TASK_PRIORITY.URGENT].

Definition string_in (s : string) (l : list string) : bool :=
  existsb (String.eqb s) l.

(** [Joi.string()], with [.min(lo).max(hi)] when given: a string that is
    not empty, of a length within the bounds. *)
Definition joi_string (bounds : option (nat * nat)) (v : value) : bool :=
  match v with
  | VStr s =>
      negb (String.eqb s EmptyString)
      && match bounds with
         | Some (lo, hi) =>
             (lo <=? String.length s)%nat && (String.length s <=? hi)%nat
         | None => true
         end
  | _ => false
  end.

(** A key that is not [.required()] may be absent. *)
Definition joi_optional (check : value -> bool) (v : value) : bool :=
  match v with
  | VUndefined => true
  | _ => check v
  end.

(** [actionItemSchema]: an object with no other keys than the five, a
    required [task] of 1 to 255 characters, and a [priority] among
    [TASK_PRIORITY] when there is one. *)
Definition actionItemSchema (item : value) : bool :=
  match item with
  | VObj props =>
      forallb (fun kv => string_in kv.1
                 ["task"; "assignee"; "deadline"; "priority"; "category"]) props
      && joi_string (Some (1%nat, 255%nat)) (assoc "task" props)
      && joi_optional (joi_string None) (assoc "assignee" props)
      && joi_optional (joi_string None) (assoc "deadline" props)
      && joi_optional
           (fun v => joi_string None v
                     && match v with
                        | VStr s => string_in s priorities
                        | _ => false
                        end)
           (assoc "priority" props)
      && joi_optional (joi_string None) (assoc "category" props)
  | _ => false
  end.

(** [validateActionItems(actionItems)] reports no error. *)
Definition validateActionItems (actionItems : value) : bool :=
  match actionItems with
  | VArr l => forallb actionItemSchema l
  | _ => false
  end.

(** ** Parts of the stages, named for the statements *)

(** The part of [extractActionItems] after the completion arrived. *)
Definition parsed_items (env : Env) (choices : list (option string)) : M value :=
  let* response := first_choice_content choices in
  let* actionItems := js_JSON_parse env response in
  let* items := lift (get_prop actionItems K_action_items) in
  let* _ := lift (get_prop items K_length) in
  ret items.

(** The world after an accepted update of a meeting. *)
Definition updated (w : World) (id : string) (fields old : Fields) : World :=
  {| meetings := <[id := fields ∪ old]> (meetings w);
     tasks := tasks w;
     trace := trace w ++ [E_meetings_update id fields] |}.

(** The records [tasksTable.create] adds for a batch. *)
Definition created_records (w : World) (records : list Fields)
  : list (string * Fields) :=
  imap (fun i f => (record_id (List.length (tasks w) + i), f)) records.

(** A computation that calls nothing outside and can only throw a built-in
    error. *)
Definition js_only {A} (r : Thrown + A) : Prop :=
  match r with
  | inl (JsError _ _) => True
  | inl _ => False
  | inr _ => True
  end.

Definition pure_js {A} (m : M A) : Prop :=
  forall w, exists r, m w = (r, w) /\ js_only r.

(** [v == null]: the value is [null] or [undefined]. *)
Definition nullish (v : value) : bool :=
  match v with
  | VUndefined | VNull => true
  | _ => false
  end.

(** The world after an accepted creation of tasks. *)
Definition with_tasks (w : World) (records : list Fields) : World :=
  {| meetings := meetings w;
     tasks := tasks w ++ created_records w records;
     trace := trace w ++ [E_tasks_create records] |}.

(** ** Reading the trace *)

(** The steps of a run, as they show in the trace: the four calls to
    OpenAI, the update that stores their results, the creation of the
    tasks, the update that links them, and the failure annotation. *)
Inductive Stage : Type :=
  | Transcribe | Minutes | Extract | Summary
  | Persist | Materialize | Link | Marker | Unknown.

Definition has_field (f : Fields) (name : string) : bool :=
  match f !! name with Some _ => true | None => false end.

Definition stage_of (e : Effect) : Stage :=
  match e with
  | E_transcription _ => Transcribe
  | E_chat req =>
      if String.eqb (system_content req) MOM_system then Minutes
      else if String.eqb (system_content req) extract_system then Extract
      else if String.eqb (system_content req) summary_system then Summary
      else Unknown
  | E_meetings_update _ f =>
      if has_field f FIELDS.MEETINGS.TRANSCRIPT then Persist
      else if has_field f FIELDS.MEETINGS.ACTION_POINTS then Link
      else Marker
  | E_tasks_create _ => Materialize
  end.


(** The effect is an update of the Meetings table that writes the field. *)
Definition writes_field (name : string) (e : Effect) : bool :=
  match e with
  | E_meetings_update _ f => has_field f name
  | _ => false
  end.

(** A field of a meeting, [undefined] when the record or the field is
    missing. *)
Definition meeting_field (w : World) (id name : string) : value :=
  match meetings w !! id with
  | Some f => field f name
  | None => VUndefined
  end.

(** The updates of the Meetings table a run makes: of the meeting of the
    run, and either the AI results, the list of task ids, or the failure
    annotation. *)
Definition pipeline_effect (meetingId : string) (e : Effect) : Prop :=
  match e with
  | E_meetings_update id f =>
      id = meetingId
      /\ ((exists res, f = results_fields res)
          \/ (exists ids, f = {[ FIELDS.MEETINGS.ACTION_POINTS := VArr ids ]})
          \/ (exists err, f = failure_fields err))
  | _ => True
  end.

Definition is_ok {A} (r : Thrown + A) : Prop :=
  match r with inr _ => True | inl _ => False end.

(** The computation makes the calls of a prefix of [stages], in order. *)
Definition runs_some (meetingId : string) (stages : list Stage) {A} (m : M A)
  : Prop :=
  forall w, exists es k,
    trace (m w).2 = trace w ++ es
    /\ Forall (pipeline_effect meetingId) es
    /\ (k <= List.length stages)%nat
    /\ List.map stage_of es = take k stages.

(** The same, and all of [stages] when it does not throw. *)
Definition runs_all (meetingId : string) (stages : list Stage) {A} (m : M A)
  : Prop :=
  forall w, exists es k,
    trace (m w).2 = trace w ++ es
    /\ Forall (pipeline_effect meetingId) es
    /\ (k <= List.length stages)%nat
    /\ List.map stage_of es = take k stages
    /\ (is_ok (m w).1 -> k = List.length stages).

(** The effect is a call to OpenAI. *)
Definition ai_call (e : Effect) : bool :=
  match e with
  | E_transcription _ | E_chat _ => true
  | _ => false
  end.

(** The computation leaves the tables as they were and only calls OpenAI. *)
Definition ai_frame {A} (m : M A) : Prop :=
  forall w, exists es, (m w).2 = traced w es /\ forallb ai_call es = true.

(** The effect neither creates tasks nor writes the list of task ids. *)
Definition quiet (e : Effect) : Prop :=
  stage_of e <> Materialize
  /\ writes_field FIELDS.MEETINGS.ACTION_POINTS e = false.

(** ** Test doubles *)

Definition recording : AudioFile :=
  {| originalname := "standup.mp3"; mimetype := "audio/mpeg"; file_size := 2048 |}.

Definition spoken : string :=
  "Alice will send the report by Friday. Bob to review the budget.".

Definition heard : WhisperReply :=
  {| reply_text := spoken; reply_duration := VNum 12;
     reply_language := VStr "english";
     reply_segments := VArr []; reply_words := VArr [] |}.

Definition two_items : value :=
  VArr [ VObj [("task", VStr "send the report"); ("assignee", VStr "Alice");
               ("deadline", VStr "Friday"); ("priority", VStr "high");
               ("category", VStr "Documentation")];
         VObj [("task", VStr "review the budget"); ("assignee", VStr "Bob");
               ("deadline", VStr "Not specified")] ].

(** An item the schema refuses: no text, and a priority that is not one. *)
Definition bad_items : value :=
  VArr [ VObj [("task", VStr EmptyString); ("priority", VStr "critical")] ].

Definition two_items_json : string :=
  "{" +:+ quoted "action_items" +:+ ":[{"
  +:+ quoted "task" +:+ ":" +:+ quoted "send the report" +:+ ","
  +:+ quoted "assignee" +:+ ":" +:+ quoted "Alice" +:+ ","
  +:+ quoted "deadline" +:+ ":" +:+ quoted "Friday" +:+ ","
  +:+ quoted "priority" +:+ ":" +:+ quoted "high" +:+ ","
  +:+ quoted "category" +:+ ":" +:+ quoted "Documentation" +:+ "},{"
  +:+ quoted "task" +:+ ":" +:+ quoted "review the budget" +:+ ","
  +:+ quoted "assignee" +:+ ":" +:+ quoted "Bob" +:+ ","
  +:+ quoted "deadline" +:+ ":" +:+ quoted "Not specified" +:+ "}]}".

Definition no_items_json : string :=
  "{" +:+ quoted "action_items" +:+ ":[]}".

Definition bad_items_json : string :=
  "{" +:+ quoted "action_items" +:+ ":[{"
  +:+ quoted "task" +:+ ":" +:+ quoted EmptyString +:+ ","
  +:+ quoted "priority" +:+ ":" +:+ quoted "critical" +:+ "}]}".

(** [JSON.parse] on the three texts above. *)
Definition parse_double (s : string) : option value :=
  if String.eqb s two_items_json then
    Some (VObj [("action_items", two_items)])
  else if String.eqb s no_items_json then
    Some (VObj [("action_items", VArr [])])
  else if String.eqb s bad_items_json then
    Some (VObj [("action_items", bad_items)])
  else None.

(** An environment in which OpenAI answers each stage as given and
    Airtable rejects the updates [reject] selects. *)
Definition env_double (whisper : Thrown + WhisperReply)
  (minutes extraction summary : Thrown + list (option string))
  (airtable : bool) (reject : Fields -> option Thrown) : Env :=
  {| OPENAI_API_KEY := VStr "sk-test";
     airtable_configured := airtable;
     transcriptions_create := fun _ => whisper;
     chat_completions_create := fun req =>
       if String.eqb (system_content req) MOM_system then minutes
       else if String.eqb (system_content req) extract_system then extraction
       else summary;
     JSON_parse := parse_double;
     StringToNumber_positive := fun _ => false;
     meetings_update_rejected := fun _ f => reject f;
     tasks_create_rejected := fun _ => None;
     now := "2025-08-05T14:00:00.000Z" |}.

Definition unavailable : Thrown :=
  ClientError "Service Unavailable" (Some 503).

Definition minutes_text : list (option string) := [Some "1. Meeting Overview"].
Definition summary_text : list (option string) := [Some "Summary for stakeholders"].

(** Everything answers. *)
Definition env_ok : Env :=
  env_double (inr heard) (inr minutes_text) (inr [Some two_items_json])
    (inr summary_text) true (fun _ => None).

(** The minutes stage fails. *)
Definition env_minutes_down : Env :=
  env_double (inr heard) (inl unavailable) (inr [Some two_items_json])
    (inr summary_text) true (fun _ => None).


(** The model finds no action item. *)
Definition env_no_items : Env :=
  env_double (inr heard) (inr minutes_text) (inr [Some no_items_json])
    (inr summary_text) true (fun _ => None).

(** The model answers with an item the schema refuses. *)
Definition env_bad_items : Env :=
  env_double (inr heard) (inr minutes_text) (inr [Some bad_items_json])
    (inr summary_text) true (fun _ => None).


(** A world with the record the upload handler has just created. *)
Definition w0 : World :=
  {| meetings := {[ "m1" := {[ "title" := VStr "Standup" ]} ]};
     tasks := [];
     trace := [] |}.

(** ** taskService.js: the operations on one task *)

(** The remaining calls to the Tasks table.  Each is rejected when its
    oracle returns an error; [find], [update] and [destroy] are rejected as
    well when no record has the id.  They are not recorded in the trace,
    which lists the calls of the pipeline. *)
Record TasksApi : Type := {
  tasks_find_rejected : string -> option Thrown;
  tasks_update_rejected : string -> Fields -> option Thrown;
  tasks_destroy_rejected : string -> option Thrown
}.

Definition not_found : Thrown :=
  ClientError "Could not find what you are looking for" None.

Fixpoint find_record (rid : string) (table : list (string * Fields))
  : option Fields :=
  match table with
  | [] => None
  | (i, f) :: rest => if String.eqb i rid then Some f else find_record rid rest
  end.

Fixpoint set_record (rid : string) (f : Fields) (table : list (string * Fields))
  : list (string * Fields) :=
  match table with
  | [] => []
  | (i, g) :: rest =>
      if String.eqb i rid then (i, f) :: rest
      else (i, g) :: set_record rid f rest
  end.

Fixpoint remove_record (rid : string) (table : list (string * Fields))
  : list (string * Fields) :=
  match table with
  | [] => []
  | (i, g) :: rest =>
      if String.eqb i rid then rest else (i, g) :: remove_record rid rest
  end.

Definition with_table (w : World) (table : list (string * Fields)) : World :=
  {| meetings := meetings w; tasks := table; trace := trace w |}.

(** [tasksTable.find(taskId)] *)
Definition tasks_find (api : TasksApi) (taskId : string) : M (string * Fields) :=
  fun w =>
    match tasks_find_rejected api taskId, find_record taskId (tasks w) with
    | Some e, _ => (inl e, w)
    | None, None => (inl not_found, w)
    | None, Some f => (inr (taskId, f), w)
    end.

(** [tasksTable.update([{ id, fields }])]: a partial update of one record. *)
Definition tasks_update (api : TasksApi) (taskId : string) (fields : Fields)
  : M (string * Fields) :=
  fun w =>
    match tasks_update_rejected api taskId fields,
          find_record taskId (tasks w) with
    | Some e, _ => (inl e, w)
    | None, None => (inl not_found, w)
    | None, Some old =>
        (inr (taskId, fields ∪ old),
         with_table w (set_record taskId (fields ∪ old) (tasks w)))
    end.

(** [tasksTable.destroy([taskId])] *)
Definition tasks_destroy (api : TasksApi) (taskId : string) : M unit :=
  fun w =>
    match tasks_destroy_rejected api taskId, find_record taskId (tasks w) with
    | Some e, _ => (inl e, w)
    | None, None => (inl not_found, w)
    | None, Some _ => (inr tt, with_table w (remove_record taskId (tasks w)))
    end.

(** The [taskData] object of [createTask]. *)
Record TaskData : Type := {
  td_name : value;
  td_owner_id : value;
  td_status : value;
  td_deadline : value;
  td_source_meeting : value;
  td_team : value;
  td_description : value;
  td_priority : value
}.

Definition createTask_fields (env : Env) (taskData : TaskData) : Fields :=
  <[FIELDS.TASKS.NAME := td_name taskData]>
  (<[FIELDS.TASKS.OWNER_ID := td_owner_id taskData]>
  (<[FIELDS.TASKS.STATUS :=
       js_or (td_status taskData) (VStr TASK_STATUS.PENDING)]>
  (<[FIELDS.TASKS.DEADLINE := td_deadline taskData]>
  (<[FIELDS.TASKS.SOURCE_MEETING :=
       if truthy (td_source_meeting taskData)
       then VArr [td_source_meeting taskData] else VUndefined]>
  (<[FIELDS.TASKS.TEAM := td_team taskData]>
  (<[FIELDS.TASKS.DESCRIPTION := td_description taskData]>
  (<[FIELDS.TASKS.PRIORITY :=
       js_or (td_priority taskData) (VStr TASK_PRIORITY.MEDIUM)]>
  (<[FIELDS.TASKS.CREATED_AT := VStr (now env)]> ∅)))))))).

(** [record[0]] of the array a call returned. *)
Definition first_record (records : list (string * Fields))
  : M (string * Fields) :=
  match records with
  | r :: _ => ret r
  | [] => throw (JsError "TypeError"
                   "Cannot read properties of undefined (reading 'id')")
  end.

Definition createTask (env : Env) (taskData : TaskData) : M TaskRecord :=
  try_catch
    (let* _ := throw_if (negb (isAirtableConfigured env))
                 (AppError "Airtable not configured" 500) in
     let* _ := getTable env TABLES_TASKS in
     let* record := tasks_create env [createTask_fields env taskData] in
     let* created := first_record record in
     ret (formatTaskRecord created))
    (fun error => throw (AppError "Failed to create task" 500)).

(** The ownership check shared by the three operations below:
    [task.fields[OWNER_ID] !== userId]. *)
Definition not_owner (task : string * Fields) (userId : string) : bool :=
  strict_neq_str (field task.2 FIELDS.TASKS.OWNER_ID) userId.

Definition updateTaskStatus (env : Env) (api : TasksApi) (taskId : string)
  (new_status : value) (userId : string) : M TaskRecord :=
  try_catch
    (let* _ := throw_if (negb (isAirtableConfigured env))
                 (AppError "Airtable not configured" 500) in
     let* _ := getTable env TABLES_TASKS in
     let* task := tasks_find api taskId in
     let* _ := throw_if (not_owner task userId)
                 (AppError "Not authorized to update this task" 403) in
     let* updatedRecord :=
       tasks_update api taskId {[ FIELDS.TASKS.STATUS := new_status ]} in
     ret (formatTaskRecord updatedRecord))
    (fun error => throw (AppError "Failed to update task status" 500)).

(** The [updates] object of [updateTask] (the request body). *)
Record TaskUpdates : Type := {
  u_name : value;
  u_status : value;
  u_deadline : value;
  u_description : value;
  u_priority : value
}.

(** [if (v) updateFields[name] = v;] *)
Definition put_if (name : string) (v : value) (f : Fields) : Fields :=
  if truthy v then <[name := v]> f else f.

Definition updateFields (updates : TaskUpdates) : Fields :=
  put_if FIELDS.TASKS.PRIORITY (u_priority updates)
  (put_if FIELDS.TASKS.DESCRIPTION (u_description updates)
  (put_if FIELDS.TASKS.DEADLINE (u_deadline updates)
  (put_if FIELDS.TASKS.STATUS (u_status updates)
  (put_if FIELDS.TASKS.NAME (u_name updates) ∅)))).

Definition updateTask (env : Env) (api : TasksApi) (taskId : string)
  (updates : TaskUpdates) (userId : string) : M TaskRecord :=
  try_catch
    (let* _ := throw_if (negb (isAirtableConfigured env))
                 (AppError "Airtable not configured" 500) in
     let* _ := getTable env TABLES_TASKS in
     let* task := tasks_find api taskId in
     let* _ := throw_if (not_owner task userId)
                 (AppError "Not authorized to update this task" 403) in
     let* updatedRecord := tasks_update api taskId (updateFields updates) in
     ret (formatTaskRecord updatedRecord))
    (fun error => throw (AppError "Failed to update task" 500)).

Definition deleteTask (env : Env) (api : TasksApi) (taskId : string)
  (userId : string) : M unit :=
  try_catch
    (let* _ := throw_if (negb (isAirtableConfigured env))
                 (AppError "Airtable not configured" 500) in
     let* _ := getTable env TABLES_TASKS in
     let* task := tasks_find api taskId in
     let* _ := throw_if (not_owner task userId)
                 (AppError "Not authorized to delete this task" 403) in
     let* _ := tasks_destroy api taskId in
     ret tt)
    (fun error => throw (AppError "Failed to delete task" 500)).

(** ** taskRoutes.js *)

Definition validStatuses : list string :=
  ["pending"; "in_progress"; "done"; "cancelled"].

(** [list.includes(v)] for a list of strings. *)
Definition includes_value (l : list string) (v : value) : bool :=
  match v with
  | VStr s => string_in s l
  | _ => false
  end.

(** The body of [POST /api/tasks]. *)
Record NewTask : Type := {
  nt_name : value;
  nt_description : value;
  nt_deadline : value;
  nt_priority : value;
  nt_team : value;
  nt_assignee : value
}.

Definition post_task (env : Env) (body : NewTask) (userId : string)
  : M TaskRecord :=
  let* _ := throw_if (negb (truthy (nt_name body)))
              (AppError "Task name is required" 400) in
  createTask env
    {| td_name := nt_name body;
       td_owner_id := js_or (nt_assignee body) (VStr userId);
       td_status := VUndefined;
       td_deadline := nt_deadline body;
       td_source_meeting := VUndefined;
       td_team := nt_team body;
       td_description := nt_description body;
       td_priority := nt_priority body |}.

Definition invalid_status : Thrown :=
  AppError ("Invalid status. Must be one of: " +:+ join ", " validStatuses) 400.

(** [PATCH /api/tasks/:id/status] *)
Definition patch_task_status (env : Env) (api : TasksApi) (taskId : string)
  (new_status : value) (userId : string) : M TaskRecord :=
  let* _ := throw_if (negb (truthy new_status))
              (AppError "Status is required" 400) in
  let* _ := throw_if (negb (includes_value validStatuses new_status))
              invalid_status in
  updateTaskStatus env api taskId new_status userId.

(** The answer of the bulk update. *)
Record BulkResult : Type := {
  updated_tasks : list TaskRecord;
  errors : list (string * string);
  total_requested : nat;
  successful : nat;
  failed : nat
}.

(** The loop of [PATCH /api/tasks/bulk/status]: one [updateTaskStatus] per
    id, its failure kept in [errors]. *)
Fixpoint bulk_loop (env : Env) (api : TasksApi) (new_status : value)
  (userId : string) (task_ids : list string)
  (results : list TaskRecord) (errs : list (string * string))
  : World -> (list TaskRecord * list (string * string)) * World :=
  fun w =>
    match task_ids with
    | [] => ((results, errs), w)
    | taskId :: rest =>
        match updateTaskStatus env api taskId new_status userId w with
        | (inr task, w') =>
            bulk_loop env api new_status userId rest (results ++ [task]) errs w'
        | (inl error, w') =>
            bulk_loop env api new_status userId rest results
              (errs ++ [(taskId, error_message error)]) w'
        end
    end.

(** [PATCH /api/tasks/bulk/status], on an array of record ids. *)
Definition patch_bulk_status (env : Env) (api : TasksApi)
  (task_ids : list string) (new_status : value) (userId : string)
  : M BulkResult :=
  let* _ := throw_if (Nat.eqb (List.length task_ids) 0)
              (AppError "Task IDs array is required" 400) in
  let* _ := throw_if (negb (truthy new_status))
              (AppError "Status is required" 400) in
  let* _ := throw_if (negb (includes_value validStatuses new_status))
              invalid_status in
  fun w =>
    let '((results, errs), w') :=
      bulk_loop env api new_status userId task_ids [] [] w in
    (inr {| updated_tasks := results; errors := errs;
            total_requested := List.length task_ids;
            successful := List.length results;
            failed := List.length errs |}, w').

(** A field of a task, [undefined] when the record or the field is missing. *)
Definition task_field (w : World) (rid name : string) : value :=
  match find_record rid (tasks w) with
  | Some f => field f name
  | None => VUndefined
  end.

(** Test doubles: a Tasks table that accepts every call, and a world with
    a task of user [u1] and a task without owner. *)
Definition api_ok : TasksApi :=
  {| tasks_find_rejected := fun _ => None;
     tasks_update_rejected := fun _ _ => None;
     tasks_destroy_rejected := fun _ => None |}.

Definition task_of_u1 : Fields :=
  <[FIELDS.TASKS.NAME := VStr "send the report"]>
  (<[FIELDS.TASKS.OWNER_ID := VStr "u1"]>
  (<[FIELDS.TASKS.STATUS := VStr "pending"]>
  (<[FIELDS.TASKS.TEAM := VStr "p1"]> ∅))).

Definition task_unowned : Fields :=
  <[FIELDS.TASKS.NAME := VStr "review the budget"]>
  (<[FIELDS.TASKS.OWNER_ID := VNull]>
  (<[FIELDS.TASKS.STATUS := VStr "pending"]> ∅)).

Definition w_tasks : World :=
  {| meetings := ∅;
     tasks := [("rec0", task_of_u1); ("rec1", task_unowned)];
     trace := [] |}.

(** ** The Meeting model: participants, media types, file names, search *)

(** A participant as [parseParticipants] returns them: not empty, without
    comma, without white space at either end. *)
Definition clean_participant (p : string) : bool :=
  negb (String.eqb p EmptyString)
  && negb (contains ","%char p)
  && negb (starts_with_whitespace p)
  && negb (ends_with_whitespace p).

(** The three lists of media types the program holds: the two of the
    model and the one of the upload route. *)
Definition validAudioTypes : list string :=
  ["audio/mpeg"; "audio/mp3"; "audio/wav"; "audio/m4a"; "audio/ogg"].

Definition validVideoTypes : list string :=
  ["video/mp4"; "video/mpeg"; "video/quicktime"; "video/x-msvideo"].

Definition isValidAudioFile (mimetype : value) : bool :=
  includes_value validAudioTypes mimetype.

Definition isValidVideoFile (mimetype : value) : bool :=
  includes_value validVideoTypes mimetype.

Definition isValidMediaFile (mimetype : value) : bool :=
  isValidAudioFile mimetype || isValidVideoFile mimetype.

Definition allowedMimes : list string :=
  ["audio/mpeg"; "audio/mp3"; "audio/wav"; "audio/m4a"; "audio/ogg";
   "video/mp4"; "video/mpeg"; "video/quicktime"; "video/x-msvideo"].

(** The [fileFilter] of the upload: the error it hands to its callback,
    [None] when the file is accepted. *)
Definition fileFilter (mimetype : value) : option Thrown :=
  if includes_value allowedMimes mimetype then None
  else Some (AppError
               "Invalid file type. Please upload audio or video files only."
               400).

(** [Joi.string().valid(...).required()] of [fileUploadSchema.mimetype]. *)
Definition fileUploadSchema_mimetype (mimetype : value) : bool :=
  includes_value
    ["audio/mpeg"; "audio/mp3"; "audio/wav"; "audio/m4a"; "audio/ogg";
     "video/mp4"; "video/mpeg"; "video/quicktime"; "video/x-msvideo"]
    mimetype.

(** [s.toLowerCase()] on 8-bit code units: A to Z and the capital letters
    of Latin-1 (U+00C0 to U+00DE, the sign U+00D7 apart) move 32 up. *)
Definition lower_char (c : ascii) : ascii :=
  let n := Ascii.N_of_ascii c in
  if ((65 <=? n) && (n <=? 90)
      || (192 <=? n) && (n <=? 222) && negb (n =? 215))%N
  then Ascii.ascii_of_N (n + 32) else c.

Fixpoint toLowerCase (s : string) : string :=
  match s with
  | EmptyString => EmptyString
  | String c rest => String (lower_char c) (toLowerCase rest)
  end.

(** [filename.split('.').pop()?.toLowerCase() || ''] *)
Definition getFileExtension (filename : string) : string :=
  let popped := List.last (split "."%char filename) EmptyString in
  let lowered := toLowerCase popped in
  if String.eqb lowered EmptyString then EmptyString else lowered.

Fixpoint every (p : ascii -> bool) (s : string) : bool :=
  match s with
  | EmptyString => true
  | String c rest => p c && every p rest
  end.

(** [s.replace(/\.[^/.]+$/, '')]: the first place where a dot is followed,
    up to the end, by one or more characters that are neither a slash nor a
    dot; from there on the text is dropped. *)
Fixpoint strip_extension (s : string) : string :=
  match s with
  | EmptyString => EmptyString
  | String c rest =>
      if Ascii.eqb c "."%char
         && negb (String.eqb rest EmptyString)
         && every (fun d => negb (Ascii.eqb d "/"%char || Ascii.eqb d "."%char))
              rest
      then EmptyString
      else String c (strip_extension rest)
  end.

Definition is_alnum (c : ascii) : bool :=
  let n := Ascii.N_of_ascii c in
  ((97 <=? n) && (n <=? 122) || (65 <=? n) && (n <=? 90)
   || (48 <=? n) && (n <=? 57))%N.

(** [s.replace(/[^a-zA-Z0-9]/g, '_')] *)
Fixpoint sanitize (s : string) : string :=
  match s with
  | EmptyString => EmptyString
  | String c rest =>
      String (if is_alnum c then c else "_"%char) (sanitize rest)
  end.

(** [generateFileName], [timestamp] being what [Date.now()] returns. *)
Definition generateFileName (timestamp : N) (originalName prefix : string)
  : string :=
  let extension := getFileExtension originalName in
  let baseName := sanitize (strip_extension originalName) in
  prefix +:+ "_" +:+ pretty timestamp +:+ "_" +:+ baseName +:+ "."
    +:+ extension.

(** A meeting as [searchMeetings] reads it. *)
Record Meeting : Type := {
  meeting_id : string;
  m_title : value;
  m_transcript : value;
  m_mom : value;
  m_summary : value
}.

(** [s.includes(t)] *)
Fixpoint includes (s t : string) : bool :=
  String.prefix t s
  || match s with
     | EmptyString => false
     | String _ rest => includes rest t
     end.

(** [meeting.f?.toLowerCase().includes(term)]: [undefined] (falsy) when the
    field is [null] or [undefined], a TypeError when it is anything else
    than a string. *)
Definition field_includes (fname : string) (v : value) (term : string)
  : Thrown + bool :=
  match v with
  | VUndefined | VNull => inr false
  | VStr s => inr (includes (toLowerCase s) term)
  | _ => inl (JsError "TypeError"
                ("meeting." +:+ fname +:+ "?.toLowerCase is not a function"))
  end.

(** [a || b]: [b] is evaluated only when [a] is falsy. *)
Definition or_else (a b : Thrown + bool) : Thrown + bool :=
  match a with
  | inr false => b
  | _ => a
  end.

(** The callback of [meetings.filter]. *)
Definition meeting_matches (term : string) (meeting : Meeting) : Thrown + bool :=
  or_else (field_includes "title" (m_title meeting) term)
  (or_else (field_includes "transcript" (m_transcript meeting) term)
  (or_else (field_includes "mom" (m_mom meeting) term)
           (field_includes "summary" (m_summary meeting) term))).

(** [l.filter(f)] for a callback that may throw. *)
Fixpoint js_filter {A} (f : A -> Thrown + bool) (l : list A) : Thrown + list A :=
  match l with
  | [] => inr []
  | x :: rest =>
      match f x with
      | inl e => inl e
      | inr b =>
          match js_filter f rest with
          | inl e => inl e
          | inr kept => inr (if b then x :: kept else kept)
          end
      end
  end.

Definition searchMeetings (meetings : list Meeting) (searchTerm : value)
  : Thrown + list Meeting :=
  if negb (truthy searchTerm) then inr meetings
  else
    match searchTerm with
    | VStr s =>
        if String.eqb (trim s) EmptyString then inr meetings
        else js_filter (meeting_matches (trim (toLowerCase s))) meetings
    | _ => inl (JsError "TypeError" "searchTerm.trim is not a function")
    end.

(** A field that [searchMeetings] can read: a string, [null] or nothing. *)
Definition text_or_nothing (v : value) : bool :=
  match v with
  | VUndefined | VNull | VStr _ => true
  | _ => false
  end.

Definition searchable (meeting : Meeting) : bool :=
  text_or_nothing (m_title meeting)
  && text_or_nothing (m_transcript meeting)
  && text_or_nothing (m_mom meeting)
  && text_or_nothing (m_summary meeting).

(** The field is a text that holds [term], letter case apart. *)
Definition mentions (term : string) (v : value) : bool :=
  match v with
  | VStr s => includes (toLowerCase s) term
  | _ => false
  end.

Definition meeting_mentions (term : string) (meeting : Meeting) : bool :=
  mentions term (m_title meeting)
  || mentions term (m_transcript meeting)
  || mentions term (m_mom meeting)
  || mentions term (m_summary meeting).

(** An environment without a key for OpenAI. *)
Definition env_no_key : Env :=
  {| OPENAI_API_KEY := VUndefined;
     airtable_configured := true;
     transcriptions_create := fun _ => inr heard;
     chat_completions_create := fun _ => inr minutes_text;
     JSON_parse := parse_double;
     StringToNumber_positive := fun _ => false;
     meetings_update_rejected := fun _ _ => None;
     tasks_create_rejected := fun _ => None;
     now := "2025-08-05T14:00:00.000Z" |}.

(** The failures the AI service lets out: an [AppError] of status 400, 429
    or 500. *)
Definition service_failure (e : Thrown) : Prop :=
  match e with
  | AppError _ c => c = 400 \/ c = 429 \/ c = 500
  | _ => False
  end.

(** The line of the summary prompt for an item that is an object:
    [`- ${item.task} (Assignee: ${item.assignee}, Deadline: ${item.deadline})`] *)
Definition summary_line (props : list (string * value)) : string :=
  "- " +:+ to_string (assoc "task" props)
  +:+ " (Assignee: " +:+ to_string (assoc "assignee" props)
  +:+ ", Deadline: " +:+ to_string (assoc "deadline" props) +:+ ")".

(** ** errorHandler.js *)

(** An error as the global handler reads it: [name], [code], [message],
    the own property [statusCode], [response.status] ([undefined] without
    a response) and, for a validation error, the messages of
    [Object.values(err.errors)] ([None] when there is no [errors]). *)
Record ErrorObject : Type := {
  err_name : string;
  err_code : value;
  err_message : string;
  err_statusCode : value;
  err_response_status : value;
  err_errors : option (list string)
}.

(** [new AppError(message, statusCode)] *)
Definition AppError_object (message : string) (statusCode : Z) : ErrorObject :=
  {| err_name := "Error";
     err_code := VUndefined;
     err_message := message;
     err_statusCode := VNum statusCode;
     err_response_status := VUndefined;
     err_errors := None |}.

(** [v === n] and [v === 's'] *)
Definition strict_eq_num (v : value) (n : Z) : bool :=
  match v with VNum m => m =? n | _ => false end.

Definition strict_eq_str (v : value) (s : string) : bool :=
  match v with VStr t => String.eqb t s | _ => false end.

(** What the handler answers: the status and [error.message] of the body
    (the stack, sent in development only, is left out). *)
Record Response : Type := {
  res_status : value;
  res_message : string
}.

(** The [error] variable of the handler: its [statusCode] and [message]. *)
Definition replaced_if (c : bool) (statusCode : Z) (message : string)
  (error : value * string) : value * string :=
  if c then (VNum statusCode, message) else error.

Definition errorHandler (err : ErrorObject) : Thrown + Response :=
  let error := (err_statusCode err, err_message err) in
  let error :=
    replaced_if (String.eqb (err_name err) "CastError")
      404 "Resource not found" error in
  let error :=
    replaced_if (strict_eq_num (err_code err) 11000)
      400 "Duplicate field value entered" error in
  let validated :=
    if String.eqb (err_name err) "ValidationError" then
      match err_errors err with
      | Some messages => inr (VNum 400, join "," messages)
      | None => inl (JsError "TypeError"
                       "Cannot convert undefined or null to object")
      end
    else inr error in
  match validated with
  | inl e => inl e
  | inr error =>
      let error :=
        replaced_if (String.eqb (err_name err) "JsonWebTokenError")
          401 "Invalid token" error in
      let error :=
        replaced_if (String.eqb (err_name err) "TokenExpiredError")
          401 "Token expired" error in
      let error :=
        replaced_if (negb (String.eqb (err_message err) EmptyString)
                     && includes (err_message err) "JWT")
          401 "Authentication failed" error in
      let error :=
        if truthy (err_response_status err) then
          if strict_eq_num (err_response_status err) 429 then
            (VNum 429,
             "OpenAI API rate limit exceeded. Please try again later.")
          else if strict_eq_num (err_response_status err) 401 then
            (VNum 500, "OpenAI API authentication failed")
          else error
        else error in
      let error :=
        replaced_if (strict_eq_str (err_code err) "LIMIT_FILE_SIZE")
          400 "File too large" error in
      inr {| res_status := js_or error.1 (VNum 500);
             res_message := if String.eqb error.2 EmptyString
                            then "Internal Server Error" else error.2 |}
  end.

(** The answer to a request whose handler threw [e] ([asyncHandler] hands
    the error to [errorHandler]); the routes modelled here throw nothing
    but [AppError]s. *)
Definition error_response (e : Thrown) : option (Thrown + Response) :=
  match e with
  | AppError message statusCode =>
      Some (errorHandler (AppError_object message statusCode))
  | _ => None
  end.

(** ** auth.js *)

Definition authError (message : string) : Thrown := AppError message 401.
Definition forbiddenError (message : string) : Thrown := AppError message 403.

(** [req.user], as [protect] sets it. *)
Record User : Type := {
  user_id : string;
  user_role : value
}.

(** A middleware either throws or calls [next()]: [None] is [next()]. *)
Definition authorize (roles : list string) (user : option User)
  : option Thrown :=
  match user with
  | None => Some (authError "Access denied. Please authenticate.")
  | Some u =>
      if negb (includes_value roles (user_role u)) then
        Some (forbiddenError
                ("Access denied. Required roles: " +:+ join ", " roles))
      else None
  end.

Definition isSuperAdmin (user : option User) : option Thrown :=
  authorize ["super_admin"] user.

Definition isAdmin (user : option User) : option Thrown :=
  authorize ["super_admin"; "project_admin"] user.

Definition canAccess (user : option User) : option Thrown :=
  authorize ["super_admin"; "project_admin"; "team_member"] user.

Definition canModifyResource (resourceUserId : value) (user : option User)
  : option Thrown :=
  match user with
  | None => Some (authError "Access denied. Please authenticate.")
  | Some u =>
      let isOwner := strict_eq_str resourceUserId (user_id u) in
      let isAdmin :=
        includes_value ["super_admin"; "project_admin"] (user_role u) in
      if negb isOwner && negb isAdmin then
        Some (forbiddenError
                "Access denied. You can only modify your own resources.")
      else None
  end.

(** [arr[i]] on an array of strings. *)
Definition js_nth (l : list string) (i : nat) : value :=
  match l !! i with
  | Some s => VStr s
  | None => VUndefined
  end.

(** [extractToken(req)], on the [authorization] header ([None] when the
    request has none). *)
Definition extractToken (authorization : option string) : value :=
  match authorization with
  | Some header =>
      if negb (String.eqb header EmptyString) && String.prefix "Bearer" header
      then js_nth (split " "%char header) 1
      else VUndefined
  | None => VUndefined
  end.

(** ** Statistics of tasks: the Task model and the task service *)

(** Dates: [getTime v] is [new Date(v).getTime()], [None] for an invalid
    date; [current_time] is the time of [new Date()], taken to be the same
    each time it is read within one computation. *)
Record Clock : Type := {
  getTime : value -> option Z;
  current_time : Z
}.

(** The names every object inherits from [Object.prototype]. *)
Definition inherited_key (k : string) : bool :=
  string_in k
    ["constructor"; "hasOwnProperty"; "isPrototypeOf"; "propertyIsEnumerable";
     "toLocaleString"; "toString"; "valueOf"; "__proto__";
     "__defineGetter__"; "__defineSetter__"; "__lookupGetter__";
     "__lookupSetter__"].

(** [stats[k] = (stats[k] || 0) + 1], and [stats.k++] on a counter. *)
Definition bump (k : string) (stats : gmap string Z) : gmap string Z :=
  <[k := default 0 (stats !! k) + 1]> stats.

(** The body of the [forEach] of [calculateTaskStats]. *)
Definition count_task (clock : Clock) (stats : gmap string Z)
  (task : TaskRecord) : gmap string Z :=
  let stats := bump (to_string (status task)) stats in
  let stats :=
    if truthy (deadline task) && strict_neq_str (status task) TASK_STATUS.DONE
    then
      match getTime clock (deadline task) with
      | Some t =>
          if t <? current_time clock then bump "overdue" stats
          else if t <=? current_time clock + 7 * 24 * 60 * 60 * 1000
               then bump "due_soon" stats
               else stats
      | None => stats
      end
    else stats in
  if includes_value [TASK_PRIORITY.HIGH; TASK_PRIORITY.URGENT] (priority task)
  then bump "high_priority" stats
  else stats.

(** [calculateTaskStats] of the Task model.  The counter of a status is the
    property of [stats] that the status names; a status that names an
    inherited property makes of [stats] something else than a table of
    numbers, and the model stops there ([None]). *)
Definition calculateTaskStats (clock : Clock) (tasks : list TaskRecord)
  : option (gmap string Z) :=
  if existsb (fun task => inherited_key (to_string (status task))) tasks
  then None
  else
    Some (fold_left (count_task clock) tasks
            (<["total" := Z.of_nat (List.length tasks)]>
             (<["pending" := 0]>
             (<["in_progress" := 0]>
             (<["done" := 0]>
             (<["cancelled" := 0]>
             (<["overdue" := 0]>
             (<["due_soon" := 0]>
             (<["high_priority" := 0]> ∅))))))))).

(** [l.filter(p).length] *)
Definition count_where {A} (p : A -> bool) (l : list A) : nat :=
  List.length (List.filter p l).

Record TaskStatistics : Type := {
  stat_total : nat;
  stat_pending : nat;
  stat_in_progress : nat;
  stat_done : nat;
  stat_overdue : nat;
  stat_high_priority : nat
}.

(** The [stats] object of [getTaskStatistics], for the tasks that
    [getUserTasks] returned. *)
Definition getTaskStatistics (clock : Clock) (tasks : list TaskRecord)
  : TaskStatistics :=
  {| stat_total := List.length tasks;
     stat_pending :=
       count_where (fun t => strict_eq_str (status t) TASK_STATUS.PENDING) tasks;
     stat_in_progress :=
       count_where (fun t => strict_eq_str (status t) TASK_STATUS.IN_PROGRESS)
         tasks;
     stat_done :=
       count_where (fun t => strict_eq_str (status t) TASK_STATUS.DONE) tasks;
     stat_overdue :=
       count_where
         (fun t =>
            if negb (truthy (deadline t)) then false
            else match getTime clock (deadline t) with
                 | Some time => time <? current_time clock
                 | None => false
                 end
                 && strict_neq_str (status t) TASK_STATUS.DONE)
         tasks;
     stat_high_priority :=
       count_where
         (fun t => strict_eq_str (priority t) TASK_PRIORITY.HIGH
                   || strict_eq_str (priority t) TASK_PRIORITY.URGENT)
         tasks |}.

(** Vocabulary for the statements: the tasks whose status names the
    counter [k], and the tasks the model counts as overdue, due soon and of
    high priority. *)
Definition named (k : string) (task : TaskRecord) : bool :=
  String.eqb (to_string (status task)) k.

Definition is_overdue (clock : Clock) (task : TaskRecord) : bool :=
  truthy (deadline task) && strict_neq_str (status task) TASK_STATUS.DONE
  && match getTime clock (deadline task) with
     | Some t => t <? current_time clock
     | None => false
     end.

Definition is_due_soon (clock : Clock) (task : TaskRecord) : bool :=
  truthy (deadline task) && strict_neq_str (status task) TASK_STATUS.DONE
  && match getTime clock (deadline task) with
     | Some t => negb (t <? current_time clock)
                 && (t <=? current_time clock + 7 * 24 * 60 * 60 * 1000)
     | None => false
     end.

Definition is_high_priority (task : TaskRecord) : bool :=
  includes_value [TASK_PRIORITY.HIGH; TASK_PRIORITY.URGENT] (priority task).

(** What one task adds to the counter [k]. *)
Definition added (clock : Clock) (k : string) (task : TaskRecord) : Z :=
  (if named k task then 1 else 0)
  + (if String.eqb k "overdue" && is_overdue clock task then 1 else 0)
  + (if String.eqb k "due_soon" && is_due_soon clock task then 1 else 0)
  + (if String.eqb k "high_priority" && is_high_priority task then 1 else 0).

Fixpoint added_by (clock : Clock) (k : string) (tasks : list TaskRecord) : Z :=
  match tasks with
  | [] => 0
  | task :: rest => added clock k task + added_by clock k rest
  end.

(** A clock for the examples: the deadline is a number of milliseconds. *)
Definition clock_double : Clock :=
  {| getTime := fun v => match v with VNum t => Some t | _ => None end;
     current_time := 1000 |}.

Definition task_double (st : string) (due : value) (prio : string)
  : TaskRecord :=
  {| id := "rec0"; name := VStr "send the report"; owner_id := VStr "u1";
     status := VStr st; deadline := due; source_meeting := VUndefined;
     team := VUndefined; description := VUndefined; priority := VStr prio;
     created_at := VUndefined |}.

(** A counter after [d] additions: untouched when there was none. *)
Definition raised (old : option Z) (d : Z) : option Z :=
  if d =? 0 then old else Some (default 0 old + d).

(** * Properties *)

(** ** Strings: [split], [trim] and [parseParticipants] *)

Section Strings.

Lemma split_not_nil sep s : split sep s <> [].
Proof.
  destruct s as [|c rest]; simpl; [discriminate|].
  destruct (Ascii.eqb c sep); [discriminate|].
  destruct (split sep rest); discriminate.
Qed.

Lemma join_cons_char sep c hd tl :
  join sep (String c hd :: tl) = String c (join sep (hd :: tl)).
Proof. destruct tl; reflexivity. Qed.

(** Joining the pieces with the separator gives the text back. *)
Lemma join_split sep s : join (String sep EmptyString) (split sep s) = s.
Proof.
  induction s as [|c rest IH]; simpl; [reflexivity|].
  destruct (Ascii.eqb c sep) eqn:E.
  - apply Ascii.eqb_eq in E. subst c.
    pose proof (split_not_nil sep rest) as Hne.
    destruct (split sep rest) as [|hd tl]; [congruence|].
    change (join (String sep EmptyString) (EmptyString :: hd :: tl))
      with (String sep (join (String sep EmptyString) (hd :: tl))).
    now rewrite IH.
  - pose proof (split_not_nil sep rest) as Hne.
    destruct (split sep rest) as [|hd tl]; [congruence|].
    rewrite join_cons_char. now rewrite IH.
Qed.

(** No piece holds the separator. *)
Lemma split_no_sep sep s e : In e (split sep s) -> contains sep e = false.
Proof.
  revert e. induction s as [|c rest IH]; simpl; intros e He.
  - destruct He as [<-|[]]. reflexivity.
  - destruct (Ascii.eqb c sep) eqn:E.
    + destruct He as [<-|He]; [reflexivity|]. now apply IH.
    + destruct (split sep rest) as [|hd tl] eqn:Hs.
      * destruct He as [<-|[]]. simpl. now rewrite E.
      * destruct He as [<-|He].
        -- simpl. rewrite E. apply IH. now left.
        -- apply IH. now right.
Qed.

Lemma trimStart_prefix s :
  exists pre, s = pre +:+ trimStart s /\ all_whitespace pre = true.
Proof.
  induction s as [|c rest [pre [IH1 IH2]]]; simpl.
  - exists EmptyString. split; reflexivity.
  - destruct (is_whitespace c) eqn:E.
    + exists (String c pre). split.
      * exact (f_equal (String c) IH1).
      * simpl. now rewrite E, IH2.
    + exists EmptyString. split; reflexivity.
Qed.

Lemma trimEnd_suffix s :
  exists post, s = trimEnd s +:+ post /\ all_whitespace post = true.
Proof.
  induction s as [|c rest [post [IH1 IH2]]]; simpl.
  - exists EmptyString. split; reflexivity.
  - destruct (trimEnd rest) as [|d r] eqn:Ht.
    + destruct (is_whitespace c) eqn:E.
      * exists (String c post). split.
        -- exact (f_equal (String c) IH1).
        -- simpl. now rewrite E, IH2.
      * exists post. split; [|assumption]. exact (f_equal (String c) IH1).
    + exists post. split; [|assumption]. exact (f_equal (String c) IH1).
Qed.

Lemma trimStart_head s : starts_with_whitespace (trimStart s) = false.
Proof.
  induction s as [|c rest IH]; simpl; [reflexivity|].
  destruct (is_whitespace c) eqn:E; [assumption|]. simpl. exact E.
Qed.

Lemma trimEnd_last s : ends_with_whitespace (trimEnd s) = false.
Proof.
  induction s as [|c rest IH]; simpl; [reflexivity|].
  destruct (trimEnd rest) as [|d r] eqn:Ht.
  - destruct (is_whitespace c) eqn:E; simpl; [reflexivity|exact E].
  - exact IH.
Qed.

Lemma trimEnd_head s :
  starts_with_whitespace s = false -> starts_with_whitespace (trimEnd s) = false.
Proof.
  destruct s as [|c rest]; simpl; [reflexivity|]. intros E.
  destruct (trimEnd rest); [rewrite E|]; simpl; auto.
Qed.

Lemma trimEnd_empty s : trimEnd s = EmptyString <-> all_whitespace s = true.
Proof.
  induction s as [|c rest IH]; simpl; [tauto|].
  destruct (trimEnd rest) as [|d r] eqn:Ht.
  - destruct (is_whitespace c); simpl.
    + rewrite <- IH. tauto.
    + split; discriminate.
  - split; [discriminate|]. intros H. apply andb_prop in H as [_ H].
    apply IH in H. discriminate.
Qed.

Lemma all_whitespace_trimStart s :
  all_whitespace (trimStart s) = all_whitespace s.
Proof.
  induction s as [|c rest IH]; simpl; [reflexivity|].
  destruct (is_whitespace c) eqn:E; simpl; [assumption|]. now rewrite E.
Qed.

(** [trim] takes away white space at both ends and nothing else. *)
Lemma trim_decompose s :
  exists pre post,
    s = pre +:+ trim s +:+ post
    /\ all_whitespace pre = true /\ all_whitespace post = true.
Proof.
  destruct (trimStart_prefix s) as [pre [H1 H2]].
  destruct (trimEnd_suffix (trimStart s)) as [post [H3 H4]].
  exists pre, post. unfold trim. now rewrite <- H3, <- H1.
Qed.

Lemma trim_edges s :
  starts_with_whitespace (trim s) = false
  /\ ends_with_whitespace (trim s) = false.
Proof.
  unfold trim. split.
  - apply trimEnd_head, trimStart_head.
  - apply trimEnd_last.
Qed.

(** An entry trims to the empty text exactly when it is blank. *)
Lemma trim_empty s : trim s = EmptyString <-> all_whitespace s = true.
Proof. unfold trim. now rewrite trimEnd_empty, all_whitespace_trimStart. Qed.

Lemma length_pos_nonempty p :
  (0 <? String.length p)%nat = true <-> p <> EmptyString.
Proof.
  destruct p; simpl; split; intros H; try reflexivity; try discriminate.
  now contradiction H.
Qed.

Lemma parseParticipants_string s :
  parseParticipants (VStr s) =
  List.filter (fun p => (0 <? String.length p)%nat)
    (List.map trim (split ","%char s)).
Proof.
  unfold parseParticipants. simpl.
  destruct s; reflexivity.
Qed.

End Strings.


(** ** The four calls to OpenAI, one by one *)

Lemma traced_nil w : traced w [] = w.
Proof. destruct w. unfold traced. simpl. now rewrite app_nil_r. Qed.

Lemma traced_app w es1 es2 : traced (traced w es1) es2 = traced w (es1 ++ es2).
Proof. unfold traced. simpl. now rewrite app_assoc. Qed.

Lemma response_status_is_spec error n :
  response_status_is error n = true <-> error_response_status error = Some n.
Proof.
  unfold response_status_is. destruct (error_response_status error) as [st|].
  - rewrite Z.eqb_eq. split; congruence.
  - split; discriminate.
Qed.

Ltac unfold_monad :=
  unfold try_catch, bind, ret, throw, lift, throw_if, emit in *.

(** *** Computations that stay inside the process *)

Lemma pure_js_ret {A} (a : A) : pure_js (ret a).
Proof. intros w. exists (inr a). split; [reflexivity|exact I]. Qed.

Lemma pure_js_throw {A} name msg : pure_js (@throw A (JsError name msg)).
Proof. intros w. exists (inl (JsError name msg)). split; [reflexivity|exact I]. Qed.

Lemma pure_js_bind {A B} (m : M A) (k : A -> M B) :
  pure_js m -> (forall a, pure_js (k a)) -> pure_js (bind m k).
Proof.
  intros Hm Hk w. unfold bind. destruct (Hm w) as [r [-> Hr]].
  destruct r as [e|a]; [exists (inl e); auto|]. apply Hk.
Qed.

Lemma pure_js_get_prop v k : pure_js (lift (get_prop v k)).
Proof.
  intros w. exists (get_prop v k). split; [reflexivity|].
  destruct v; simpl; try exact I; destruct k; exact I.
Qed.

Lemma pure_js_mapM {A B} (f : A -> M B) l :
  (forall x, pure_js (f x)) -> pure_js (mapM f l).
Proof.
  intros Hf. induction l as [|x l IH]; simpl.
  - apply pure_js_ret.
  - apply pure_js_bind; [apply Hf|]. intros y.
    apply pure_js_bind; [exact IH|]. intros ys. apply pure_js_ret.
Qed.

Lemma pure_js_js_map {B} v (f : value -> M B) :
  (forall x, pure_js (f x)) -> pure_js (js_map v f).
Proof.
  intros Hf. destruct v; simpl; try apply pure_js_throw.
  now apply pure_js_mapM.
Qed.

Create HintDb pure_js.
#[local] Hint Resolve pure_js_ret pure_js_throw pure_js_get_prop : pure_js.

Section Stages.

Context (env : Env).

(** What [transcribeAudio] does, case by case: without a key nothing is
    called; with one the provider is called once, and its answer or the
    rethrown error is the outcome. *)
Lemma transcribeAudio_run file w :
  transcribeAudio env file w =
  if isOpenAIConfigured env then
    match transcriptions_create env file with
    | inr r =>
        (inr {| text := VStr (reply_text r);
                duration := reply_duration r;
                language := reply_language r;
                segments := reply_segments r;
                words := reply_words r |},
         traced w [E_transcription file])
    | inl e => (inl (transcribeAudio_rethrown e), traced w [E_transcription file])
    end
  else (inl (AppError "Failed to transcribe audio" 500), w).
Proof.
  unfold transcribeAudio, openai_transcriptions_create. unfold_monad.
  destruct (isOpenAIConfigured env); simpl; [|reflexivity].
  destruct (transcriptions_create env file); reflexivity.
Qed.

Lemma generateMOM_run transcript title participants w :
  generateMOM env transcript title participants w =
  let req := MOM_request transcript title participants in
  if isOpenAIConfigured env then
    match chat_completions_create env req with
    | inr (content :: _) => (inr (content_value content), traced w [E_chat req])
    | inr [] =>
        (inl (AppError "Failed to generate Minutes of Meeting" 500),
         traced w [E_chat req])
    | inl e =>
        (inl (rethrown "Failed to generate Minutes of Meeting" e),
         traced w [E_chat req])
    end
  else (inl (AppError "Failed to generate Minutes of Meeting" 500), w).
Proof.
  unfold generateMOM, openai_chat_completions_create, first_choice_content.
  unfold_monad.
  destruct (isOpenAIConfigured env); simpl; [|reflexivity].
  destruct (chat_completions_create env _) as [e|[|c cs]]; reflexivity.
Qed.

Lemma parsed_items_pure choices : pure_js (parsed_items env choices).
Proof.
  unfold parsed_items.
  apply pure_js_bind.
  { destruct choices; simpl; auto with pure_js. }
  intros response. apply pure_js_bind.
  { unfold js_JSON_parse. destruct (JSON_parse env _); auto with pure_js. }
  intros actionItems. apply pure_js_bind; [apply pure_js_get_prop|].
  intros items. apply pure_js_bind; [apply pure_js_get_prop|].
  intros _. apply pure_js_ret.
Qed.

Lemma extractActionItems_run txt context w :
  extractActionItems env txt context w =
  let req := extract_request txt context in
  if isOpenAIConfigured env then
    match chat_completions_create env req with
    | inr choices =>
        match parsed_items env choices (traced w [E_chat req]) with
        | (inr items, w') => (inr items, w')
        | (inl _, w') => (inl (AppError "Failed to extract action items" 500), w')
        end
    | inl e =>
        (inl (rethrown "Failed to extract action items" e), traced w [E_chat req])
    end
  else (inl (AppError "Failed to extract action items" 500), w).
Proof.
  change (extractActionItems env txt context w) with
    (try_catch
       (let* _ := throw_if (negb (isOpenAIConfigured env))
                    (AppError "OpenAI API not configured" 500) in
        let* completion :=
          openai_chat_completions_create env (extract_request txt context) in
        parsed_items env completion)
       (fun error => throw (rethrown "Failed to extract action items" error)) w).
  unfold openai_chat_completions_create. unfold_monad.
  destruct (isOpenAIConfigured env); simpl; [|reflexivity].
  destruct (chat_completions_create env _) as [e|choices]; [reflexivity|].
  destruct (parsed_items_pure choices (traced w [E_chat (extract_request txt context)]))
    as [r [H Hr]]; rewrite H.
  destruct r as [[]|]; simpl in Hr; try contradiction; reflexivity.
Qed.

Lemma action_item_line_pure item : pure_js (action_item_line item).
Proof.
  unfold action_item_line.
  repeat (apply pure_js_bind; [apply pure_js_get_prop|intro]).
  apply pure_js_ret.
Qed.

Lemma action_items_text_pure actionItems :
  pure_js (action_items_text env actionItems).
Proof.
  unfold action_items_text.
  apply pure_js_bind; [apply pure_js_get_prop|]. intros len.
  destruct (gt_zero env len); [|apply pure_js_ret].
  apply pure_js_bind; [|intros; apply pure_js_ret].
  apply pure_js_js_map, action_item_line_pure.
Qed.

Lemma action_items_text_empty w :
  action_items_text env (VArr []) w =
  (inr "No specific action items identified.", w).
Proof. reflexivity. Qed.

Lemma generateEmailSummary_run minutes actionItems w :
  generateEmailSummary env minutes actionItems w =
  if isOpenAIConfigured env then
    match action_items_text env (or_empty_array actionItems) w with
    | (inr t, _) =>
        let req := summary_request minutes t in
        match chat_completions_create env req with
        | inr (content :: _) => (inr (content_value content), traced w [E_chat req])
        | inr [] =>
            (inl (AppError "Failed to generate email summary" 500),
             traced w [E_chat req])
        | inl e =>
            (inl (rethrown "Failed to generate email summary" e),
             traced w [E_chat req])
        end
    | (inl _, _) => (inl (AppError "Failed to generate email summary" 500), w)
    end
  else (inl (AppError "Failed to generate email summary" 500), w).
Proof.
  unfold generateEmailSummary.
  unfold openai_chat_completions_create, first_choice_content. unfold_monad.
  destruct (isOpenAIConfigured env); simpl; [|reflexivity].
  destruct (action_items_text_pure (or_empty_array actionItems) w)
    as [r [H Hr]]; rewrite H.
  destruct r as [[]|t]; simpl in Hr; try contradiction; [reflexivity|].
  simpl. destruct (chat_completions_create env _) as [e|[|c cs]]; reflexivity.
Qed.

End Stages.

(** ** The transcription adapter *)




(** ** The minutes synthesizer *)

Lemma append_assoc (a b c : string) : (a +:+ b) +:+ c = a +:+ b +:+ c.
Proof.
  induction a as [|x a IH]; [reflexivity|].
  exact (f_equal (String x) IH).
Qed.





(** The classification of provider errors does not depend on the list. *)
Lemma generateMOM_provider_error env transcript title participants w e :
  isOpenAIConfigured env = true ->
  chat_completions_create env (MOM_request transcript title participants) = inl e ->
  (generateMOM env transcript title participants w).1 =
  inl (rethrown "Failed to generate Minutes of Meeting" e).
Proof. intros Hc He. rewrite generateMOM_run. cbv zeta. now rewrite Hc, He. Qed.

(** ** The task materializer *)

Lemma strict_neq_str_false v lit :
  strict_neq_str v lit = false <-> v = VStr lit.
Proof.
  destruct v; simpl; split; try discriminate.
  - intros H. apply negb_false_iff in H. apply String.eqb_eq in H. now subst.
  - intros [= ->]. now rewrite String.eqb_refl.
Qed.


(** The nine fields of the record built for an item, read back. *)
Lemma formatTaskRecord_fields rid (a b c d e f g h i : value) :
  formatTaskRecord
    (rid,
     <[FIELDS.TASKS.NAME := a]>
     (<[FIELDS.TASKS.OWNER_ID := b]>
     (<[FIELDS.TASKS.STATUS := c]>
     (<[FIELDS.TASKS.DEADLINE := d]>
     (<[FIELDS.TASKS.SOURCE_MEETING := e]>
     (<[FIELDS.TASKS.TEAM := f]>
     (<[FIELDS.TASKS.DESCRIPTION := g]>
     (<[FIELDS.TASKS.PRIORITY := h]>
     (<[FIELDS.TASKS.CREATED_AT := i]> ∅)))))))))
  = {| id := rid; name := a; owner_id := b; status := c; deadline := d;
       source_meeting := e; team := f; description := g; priority := h;
       created_at := i |}.
Proof. reflexivity. Qed.

Lemma get_prop_defined v k :
  nullish v = false -> exists x, get_prop v k = inr x.
Proof. destruct v; simpl; try discriminate; intros _; destruct k; eauto. Qed.

Lemma get_prop_nullish v k :
  nullish v = true -> exists name msg, get_prop v k = inl (JsError name msg).
Proof. destruct v; simpl; try discriminate; intros _; eauto. Qed.

Section Materializer.

Context (env : Env) (meetingId projectId : value).

Lemma task_fields_pure item : pure_js (task_fields env meetingId projectId item).
Proof.
  unfold task_fields.
  repeat (apply pure_js_bind; [apply pure_js_get_prop|intro]).
  apply pure_js_ret.
Qed.

Lemma task_fields_defined item w :
  nullish item = false ->
  exists task assignee deadline prio,
    get_prop item K_task = inr task
    /\ get_prop item K_assignee = inr assignee
    /\ get_prop item K_deadline = inr deadline
    /\ get_prop item K_priority = inr prio
    /\ task_fields env meetingId projectId item w =
       (inr (task_record env meetingId projectId task assignee deadline prio), w).
Proof.
  intros H.
  destruct (get_prop_defined item K_task H) as [task Ht].
  destruct (get_prop_defined item K_assignee H) as [assignee Ha].
  destruct (get_prop_defined item K_deadline H) as [deadline Hd].
  destruct (get_prop_defined item K_priority H) as [prio Hp].
  exists task, assignee, deadline, prio. repeat split; auto.
  unfold task_fields. unfold_monad. now rewrite Ht, Ha, Hd, Hp.
Qed.

Lemma task_fields_nullish item w :
  nullish item = true ->
  exists e, task_fields env meetingId projectId item w = (inl e, w).
Proof.
  intros H. destruct (get_prop_nullish item K_task H) as (name & msg & Ht).
  unfold task_fields. unfold_monad. rewrite Ht. eauto.
Qed.

(** One record per item, in order, built from the properties of the item. *)
Lemma mapM_task_fields items w :
  forallb (fun item => negb (nullish item)) items = true ->
  exists records,
    mapM (task_fields env meetingId projectId) items w = (inr records, w)
    /\ Forall2
         (fun item f =>
            exists task assignee deadline prio,
              get_prop item K_task = inr task
              /\ get_prop item K_assignee = inr assignee
              /\ get_prop item K_deadline = inr deadline
              /\ get_prop item K_priority = inr prio
              /\ f = task_record env meetingId projectId task assignee deadline prio)
         items records.
Proof.
  induction items as [|item items IH]; simpl; intros H.
  - exists []. split; [reflexivity|constructor].
  - apply andb_prop in H as [Hi Hs]. apply negb_true_iff in Hi.
    destruct (task_fields_defined item w Hi)
      as (task & assignee & deadline & prio & Ht & Ha & Hd & Hp & Hrun).
    destruct (IH Hs) as (records & Hrec & Hall).
    eexists (_ :: records). split.
    + unfold bind, ret. rewrite Hrun, Hrec. reflexivity.
    + constructor; [|exact Hall].
      exists task, assignee, deadline, prio. auto.
Qed.

Lemma createTasksFromActionItems_unconfigured actionItems w :
  isAirtableConfigured env = false ->
  createTasksFromActionItems env actionItems meetingId projectId w =
  (inl (AppError "Failed to create tasks from action items" 500), w).
Proof.
  intros H. unfold createTasksFromActionItems. unfold_monad. now rewrite H.
Qed.

Lemma createTasksFromActionItems_none actionItems w :
  isAirtableConfigured env = true ->
  no_action_items actionItems w = (inr true, w) ->
  createTasksFromActionItems env actionItems meetingId projectId w = (inr [], w).
Proof.
  intros H Hn. unfold createTasksFromActionItems. unfold_monad.
  rewrite H. simpl. now rewrite Hn.
Qed.

Lemma getTable_run tableName w :
  getTable env tableName w =
  if airtable_configured env then (inr tt, w)
  else (inl (JsError "Error"
               "Airtable not configured. Please add AIRTABLE_API_KEY and AIRTABLE_BASE_ID to environment variables."),
        w).
Proof. unfold getTable. unfold_monad. destruct (airtable_configured env); reflexivity. Qed.

(** [has_action_items] reads and decides; when it says yes, the
    materializer does not take its empty-input exit. *)
Lemma has_action_items_run actionItems w :
  exists b,
    has_action_items env actionItems w = (inr b, w)
    /\ (b = true -> forall w', no_action_items actionItems w' = (inr false, w')).
Proof.
  unfold has_action_items, no_action_items. unfold_monad.
  destruct (truthy actionItems) eqn:Ht; simpl.
  - destruct (get_prop_defined actionItems K_length) as [len Hl].
    { destruct actionItems; simpl in *; congruence. }
    rewrite Hl. exists (gt_zero env len). split; [reflexivity|].
    intros Hg w'. f_equal. f_equal.
    destruct len; simpl in *; try reflexivity.
    destruct (Z.eqb_spec n 0); [subst; discriminate|reflexivity].
  - exists false. split; [reflexivity|discriminate].
Qed.

Lemma js_map_task_fields_pure v :
  pure_js (js_map v (task_fields env meetingId projectId)).
Proof. apply pure_js_js_map. intros item. apply task_fields_pure. Qed.

(** The materializer past its empty-input exit. *)
Lemma createTasksFromActionItems_run actionItems w :
  isAirtableConfigured env = true ->
  no_action_items actionItems w = (inr false, w) ->
  createTasksFromActionItems env actionItems meetingId projectId w =
  match js_map actionItems (task_fields env meetingId projectId) w with
  | (inl _, _) =>
      (inl (AppError "Failed to create tasks from action items" 500), w)
  | (inr records, _) =>
      match tasks_create_rejected env records with
      | Some _ =>
          (inl (AppError "Failed to create tasks from action items" 500),
           traced w [E_tasks_create records])
      | None =>
          (inr (List.map formatTaskRecord (created_records w records)),
           with_tasks w records)
      end
  end.
Proof.
  intros Hc Hn.
  unfold createTasksFromActionItems, try_catch, bind, throw_if.
  rewrite Hc. change (negb true) with false. unfold ret at 1. cbv beta iota.
  rewrite Hn. cbv beta iota. rewrite getTable_run.
  unfold isAirtableConfigured in Hc. rewrite Hc.
  destruct (js_map_task_fields_pure actionItems w) as (r & -> & Hr).
  destruct r as [e|records]; [reflexivity|].
  unfold tasks_create, bind, emit, ret, throw.
  destruct (tasks_create_rejected env records); reflexivity.
Qed.

(** The batch that is accepted: the world after, and the value returned. *)
Lemma createTasksFromActionItems_accepted item items records w :
  isAirtableConfigured env = true ->
  mapM (task_fields env meetingId projectId) (item :: items) w = (inr records, w) ->
  tasks_create_rejected env records = None ->
  createTasksFromActionItems env (VArr (item :: items)) meetingId projectId w =
  (inr (List.map formatTaskRecord (created_records w records)),
   with_tasks w records).
Proof.
  intros Hc Hm Ha.
  rewrite createTasksFromActionItems_run; [|exact Hc|reflexivity].
  change (js_map (VArr (item :: items)) (task_fields env meetingId projectId) w)
    with (mapM (task_fields env meetingId projectId) (item :: items) w).
  rewrite Hm, Ha. reflexivity.
Qed.

End Materializer.







(** ** The order of the calls *)

Section Order.

Context (env : Env) (meetingId : string).

Local Abbreviation all := (runs_all meetingId).
Local Abbreviation some := (runs_some meetingId).



Lemma runs_all_throw stages {A} e : all stages (@throw A e).
Proof.
  intros w. exists [], 0%nat. simpl. rewrite app_nil_r.
  repeat split; auto; try lia; try (intros []).
Qed.




(** [try { m } catch (error) { throw error }] is [m]. *)
Lemma try_rethrow {A} (m : M A) w :
  try_catch m (fun error => throw error) w = m w.
Proof. unfold try_catch, throw. destruct (m w) as [[e|a] w1]; reflexivity. Qed.







(** *** The Airtable steps *)

Lemma meetings_update_run id f w :
  meetings_update env id f w =
  match meetings_update_rejected env id f, meetings w !! id with
  | Some e, _ => (inl e, traced w [E_meetings_update id f])
  | None, None =>
      (inl (ClientError "Could not find what you are looking for" None),
       traced w [E_meetings_update id f])
  | None, Some old => (inr tt, updated w id f old)
  end.
Proof.
  unfold meetings_update, updated. unfold_monad. simpl.
  destruct (meetings_update_rejected env id f); [reflexivity|].
  destruct (meetings w !! id); reflexivity.
Qed.

Lemma meetings_update_trace id f w :
  trace (meetings_update env id f w).2 = trace w ++ [E_meetings_update id f].
Proof.
  rewrite meetings_update_run.
  destruct (meetings_update_rejected env id f); [reflexivity|].
  destruct (meetings w !! id); reflexivity.
Qed.

Lemma meetings_update_tasks id f w :
  tasks (meetings_update env id f w).2 = tasks w.
Proof.
  rewrite meetings_update_run.
  destruct (meetings_update_rejected env id f); [reflexivity|].
  destruct (meetings w !! id); reflexivity.
Qed.



End Order.

(** ** The background job *)

Lemma has_results_fields res :
  has_field (results_fields res) FIELDS.MEETINGS.TRANSCRIPT = true
  /\ has_field (results_fields res) FIELDS.MEETINGS.MOM = true
  /\ has_field (results_fields res) FIELDS.MEETINGS.SUMMARY = true
  /\ has_field (results_fields res) FIELDS.MEETINGS.ACTION_POINTS = false.
Proof. repeat split. Qed.

Lemma has_failure_fields e :
  has_field (failure_fields e) FIELDS.MEETINGS.MOM = true
  /\ has_field (failure_fields e) FIELDS.MEETINGS.TRANSCRIPT = false
  /\ has_field (failure_fields e) FIELDS.MEETINGS.SUMMARY = false
  /\ has_field (failure_fields e) FIELDS.MEETINGS.ACTION_POINTS = false.
Proof. repeat split. Qed.



Lemma stage_of_failure id e :
  stage_of (E_meetings_update id (failure_fields e)) = Marker.
Proof. reflexivity. Qed.

Section Pipeline.

Context (env : Env) (file : AudioFile) (title : string)
  (participants : list string) (meetingId projectId : string).

Local Abbreviation all := (runs_all meetingId).
Local Abbreviation some := (runs_some meetingId).



(** The job never throws: it ends where [processAIAnalysis] ended, or
    after the one update that writes the annotation. *)
Lemma upload_background_run form_participants w :
  upload_participants form_participants = participants ->
  upload_background env file title form_participants meetingId projectId w =
  match processAIAnalysis env file title participants meetingId projectId w with
  | (inr _, w1) => (inr tt, w1)
  | (inl e, w1) =>
      (inr tt, (meetings_update env meetingId (failure_fields e) w1).2)
  end.
Proof.
  intros H. unfold upload_background. rewrite H. unfold try_catch at 1.
  destruct (processAIAnalysis _ _ _ _ _ _ w) as [[e|[]] w1]; [|reflexivity].
  unfold try_catch, ret.
  destruct (meetings_update env meetingId (failure_fields e) w1) as [[e'|[]] w2];
    reflexivity.
Qed.

(** *** What the four stages leave behind: the tables as they were, and
    calls to OpenAI only *)

Lemma ai_frame_one {A} (m : M A) :
  (forall w,
     (exists e, m w = (inl e, w))
     \/ (exists r e, m w = (r, traced w [e]) /\ ai_call e = true)) ->
  ai_frame m.
Proof.
  intros H w. destruct (H w) as [[e ->]|(r & e & -> & He)]; simpl.
  - exists []. now rewrite traced_nil.
  - exists [e]. simpl. now rewrite He.
Qed.

Lemma ai_frame_ret {A} (a : A) : ai_frame (ret a).
Proof. intros w. exists []. simpl. now rewrite traced_nil. Qed.

Lemma ai_frame_bind {A B} (m : M A) (k : A -> M B) :
  ai_frame m -> (forall a, ai_frame (k a)) -> ai_frame (bind m k).
Proof.
  intros Hm Hk w. unfold bind. destruct (Hm w) as (es1 & H1 & A1).
  destruct (m w) as [[e|a] w1]; simpl in H1; subst w1; [eauto|].
  destruct (Hk a (traced w es1)) as (es2 & H2 & A2).
  exists (es1 ++ es2). rewrite H2, traced_app. split; [reflexivity|].
  rewrite forallb_app. now rewrite A1, A2.
Qed.

Lemma transcribeAudio_frame : ai_frame (transcribeAudio env file).
Proof.
  apply ai_frame_one. intros w. rewrite transcribeAudio_run.
  destruct (isOpenAIConfigured env); [right|left; eauto].
  destruct (transcriptions_create env file); do 2 eexists; repeat split.
Qed.

Lemma generateMOM_frame transcript :
  ai_frame (generateMOM env transcript title participants).
Proof.
  apply ai_frame_one. intros w. rewrite generateMOM_run. cbv zeta.
  destruct (isOpenAIConfigured env); [right|left; eauto].
  destruct (chat_completions_create env _) as [|[|]];
    do 2 eexists; repeat split.
Qed.

Lemma extractActionItems_frame txt context :
  ai_frame (extractActionItems env txt context).
Proof.
  apply ai_frame_one. intros w. rewrite extractActionItems_run.
  cbv zeta.
  destruct (isOpenAIConfigured env); [right|left; eauto].
  destruct (chat_completions_create env _) as [|choices];
    [do 2 eexists; repeat split|].
  destruct (parsed_items_pure env choices
              (traced w [E_chat (extract_request txt context)])) as (r & -> & _).
  destruct r; do 2 eexists; repeat split.
Qed.

Lemma generateEmailSummary_frame minutes actionItems :
  ai_frame (generateEmailSummary env minutes actionItems).
Proof.
  apply ai_frame_one. intros w. rewrite generateEmailSummary_run.
  destruct (isOpenAIConfigured env); [|left; eauto].
  destruct (action_items_text_pure env (or_empty_array actionItems) w)
    as (r & -> & _).
  destruct r as [|t]; [left; eauto|right]. cbv zeta.
  destruct (chat_completions_create env _) as [|[|]];
    do 2 eexists; repeat split.
Qed.

Lemma processCompleteeMeeting_frame :
  ai_frame (processCompleteeMeeting env file title participants).
Proof.
  intros w. unfold processCompleteeMeeting. rewrite try_rethrow. revert w.
  apply ai_frame_bind; [apply transcribeAudio_frame|intros tr].
  apply ai_frame_bind; [apply generateMOM_frame|intros minutes].
  apply ai_frame_bind; [apply extractActionItems_frame|intros items].
  apply ai_frame_bind; [apply generateEmailSummary_frame|intros summary].
  apply ai_frame_ret.
Qed.

(** [processCompleteeMeeting], stage by stage. *)
Lemma processCompleteeMeeting_run w :
  processCompleteeMeeting env file title participants w =
  match transcribeAudio env file w with
  | (inl e, w1) => (inl e, w1)
  | (inr tr, w1) =>
      match generateMOM env (text tr) title participants w1 with
      | (inl e, w2) => (inl e, w2)
      | (inr minutes, w2) =>
          match extractActionItems env (text tr) "transcript" w2 with
          | (inl e, w3) => (inl e, w3)
          | (inr items, w3) =>
              match generateEmailSummary env minutes items w3 with
              | (inl e, w4) => (inl e, w4)
              | (inr summary, w4) =>
                  (inr {| transcription := tr; mom := minutes;
                          actionItems := items; emailSummary := summary;
                          processingComplete := true;
                          processedAt := now env |}, w4)
              end
          end
      end
  end.
Proof.
  unfold processCompleteeMeeting. rewrite try_rethrow. unfold bind, ret.
  destruct (transcribeAudio env file w) as [[e|tr] w1]; [reflexivity|].
  destruct (generateMOM env (text tr) title participants w1) as [[e|minutes] w2];
    [reflexivity|].
  destruct (extractActionItems env (text tr) "transcript" w2) as [[e|items] w3];
    [reflexivity|].
  destruct (generateEmailSummary env minutes items w3) as [[e|summary] w4];
    reflexivity.
Qed.

End Pipeline.

(** ** The job, step by step *)


Lemma no_action_items_run actionItems w :
  exists b, no_action_items actionItems w = (inr b, w).
Proof.
  unfold no_action_items. unfold_monad.
  destruct (truthy actionItems) eqn:Ht; simpl; [|eauto].
  destruct (get_prop_defined actionItems K_length) as [len Hl].
  { destruct actionItems; simpl in *; congruence. }
  rewrite Hl. eauto.
Qed.

(** The materializer touches the Tasks table only, with at most one call. *)
Lemma createTasksFromActionItems_frame env actionItems mid pid w :
  let out := createTasksFromActionItems env actionItems mid pid w in
  meetings out.2 = meetings w
  /\ exists es,
       trace out.2 = trace w ++ es
       /\ Forall (fun e => exists records, e = E_tasks_create records) es.
Proof.
  intros out. subst out.
  destruct (isAirtableConfigured env) eqn:Hc.
  - destruct (no_action_items_run actionItems w) as [[|] Hn].
    + rewrite (createTasksFromActionItems_none env mid pid _ _ Hc Hn).
      split; [reflexivity|]. exists []. simpl. now rewrite app_nil_r.
    + rewrite (createTasksFromActionItems_run env mid pid _ _ Hc Hn).
      destruct (js_map_task_fields_pure env mid pid actionItems w)
        as (r & -> & _).
      destruct r as [e|records].
      * split; [reflexivity|]. exists []. simpl. now rewrite app_nil_r.
      * destruct (tasks_create_rejected env records);
          (split; [reflexivity|]); exists [E_tasks_create records];
          (split; [reflexivity|]); repeat constructor; eauto.
  - rewrite (createTasksFromActionItems_unconfigured env mid pid _ _ Hc).
    split; [reflexivity|]. exists []. simpl. now rewrite app_nil_r.
Qed.

Section Job.

Context (env : Env) (file : AudioFile) (title : string)
  (participants : list string) (meetingId projectId : string).

(** [processAIAnalysis], step by step. *)
Lemma processAIAnalysis_run w :
  processAIAnalysis env file title participants meetingId projectId w =
  match processCompleteeMeeting env file title participants w with
  | (inl e, w1) => (inl e, w1)
  | (inr res, w1) =>
      if airtable_configured env then
        match meetings_update env meetingId (results_fields res) w1 with
        | (inl e, w2) => (inl e, w2)
        | (inr _, w2) =>
            match has_action_items env (actionItems res) w2 with
            | (inr true, _) =>
                match createTasksFromActionItems env (actionItems res)
                        (VStr meetingId) (VStr projectId) w2 with
                | (inl e, w3) => (inl e, w3)
                | (inr tasks, w3) =>
                    meetings_update env meetingId
                      {[ FIELDS.MEETINGS.ACTION_POINTS :=
                           VArr (List.map (fun task => VStr (id task)) tasks) ]}
                      w3
                end
            | _ => (inr tt, w2)
            end
        end
      else
        (inl (JsError "Error"
                "Airtable not configured. Please add AIRTABLE_API_KEY and AIRTABLE_BASE_ID to environment variables."),
         w1)
  end.
Proof.
  unfold processAIAnalysis. rewrite try_rethrow. unfold bind at 1.
  destruct (processCompleteeMeeting env file title participants w)
    as [[e|res] w1]; [reflexivity|].
  unfold bind at 1. rewrite getTable_run.
  destruct (airtable_configured env); [|reflexivity].
  unfold bind at 1.
  destruct (meetings_update env meetingId (results_fields res) w1)
    as [[e|[]] w2]; [reflexivity|].
  unfold bind at 1.
  destruct (has_action_items_run env (actionItems res) w2) as (b & -> & _).
  destruct b; [|reflexivity].
  unfold bind.
  destruct (createTasksFromActionItems env (actionItems res)
              (VStr meetingId) (VStr projectId) w2) as [[e|tasks] w3];
    reflexivity.
Qed.

End Job.

(** ** The order of a run *)





(** ** A run that fails *)

Lemma meeting_field_updated w id f old name v :
  f !! name = Some v -> meeting_field (updated w id f old) id name = v.
Proof.
  intros H. unfold meeting_field, updated. cbn [meetings].
  rewrite lookup_insert_eq. unfold field.
  now rewrite (lookup_union_Some_l _ _ _ _ H).
Qed.

(** An accepted update leaves the fields it does not name as they were. *)
Lemma meeting_field_kept w id f old id' name :
  f !! name = None -> meetings w !! id = Some old ->
  meeting_field (updated w id f old) id' name = meeting_field w id' name.
Proof.
  intros H Hold. unfold meeting_field, updated. cbn [meetings].
  destruct (decide (id = id')) as [<-|Hne].
  - rewrite lookup_insert_eq, Hold. unfold field.
    now rewrite (lookup_union_r _ _ _ H).
  - now rewrite lookup_insert_ne.
Qed.





(** ** The transcript when the minutes fail *)





(** C1 as stated fails: the transcription succeeded, the minutes failed, and
    the record read after the run has no transcript. *)
Lemma transcript_not_stored_when_minutes_fail :
  let out :=
    upload_background env_minutes_down recording "Standup" (Some "Alice, Bob")
      "m1" "p1" w0 in
  (exists tr w1,
     transcribeAudio env_minutes_down recording w0 = (inr tr, w1)
     /\ text tr = VStr spoken
     /\ (generateMOM env_minutes_down (text tr) "Standup"
           (upload_participants (Some "Alice, Bob")) w1).1
        = inl (AppError "Failed to generate Minutes of Meeting" 500))
  /\ meeting_field out.2 "m1" "transcript" = VUndefined
  /\ meeting_field out.2 "m1" "transcript" <> VStr spoken.
Proof.
  intros out. split; [|split].
  - do 2 eexists. split; [reflexivity|]. split; [reflexivity|].
    vm_compute. reflexivity.
  - vm_compute. reflexivity.
  - vm_compute. discriminate.
Qed.

(** ** A run without action items *)

Lemma ai_call_quiet e : ai_call e = true -> quiet e.
Proof.
  destruct e as [f|req|id fs|records]; simpl; try discriminate; intros _.
  - split; [discriminate|reflexivity].
  - split; [|reflexivity]. unfold stage_of.
    repeat (destruct (String.eqb _ _)); discriminate.
Qed.

Lemma ai_calls_quiet es : forallb ai_call es = true -> Forall quiet es.
Proof.
  induction es as [|e es IH]; simpl; [constructor|].
  intros H. apply andb_prop in H as [He Hes].
  constructor; [now apply ai_call_quiet|auto].
Qed.

Lemma results_update_quiet id res :
  quiet (E_meetings_update id (results_fields res)).
Proof. split; [discriminate|reflexivity]. Qed.

Lemma failure_update_quiet id e :
  quiet (E_meetings_update id (failure_fields e)).
Proof. split; [discriminate|reflexivity]. Qed.

(** An update leaves alone the fields it does not name, accepted or not. *)
Lemma meetings_update_keeps env id f name w :
  f !! name = None ->
  forall id',
    meeting_field (meetings_update env id f w).2 id' name
    = meeting_field w id' name.
Proof.
  intros Hf id'. rewrite meetings_update_run.
  destruct (meetings_update_rejected env id f); [reflexivity|].
  destruct (meetings w !! id) as [old|] eqn:Hold; [|reflexivity].
  cbn [snd]. now apply meeting_field_kept.
Qed.

Lemma has_action_items_empty env w :
  has_action_items env (VArr []) w = (inr false, w).
Proof. reflexivity. Qed.

Section Items.

Context (env : Env) (file : AudioFile) (title : string)
  (participants : list string) (meetingId projectId : string).

(** Either the job creates no task and writes no list of task ids, or the
    extraction gave at least one item. *)
Lemma processAIAnalysis_quiet_or_items w :
  let out :=
    processAIAnalysis env file title participants meetingId projectId w in
  (exists es,
     trace out.2 = trace w ++ es /\ Forall quiet es
     /\ tasks out.2 = tasks w
     /\ forall id, meeting_field out.2 id "action_points"
                   = meeting_field w id "action_points")
  \/ (exists res w1 w2,
        processCompleteeMeeting env file title participants w = (inr res, w1)
        /\ has_action_items env (actionItems res) w2 = (inr true, w2)).
Proof.
  intros out. subst out. rewrite processAIAnalysis_run.
  destruct (processCompleteeMeeting_frame env file title participants w)
    as (es0 & Hw1 & Hai).
  destruct (processCompleteeMeeting env file title participants w)
    as [[e|res] w1] eqn:Hp; simpl in Hw1; subst w1.
  { left. exists es0. cbn [snd].
    split; [reflexivity|]. split; [now apply ai_calls_quiet|].
    split; [reflexivity|]. intros; reflexivity. }
  destruct (airtable_configured env).
  2: { left. exists es0. cbn [snd].
    split; [reflexivity|]. split; [now apply ai_calls_quiet|].
    split; [reflexivity|]. intros; reflexivity. }
  pose proof (meetings_update_trace env meetingId (results_fields res)
                (traced w es0)) as Ht.
  pose proof (meetings_update_tasks env meetingId (results_fields res)
                (traced w es0)) as Htk.
  pose proof (meetings_update_keeps env meetingId (results_fields res)
                "action_points" (traced w es0) eq_refl) as Hk.
  destruct (meetings_update env meetingId (results_fields res) (traced w es0))
    as [[e|[]] w2]; cbn [snd] in Ht, Htk, Hk.
  { left. exists (es0 ++ [E_meetings_update meetingId (results_fields res)]).
    cbn [snd]. rewrite Ht. cbn [trace traced]. rewrite <- app_assoc.
    split; [reflexivity|]. split.
    { apply Forall_app. split; [now apply ai_calls_quiet|].
      constructor; [|constructor]. apply results_update_quiet. }
    split; [exact Htk|exact Hk]. }
  destruct (has_action_items_run env (actionItems res) w2) as (b & Hb & _).
  rewrite Hb. destruct b.
  { right. exists res, (traced w es0), w2. auto. }
  left. exists (es0 ++ [E_meetings_update meetingId (results_fields res)]).
  cbn [snd]. rewrite Ht. cbn [trace traced]. rewrite <- app_assoc.
  split; [reflexivity|]. split.
  { apply Forall_app. split; [now apply ai_calls_quiet|].
    constructor; [|constructor]. apply results_update_quiet. }
  split; [exact Htk|exact Hk].
Qed.

End Items.

(** The same for the whole job: the annotation is quiet too. *)
Lemma upload_background_quiet_or_items
  env file title participants meetingId projectId w :
  let out :=
    upload_background env file title participants meetingId projectId w in
  (exists es,
     trace out.2 = trace w ++ es /\ Forall quiet es
     /\ tasks out.2 = tasks w
     /\ forall id, meeting_field out.2 id "action_points"
                   = meeting_field w id "action_points")
  \/ (exists res w1 w2,
        processCompleteeMeeting env file title
          (upload_participants participants) w = (inr res, w1)
        /\ has_action_items env (actionItems res) w2 = (inr true, w2)).
Proof.
  intros out. subst out.
  rewrite (upload_background_run env file title
             (upload_participants participants) meetingId projectId
             participants w eq_refl).
  destruct (processAIAnalysis_quiet_or_items env file title
              (upload_participants participants) meetingId projectId w)
    as [(es & Ht & Hq & Htk & Hk)|Hitems]; [|right; exact Hitems].
  left.
  destruct (processAIAnalysis env file title
              (upload_participants participants) meetingId projectId w)
    as [[e|[]] w1]; cbn [snd] in *.
  - exists (es ++ [E_meetings_update meetingId (failure_fields e)]).
    rewrite meetings_update_trace, Ht, <- app_assoc.
    split; [reflexivity|]. split.
    { apply Forall_app. split; [exact Hq|].
      constructor; [|constructor]. apply failure_update_quiet. }
    split; [now rewrite meetings_update_tasks|].
    intros id'.
    rewrite (meetings_update_keeps env meetingId (failure_fields e)
               "action_points" w1 eq_refl id').
    apply Hk.
  - exists es. auto.
Qed.

(** C9: in a run whose extraction gives the empty array, no task is
    created and no update writes [action_points], which keeps the value it
    had in every record; and when the summary stage answers and Airtable
    stores the results, the transcript, the minutes and the summary are in
    the record.  In any run, an update writes [action_points] only when the
    extraction gave at least one item. *)
Theorem run_without_action_items :
  (forall env file title participants meetingId projectId w
          tr w1 minutes w2 w3,
     transcribeAudio env file w = (inr tr, w1) ->
     generateMOM env (text tr) title (upload_participants participants) w1
     = (inr minutes, w2) ->
     extractActionItems env (text tr) "transcript" w2 = (inr (VArr []), w3) ->
     let out :=
       upload_background env file title participants meetingId projectId w in
     (exists es,
        trace out.2 = trace w ++ es
        /\ Forall (fun e => stage_of e <> Materialize
                            /\ writes_field "action_points" e = false) es)
     /\ tasks out.2 = tasks w
     /\ (forall id, meeting_field out.2 id "action_points"
                    = meeting_field w id "action_points")
     /\ (forall summary w4 old,
           generateEmailSummary env minutes (VArr []) w3 = (inr summary, w4) ->
           isAirtableConfigured env = true ->
           (forall f, meetings_update_rejected env meetingId f = None) ->
           meetings w !! meetingId = Some old ->
           meeting_field out.2 meetingId "transcript" = text tr
           /\ meeting_field out.2 meetingId "mom" = minutes
           /\ meeting_field out.2 meetingId "summary" = summary))
  /\ (forall env file title participants meetingId projectId w es,
        let out :=
          upload_background env file title participants meetingId projectId w in
        trace out.2 = trace w ++ es ->
        Exists (fun e => writes_field "action_points" e = true) es ->
        exists res w1 w2,
          processCompleteeMeeting env file title
            (upload_participants participants) w = (inr res, w1)
          /\ has_action_items env (actionItems res) w2 = (inr true, w2)
          /\ actionItems res <> VArr []).
Proof.
  split.
  - intros env file title participants meetingId projectId w
      tr w1 minutes w2 w3 H1 H2 H3 out.
    assert (processCompleteeMeeting env file title
              (upload_participants participants) w =
            match generateEmailSummary env minutes (VArr []) w3 with
            | (inl e, w4) => (inl e, w4)
            | (inr summary, w4) =>
                (inr {| transcription := tr; mom := minutes;
                        actionItems := VArr []; emailSummary := summary;
                        processingComplete := true;
                        processedAt := now env |}, w4)
            end) as Hp.
    { rewrite processCompleteeMeeting_run, H1, H2, H3. reflexivity. }
    assert (forall res wa wb,
              processCompleteeMeeting env file title
                (upload_participants participants) w = (inr res, wa) ->
              has_action_items env (actionItems res) wb = (inr true, wb) ->
              False) as Hno.
    { intros res wa wb Hr Hh. rewrite Hp in Hr.
      destruct (generateEmailSummary env minutes (VArr []) w3)
        as [[e|summary] w4]; [discriminate|].
      injection Hr as <- _. cbn [actionItems] in Hh.
      rewrite has_action_items_empty in Hh. discriminate. }
    destruct (upload_background_quiet_or_items env file title participants
                meetingId projectId w)
      as [(es & Ht & Hq & Htk & Hk)|(res & wa & wb & Hr & Hh)];
      [|destruct (Hno res wa wb Hr Hh)].
    fold out in Ht, Htk, Hk.
    split; [exists es; split; [exact Ht|exact Hq]|].
    split; [exact Htk|]. split; [exact Hk|].
    intros summary w4 old Hs Hc Hacc Hold.
    rewrite Hs in Hp.
    destruct (processCompleteeMeeting_frame env file title
                (upload_participants participants) w) as (es0 & Hw4 & _).
    rewrite Hp in Hw4. cbn [snd] in Hw4. subst w4.
    assert (out =
            (inr tt,
             updated (traced w es0) meetingId
               (results_fields
                  {| transcription := tr; mom := minutes;
                     actionItems := VArr []; emailSummary := summary;
                     processingComplete := true;
                     processedAt := now env |}) old)) as ->.
    { subst out.
      rewrite (upload_background_run env file title
                 (upload_participants participants) meetingId projectId
                 participants w eq_refl).
      rewrite processAIAnalysis_run, Hp.
      unfold isAirtableConfigured in Hc. rewrite Hc.
      rewrite meetings_update_run, Hacc. cbn [meetings traced].
      rewrite Hold. cbn [actionItems].
      rewrite has_action_items_empty. reflexivity. }
    cbn [snd].
    repeat split; apply meeting_field_updated; reflexivity.
  - intros env file title participants meetingId projectId w es out Ht Hex.
    destruct (upload_background_quiet_or_items env file title participants
                meetingId projectId w)
      as [(es' & Ht' & Hq & _)|(res & wa & wb & Hr & Hh)].
    + fold out in Ht'. rewrite Ht in Ht'. apply app_inv_head in Ht'.
      subst es'. exfalso.
      apply Exists_exists in Hex as (e & Hin & Hw).
      rewrite Forall_forall in Hq. destruct (Hq e Hin) as [_ Hq'].
      unfold FIELDS.MEETINGS.ACTION_POINTS in Hq'. congruence.
    + exists res, wa, wb. split; [exact Hr|]. split; [exact Hh|].
      intros Hempty. rewrite Hempty, has_action_items_empty in Hh.
      discriminate.
Qed.

(** The stand-up in which nothing was assigned. *)
Lemma run_without_action_items_witness :
  let out :=
    upload_background env_no_items recording "Standup" (Some "Alice, Bob")
      "m1" "p1" w0 in
  tasks out.2 = []
  /\ meeting_field out.2 "m1" "action_points" = VUndefined
  /\ meeting_field out.2 "m1" "transcript" = VStr spoken
  /\ meeting_field out.2 "m1" "mom" = VStr "1. Meeting Overview"
  /\ meeting_field out.2 "m1" "summary" = VStr "Summary for stakeholders".
Proof.
  intros out.
  pose (w1 := traced w0 [E_transcription recording]).
  pose (w2 := (generateMOM env_no_items (VStr spoken) "Standup"
                 (upload_participants (Some "Alice, Bob")) w1).2).
  pose (w3 := (extractActionItems env_no_items (VStr spoken) "transcript" w2).2).
  destruct (proj1 run_without_action_items env_no_items recording "Standup"
              (Some "Alice, Bob") "m1" "p1" w0
              {| text := VStr spoken; duration := VNum 12;
                 language := VStr "english";
                 segments := VArr []; words := VArr [] |}
              w1 (VStr "1. Meeting Overview") w2 w3)
    as (_ & Htk & Hap & Hres);
    [vm_compute; reflexivity|vm_compute; reflexivity|vm_compute; reflexivity|].
  destruct (Hres (VStr "Summary for stakeholders")
              (generateEmailSummary env_no_items (VStr "1. Meeting Overview")
                 (VArr []) w3).2
              {[ "title" := VStr "Standup" ]})
    as (Ha & Hb & Hc);
    [vm_compute; reflexivity|reflexivity|reflexivity|reflexivity|].
  split; [exact Htk|]. split; [exact (Hap "m1")|].
  split; [exact Ha|]. split; [exact Hb|exact Hc].
Defined.

(** ** The extractor *)

(** What the provider sends is returned as parsed, whatever it holds. *)
Lemma extractActionItems_passes_through
  env txt context w content rest parsed items len :
  isOpenAIConfigured env = true ->
  chat_completions_create env (extract_request txt context)
  = inr (content :: rest) ->
  JSON_parse env (to_string (content_value content)) = Some parsed ->
  get_prop parsed K_action_items = inr items ->
  get_prop items K_length = inr len ->
  extractActionItems env txt context w
  = (inr items, traced w [E_chat (extract_request txt context)]).
Proof.
  intros Hc Hchat Hparse Hitems Hlen.
  rewrite extractActionItems_run, Hc. cbv zeta. rewrite Hchat.
  unfold parsed_items, first_choice_content, js_JSON_parse. unfold_monad.
  now rewrite Hparse, Hitems, Hlen.
Qed.

(** A response that does not parse fails the whole call. *)
Lemma extractActionItems_unparseable env txt context w content rest :
  isOpenAIConfigured env = true ->
  chat_completions_create env (extract_request txt context)
  = inr (content :: rest) ->
  JSON_parse env (to_string (content_value content)) = None ->
  extractActionItems env txt context w
  = (inl (AppError "Failed to extract action items" 500),
     traced w [E_chat (extract_request txt context)]).
Proof.
  intros Hc Hchat Hparse.
  rewrite extractActionItems_run, Hc. cbv zeta. rewrite Hchat.
  unfold parsed_items, first_choice_content, js_JSON_parse. unfold_monad.
  now rewrite Hparse.
Qed.

(** C6: the extractor does not check its items.  On a response whose one
    item has an empty task text and the priority [critical], it returns the
    item as it is; the schema of the Task model refuses that item, and
    [critical] is not one of [TASK_PRIORITY]. *)
Theorem extractActionItems_unvalidated :
  (extractActionItems env_bad_items (VStr spoken) "transcript" w0).1
  = inr (VArr [ VObj [("task", VStr EmptyString);
                      ("priority", VStr "critical")] ])
  /\ validateActionItems
       (VArr [ VObj [("task", VStr EmptyString);
                     ("priority", VStr "critical")] ]) = false
  /\ string_in "critical" priorities = false.
Proof.
  split; [|split; reflexivity].
  rewrite (extractActionItems_passes_through env_bad_items (VStr spoken)
             "transcript" w0 (Some bad_items_json) []
             (VObj [("action_items", bad_items)]) bad_items (VNum 1));
    reflexivity.
Qed.

(** * Further properties of the code *)

(** ** The Tasks table *)

Lemma find_record_set_same rid f table :
  find_record rid table <> None ->
  find_record rid (set_record rid f table) = Some f.
Proof.
  induction table as [|[i g] rest IH]; simpl; [congruence|].
  destruct (String.eqb i rid) eqn:E; simpl; rewrite E; auto.
Qed.

Lemma find_record_set_other rid rid' f table :
  rid' <> rid ->
  find_record rid' (set_record rid f table) = find_record rid' table.
Proof.
  intros Hne. induction table as [|[i g] rest IH]; simpl; [reflexivity|].
  destruct (String.eqb i rid) eqn:E; simpl.
  - apply String.eqb_eq in E. subst i.
    destruct (String.eqb rid rid') eqn:E'; [|reflexivity].
    apply String.eqb_eq in E'. congruence.
  - destruct (String.eqb i rid'); auto.
Qed.

Lemma set_record_ids rid f table :
  List.map fst (set_record rid f table) = List.map fst table.
Proof.
  induction table as [|[i g] rest IH]; simpl; [reflexivity|].
  destruct (String.eqb i rid); simpl; congruence.
Qed.

Lemma find_record_remove_other rid rid' table :
  rid' <> rid ->
  find_record rid' (remove_record rid table) = find_record rid' table.
Proof.
  intros Hne. induction table as [|[i g] rest IH]; simpl; [reflexivity|].
  destruct (String.eqb i rid) eqn:E; simpl.
  - apply String.eqb_eq in E. subst i.
    destruct (String.eqb rid rid') eqn:E'; [|reflexivity].
    apply String.eqb_eq in E'. congruence.
  - destruct (String.eqb i rid'); auto.
Qed.

Lemma find_record_not_in rid table :
  rid ∉ List.map fst table -> find_record rid table = None.
Proof.
  induction table as [|[i g] rest IH]; simpl; [reflexivity|]. intros H.
  apply not_elem_of_cons in H as [Hne H].
  destruct (String.eqb i rid) eqn:E.
  - apply String.eqb_eq in E. congruence.
  - apply IH. exact H.
Qed.

Lemma find_record_remove_same rid table :
  NoDup (List.map fst table) ->
  find_record rid (remove_record rid table) = None.
Proof.
  induction table as [|[i g] rest IH]; simpl; [reflexivity|].
  intros Hnd. apply NoDup_cons in Hnd as [Hi Hnd].
  destruct (String.eqb i rid) eqn:E; simpl.
  - apply String.eqb_eq in E. subst i. now apply find_record_not_in.
  - rewrite E. auto.
Qed.

Lemma remove_record_length rid table :
  find_record rid table <> None ->
  S (List.length (remove_record rid table)) = List.length table.
Proof.
  induction table as [|[i g] rest IH]; simpl; [congruence|].
  destruct (String.eqb i rid); simpl; auto.
Qed.

Lemma not_owner_true rid f userId :
  field f FIELDS.TASKS.OWNER_ID <> VStr userId -> not_owner (rid, f) userId = true.
Proof.
  intros H. unfold not_owner. simpl.
  destruct (strict_neq_str _ userId) eqn:E; [reflexivity|].
  apply strict_neq_str_false in E. contradiction.
Qed.

Lemma not_owner_false rid f userId :
  field f FIELDS.TASKS.OWNER_ID = VStr userId -> not_owner (rid, f) userId = false.
Proof. intros H. unfold not_owner. simpl. now apply strict_neq_str_false. Qed.

Section TaskOperations.

Context (env : Env) (api : TasksApi).

(** The three guarded operations, case by case. *)
Lemma updateTaskStatus_run taskId st userId w :
  updateTaskStatus env api taskId st userId w =
  let failure := (inl (AppError "Failed to update task status" 500), w) in
  if isAirtableConfigured env then
    match tasks_find_rejected api taskId, find_record taskId (tasks w) with
    | None, Some f =>
        if not_owner (taskId, f) userId then failure
        else
          match tasks_update_rejected api taskId
                  {[ FIELDS.TASKS.STATUS := st ]} with
          | Some _ => failure
          | None =>
              (inr (formatTaskRecord
                      (taskId, {[ FIELDS.TASKS.STATUS := st ]} ∪ f)),
               with_table w
                 (set_record taskId ({[ FIELDS.TASKS.STATUS := st ]} ∪ f)
                    (tasks w)))
          end
    | _, _ => failure
    end
  else failure.
Proof.
  unfold updateTaskStatus, getTable, tasks_find, tasks_update,
    isAirtableConfigured.
  unfold throw_if. unfold_monad. cbv zeta.
  destruct (airtable_configured env); simpl; [|reflexivity].
  destruct (tasks_find_rejected api taskId); [reflexivity|].
  destruct (find_record taskId (tasks w)) as [f|] eqn:Hf; [|reflexivity].
  destruct (not_owner (taskId, f) userId); [reflexivity|].
  destruct (tasks_update_rejected api taskId _); [reflexivity|].
  try rewrite Hf; reflexivity.
Qed.

Lemma updateTask_run taskId updates userId w :
  updateTask env api taskId updates userId w =
  let failure := (inl (AppError "Failed to update task" 500), w) in
  if isAirtableConfigured env then
    match tasks_find_rejected api taskId, find_record taskId (tasks w) with
    | None, Some f =>
        if not_owner (taskId, f) userId then failure
        else
          match tasks_update_rejected api taskId (updateFields updates) with
          | Some _ => failure
          | None =>
              (inr (formatTaskRecord (taskId, updateFields updates ∪ f)),
               with_table w
                 (set_record taskId (updateFields updates ∪ f) (tasks w)))
          end
    | _, _ => failure
    end
  else failure.
Proof.
  unfold updateTask, getTable, tasks_find, tasks_update, isAirtableConfigured.
  unfold throw_if. unfold_monad. cbv zeta.
  destruct (airtable_configured env); simpl; [|reflexivity].
  destruct (tasks_find_rejected api taskId); [reflexivity|].
  destruct (find_record taskId (tasks w)) as [f|] eqn:Hf; [|reflexivity].
  destruct (not_owner (taskId, f) userId); [reflexivity|].
  destruct (tasks_update_rejected api taskId _); [reflexivity|].
  try rewrite Hf; reflexivity.
Qed.

Lemma deleteTask_run taskId userId w :
  deleteTask env api taskId userId w =
  let failure := (inl (AppError "Failed to delete task" 500), w) in
  if isAirtableConfigured env then
    match tasks_find_rejected api taskId, find_record taskId (tasks w) with
    | None, Some f =>
        if not_owner (taskId, f) userId then failure
        else
          match tasks_destroy_rejected api taskId with
          | Some _ => failure
          | None =>
              (inr tt, with_table w (remove_record taskId (tasks w)))
          end
    | _, _ => failure
    end
  else failure.
Proof.
  unfold deleteTask, getTable, tasks_find, tasks_destroy, isAirtableConfigured.
  unfold throw_if. unfold_monad. cbv zeta.
  destruct (airtable_configured env); simpl; [|reflexivity].
  destruct (tasks_find_rejected api taskId); [reflexivity|].
  destruct (find_record taskId (tasks w)) as [f|] eqn:Hf; [|reflexivity].
  destruct (not_owner (taskId, f) userId); [reflexivity|].
  destruct (tasks_destroy_rejected api taskId); [reflexivity|].
  try rewrite Hf; reflexivity.
Qed.

End TaskOperations.

(** ** Who can change a task *)

(** The three operations on a record the caller may not touch. *)
Lemma refused_run env api taskId userId f w :
  find_record taskId (tasks w) = Some f ->
  not_owner (taskId, f) userId = true ->
  (forall st,
     updateTaskStatus env api taskId st userId w
     = (inl (AppError "Failed to update task status" 500), w))
  /\ (forall updates,
        updateTask env api taskId updates userId w
        = (inl (AppError "Failed to update task" 500), w))
  /\ deleteTask env api taskId userId w
     = (inl (AppError "Failed to delete task" 500), w).
Proof.
  intros Hf Hno. split; [|split]; intros.
  - rewrite updateTaskStatus_run. cbv zeta. rewrite Hf, Hno.
    destruct (isAirtableConfigured env), (tasks_find_rejected api taskId);
      reflexivity.
  - rewrite updateTask_run. cbv zeta. rewrite Hf, Hno.
    destruct (isAirtableConfigured env), (tasks_find_rejected api taskId);
      reflexivity.
  - rewrite deleteTask_run. cbv zeta. rewrite Hf, Hno.
    destruct (isAirtableConfigured env), (tasks_find_rejected api taskId);
      reflexivity.
Qed.

Lemma not_owner_nullish taskId f userId :
  nullish (field f FIELDS.TASKS.OWNER_ID) = true ->
  not_owner (taskId, f) userId = true.
Proof.
  unfold not_owner. simpl.
  destruct (field f FIELDS.TASKS.OWNER_ID); simpl; congruence.
Qed.

(** X1: someone who is not the owner changes nothing: the three operations
    fail with their own failure of status 500 (the 403 they raise inside
    is not what the caller gets) and the world is as it was. *)
Theorem not_owner_changes_nothing env api taskId userId f w :
  find_record taskId (tasks w) = Some f ->
  field f FIELDS.TASKS.OWNER_ID <> VStr userId ->
  (forall st,
     updateTaskStatus env api taskId st userId w
     = (inl (AppError "Failed to update task status" 500), w))
  /\ (forall updates,
        updateTask env api taskId updates userId w
        = (inl (AppError "Failed to update task" 500), w))
  /\ deleteTask env api taskId userId w
     = (inl (AppError "Failed to delete task" 500), w).
Proof.
  intros Hf Hown. apply (refused_run env api taskId userId f w Hf).
  now apply not_owner_true.
Qed.

(** User [u2] on the task of [u1]. *)
Lemma not_owner_changes_nothing_witness :
  deleteTask env_ok api_ok "rec0" "u2" w_tasks
  = (inl (AppError "Failed to delete task" 500), w_tasks).
Proof.
  destruct (not_owner_changes_nothing env_ok api_ok "rec0" "u2" task_of_u1
              w_tasks eq_refl) as (_ & _ & H); [|exact H].
  vm_compute. discriminate.
Defined.

(** X2: the owner's status update writes the status of that record and
    nothing else: same ids in the same order, the other records and the
    other fields of the record as they were, the Meetings table untouched;
    the task returned is the record after the update. *)
Theorem updateTaskStatus_by_owner env api taskId st userId f w :
  isAirtableConfigured env = true ->
  tasks_find_rejected api taskId = None ->
  tasks_update_rejected api taskId {[ FIELDS.TASKS.STATUS := st ]} = None ->
  find_record taskId (tasks w) = Some f ->
  field f FIELDS.TASKS.OWNER_ID = VStr userId ->
  let out := updateTaskStatus env api taskId st userId w in
  (exists task,
     out.1 = inr task /\ id task = taskId /\ status task = st
     /\ owner_id task = VStr userId
     /\ name task = field f FIELDS.TASKS.NAME)
  /\ task_field out.2 taskId FIELDS.TASKS.STATUS = st
  /\ (forall fname, fname <> FIELDS.TASKS.STATUS ->
        task_field out.2 taskId fname = task_field w taskId fname)
  /\ (forall rid, rid <> taskId ->
        find_record rid (tasks out.2) = find_record rid (tasks w))
  /\ List.map fst (tasks out.2) = List.map fst (tasks w)
  /\ meetings out.2 = meetings w.
Proof.
  intros Hc Hfind Hupd Hf Hown out. subst out.
  rewrite updateTaskStatus_run. cbv zeta.
  rewrite Hc, Hfind, Hf, (not_owner_false taskId f userId Hown), Hupd.
  cbn [fst snd with_table tasks meetings trace].
  assert (forall fname, fname <> FIELDS.TASKS.STATUS ->
            ({[ FIELDS.TASKS.STATUS := st ]} ∪ f : Fields) !! fname
            = f !! fname) as Hother.
  { intros fname Hne. apply lookup_union_r.
    apply lookup_singleton_ne. congruence. }
  assert (({[ FIELDS.TASKS.STATUS := st ]} ∪ f : Fields)
            !! FIELDS.TASKS.STATUS = Some st) as Hst.
  { apply lookup_union_Some_l, lookup_singleton_eq. }
  split.
  { eexists. split; [reflexivity|]. unfold formatTaskRecord, field.
    cbn [id status owner_id name fst snd].
    rewrite Hst, !Hother by discriminate.
    repeat split. exact Hown. }
  unfold task_field, with_table. cbn [tasks meetings trace].
  rewrite find_record_set_same by congruence.
  split; [unfold field; now rewrite Hst|].
  split; [intros fname Hne; unfold field; now rewrite Hf, Hother|].
  split; [intros rid Hne; now apply find_record_set_other|].
  split; [apply set_record_ids|reflexivity].
Qed.

Lemma updateTaskStatus_by_owner_witness :
  task_field
    (updateTaskStatus env_ok api_ok "rec0" (VStr "done") "u1" w_tasks).2
    "rec0" "status" = VStr "done".
Proof.
  destruct (updateTaskStatus_by_owner env_ok api_ok "rec0" (VStr "done") "u1"
              task_of_u1 w_tasks eq_refl eq_refl eq_refl eq_refl eq_refl)
    as (_ & H & _).
  exact H.
Defined.

(** ** Creating a task by hand *)

Lemma createTask_run env taskData w :
  createTask env taskData w =
  if isAirtableConfigured env then
    match tasks_create_rejected env [createTask_fields env taskData] with
    | Some _ =>
        (inl (AppError "Failed to create task" 500),
         traced w [E_tasks_create [createTask_fields env taskData]])
    | None =>
        (inr (formatTaskRecord
                (record_id (List.length (tasks w) + 0),
                 createTask_fields env taskData)),
         with_tasks w [createTask_fields env taskData])
    end
  else (inl (AppError "Failed to create task" 500), w).
Proof.
  unfold createTask, getTable, tasks_create, first_record,
    isAirtableConfigured.
  unfold throw_if. unfold_monad. cbv zeta.
  destruct (airtable_configured env); simpl; [|reflexivity].
  destruct (tasks_create_rejected env _); reflexivity.
Qed.

(** X3: [POST /api/tasks].  Without a name the request is refused with 400
    before anything is called.  With a name, either one record is added at
    the end of the Tasks table and returned (its owner the assignee of the
    body, the caller when there is none; its status pending; its priority
    medium unless the body gives one), or the request fails with
    'Failed to create task' and the table is as it was.  The Meetings table
    is never touched. *)
Theorem post_task_outcome env body userId w :
  let out := post_task env body userId w in
  (truthy (nt_name body) = false ->
   out = (inl (AppError "Task name is required" 400), w))
  /\ (truthy (nt_name body) = true ->
      (exists t f,
         out.1 = inr t
         /\ t = formatTaskRecord (id t, f)
         /\ tasks out.2 = tasks w ++ [(id t, f)]
         /\ name t = nt_name body
         /\ owner_id t = (if truthy (nt_assignee body) then nt_assignee body
                          else VStr userId)
         /\ status t = VStr "pending"
         /\ priority t = (if truthy (nt_priority body) then nt_priority body
                          else VStr "medium")
         /\ source_meeting t = VUndefined)
      \/ (out.1 = inl (AppError "Failed to create task" 500)
          /\ tasks out.2 = tasks w))
  /\ meetings out.2 = meetings w.
Proof.
  intros out. subst out. unfold post_task, throw_if.
  destruct (truthy (nt_name body)) eqn:Hn; cbn [negb].
  - unfold_monad. rewrite createTask_run.
    split; [discriminate|]. split.
    + intros _. destruct (isAirtableConfigured env); [|right; split; reflexivity].
      destruct (tasks_create_rejected env _); [right; split; reflexivity|].
      left. eexists _, _. split; [reflexivity|].
      rewrite formatTaskRecord_fields. cbn [id name owner_id status priority
                                            source_meeting fst snd].
      split; [unfold createTask_fields; rewrite formatTaskRecord_fields;
              reflexivity|].
      repeat split.
    + destruct (isAirtableConfigured env); [|reflexivity].
      destruct (tasks_create_rejected env _); reflexivity.
  - unfold_monad. split; [reflexivity|]. split; [discriminate|reflexivity].
Qed.

(** ** Editing and deleting a task *)

Lemma lookup_put_if name v (f : Fields) k :
  put_if name v f !! k
  = if decide (k = name) then (if truthy v then Some v else f !! k)
    else f !! k.
Proof.
  unfold put_if. destruct (truthy v), (decide (k = name)) as [->|Hne];
    try reflexivity.
  - apply lookup_insert_eq.
  - now apply lookup_insert_ne.
Qed.

Ltac decide_names :=
  repeat match goal with
  | |- context [decide (?a = ?b)] =>
      first [ rewrite (decide_True (P := a = b)) by reflexivity
            | rewrite (decide_False (P := a = b))
                by first [assumption | vm_compute; discriminate]
            | destruct (decide (a = b)) as [->|?] ]
  end.

Lemma lookup_updateFields updates k :
  updateFields updates !! k
  = if decide (k = FIELDS.TASKS.PRIORITY) then
      (if truthy (u_priority updates) then Some (u_priority updates) else None)
    else if decide (k = FIELDS.TASKS.DESCRIPTION) then
      (if truthy (u_description updates)
       then Some (u_description updates) else None)
    else if decide (k = FIELDS.TASKS.DEADLINE) then
      (if truthy (u_deadline updates) then Some (u_deadline updates) else None)
    else if decide (k = FIELDS.TASKS.STATUS) then
      (if truthy (u_status updates) then Some (u_status updates) else None)
    else if decide (k = FIELDS.TASKS.NAME) then
      (if truthy (u_name updates) then Some (u_name updates) else None)
    else None.
Proof.
  unfold updateFields. rewrite !lookup_put_if, lookup_empty.
  decide_names;
    repeat match goal with |- context [truthy ?v] => destruct (truthy v) end;
    reflexivity.
Qed.

(** The field of a record after a partial update. *)
Lemma field_union (g f : Fields) k :
  field (g ∪ f) k = match g !! k with Some v => v | None => field f k end.
Proof.
  unfold field. destruct (g !! k) as [v|] eqn:E.
  - now rewrite (lookup_union_Some_l g f k v E).
  - now rewrite lookup_union_r.
Qed.

(** X4: whatever [updateTask] answers, it adds and removes no record, keeps
    the ids in their order, leaves every other record and the Meetings
    table alone, and changes no field of the record but name, status,
    deadline, description and priority: owner, team, source meeting and
    creation date stay. *)
Theorem updateTask_frame env api taskId updates userId w :
  let out := updateTask env api taskId updates userId w in
  List.map fst (tasks out.2) = List.map fst (tasks w)
  /\ (forall rid, rid <> taskId ->
        find_record rid (tasks out.2) = find_record rid (tasks w))
  /\ (forall fname,
        string_in fname
          [FIELDS.TASKS.NAME; FIELDS.TASKS.STATUS; FIELDS.TASKS.DEADLINE;
           FIELDS.TASKS.DESCRIPTION; FIELDS.TASKS.PRIORITY] = false ->
        task_field out.2 taskId fname = task_field w taskId fname)
  /\ task_field out.2 taskId FIELDS.TASKS.OWNER_ID
     = task_field w taskId FIELDS.TASKS.OWNER_ID
  /\ meetings out.2 = meetings w.
Proof.
  intros out. subst out. rewrite updateTask_run. cbv zeta.
  assert (forall fname,
            string_in fname
              [FIELDS.TASKS.NAME; FIELDS.TASKS.STATUS; FIELDS.TASKS.DEADLINE;
               FIELDS.TASKS.DESCRIPTION; FIELDS.TASKS.PRIORITY] = false ->
            updateFields updates !! fname = None) as Hnone.
  { intros fname H. rewrite lookup_updateFields.
    decide_names; try discriminate H; reflexivity. }
  destruct (isAirtableConfigured env); [|repeat split].
  destruct (tasks_find_rejected api taskId); [repeat split|].
  destruct (find_record taskId (tasks w)) as [f|] eqn:Hf; [|repeat split].
  destruct (not_owner (taskId, f) userId); [repeat split|].
  destruct (tasks_update_rejected api taskId _); [repeat split|].
  unfold task_field, with_table. cbn [fst snd tasks meetings].
  rewrite find_record_set_same, Hf by congruence.
  split; [apply set_record_ids|].
  split; [intros rid Hne; now apply find_record_set_other|].
  split; [intros fname H; now rewrite field_union, (Hnone fname H)|].
  split; [now rewrite field_union, (Hnone FIELDS.TASKS.OWNER_ID eq_refl)
         |reflexivity].
Qed.

(** X5: the owner's edit.  Each of the five fields takes the value sent
    when that value is truthy and keeps the stored one otherwise, so an
    empty string, [null] or 0 clears nothing; the task returned is the
    record as stored. *)
Theorem updateTask_by_owner env api taskId updates userId f w :
  isAirtableConfigured env = true ->
  tasks_find_rejected api taskId = None ->
  tasks_update_rejected api taskId (updateFields updates) = None ->
  find_record taskId (tasks w) = Some f ->
  field f FIELDS.TASKS.OWNER_ID = VStr userId ->
  let out := updateTask env api taskId updates userId w in
  let sent (v : value) (fname : string) :=
    if truthy v then v else field f fname in
  exists g,
    out.1 = inr (formatTaskRecord (taskId, g))
    /\ find_record taskId (tasks out.2) = Some g
    /\ field g FIELDS.TASKS.NAME = sent (u_name updates) FIELDS.TASKS.NAME
    /\ field g FIELDS.TASKS.STATUS = sent (u_status updates) FIELDS.TASKS.STATUS
    /\ field g FIELDS.TASKS.DEADLINE
       = sent (u_deadline updates) FIELDS.TASKS.DEADLINE
    /\ field g FIELDS.TASKS.DESCRIPTION
       = sent (u_description updates) FIELDS.TASKS.DESCRIPTION
    /\ field g FIELDS.TASKS.PRIORITY
       = sent (u_priority updates) FIELDS.TASKS.PRIORITY.
Proof.
  intros Hc Hfind Hupd Hf Hown out sent. subst out sent.
  rewrite updateTask_run. cbv zeta.
  rewrite Hc, Hfind, Hf, (not_owner_false taskId f userId Hown), Hupd.
  unfold with_table. cbn [fst snd tasks].
  exists (updateFields updates ∪ f).
  split; [reflexivity|].
  split; [apply find_record_set_same; congruence|].
  rewrite !field_union, !lookup_updateFields.
  repeat split; decide_names;
    match goal with |- context [truthy ?v] => destruct (truthy v) end;
    reflexivity.
Qed.

Lemma updateTask_by_owner_witness :
  task_field
    (updateTask env_ok api_ok "rec0"
       {| u_name := VStr EmptyString; u_status := VUndefined;
          u_deadline := VNull; u_description := VUndefined;
          u_priority := VStr "high" |} "u1" w_tasks).2
    "rec0" "name" = VStr "send the report".
Proof.
  destruct (updateTask_by_owner env_ok api_ok "rec0"
              {| u_name := VStr EmptyString; u_status := VUndefined;
                 u_deadline := VNull; u_description := VUndefined;
                 u_priority := VStr "high" |} "u1"
              task_of_u1 w_tasks eq_refl eq_refl eq_refl eq_refl eq_refl)
    as (g & _ & Hg & Hn & _).
  unfold task_field. rewrite Hg. exact Hn.
Defined.

(** X6: the owner's delete removes that record and no other: the table is
    one record shorter, the record is not found any more (ids being unique,
    as Airtable's are), every other id finds what it found, and the
    Meetings table is as it was. *)
Theorem deleteTask_by_owner env api taskId userId f w :
  isAirtableConfigured env = true ->
  tasks_find_rejected api taskId = None ->
  tasks_destroy_rejected api taskId = None ->
  find_record taskId (tasks w) = Some f ->
  field f FIELDS.TASKS.OWNER_ID = VStr userId ->
  NoDup (List.map fst (tasks w)) ->
  let out := deleteTask env api taskId userId w in
  out.1 = inr tt
  /\ find_record taskId (tasks out.2) = None
  /\ (forall rid, rid <> taskId ->
        find_record rid (tasks out.2) = find_record rid (tasks w))
  /\ S (List.length (tasks out.2)) = List.length (tasks w)
  /\ meetings out.2 = meetings w.
Proof.
  intros Hc Hfind Hdel Hf Hown Hnd out. subst out.
  rewrite deleteTask_run. cbv zeta.
  rewrite Hc, Hfind, Hf, (not_owner_false taskId f userId Hown), Hdel.
  unfold with_table. cbn [fst snd tasks meetings].
  split; [reflexivity|].
  split; [now apply find_record_remove_same|].
  split; [intros rid Hne; now apply find_record_remove_other|].
  split; [apply remove_record_length; congruence|reflexivity].
Qed.

Lemma deleteTask_by_owner_witness :
  find_record "rec0" (tasks (deleteTask env_ok api_ok "rec0" "u1" w_tasks).2)
  = None.
Proof.
  destruct (deleteTask_by_owner env_ok api_ok "rec0" "u1" task_of_u1 w_tasks
              eq_refl eq_refl eq_refl eq_refl eq_refl) as (_ & H & _);
    [|exact H].
  vm_compute. apply NoDup_cons. split; [|apply NoDup_singleton].
  intros H. apply list_elem_of_singleton in H. discriminate H.
Defined.

(** ** Tasks that come from a meeting *)

Lemma record_id_inj a b : record_id a = record_id b -> a = b.
Proof.
  unfold record_id. intros H. injection H as H. now apply pretty_nat_inj.
Qed.

Lemma find_record_app rid (l1 l2 : list (string * Fields)) :
  find_record rid (l1 ++ l2)
  = match find_record rid l1 with
    | Some f => Some f
    | None => find_record rid l2
    end.
Proof.
  induction l1 as [|[i g] rest IH]; simpl; [reflexivity|].
  destruct (String.eqb i rid); auto.
Qed.

(** The records of a batch are found under the ids the table gave them. *)
Lemma find_created records : forall m i,
  find_record (record_id (m + i))
    (imap (fun j f => (record_id (m + j), f)) records)
  = records !! i.
Proof.
  induction records as [|f records IH]; intros m i; [reflexivity|].
  rewrite imap_cons. cbn [find_record].
  destruct i as [|i].
  - now rewrite String.eqb_refl.
  - destruct (String.eqb _ _) eqn:E.
    + apply String.eqb_eq, record_id_inj in E. lia.
    + change ((f :: records) !! S i) with (records !! i).
      rewrite <- (IH (S m) i).
      replace (m + S i)%nat with (S m + i)%nat by lia.
      f_equal. apply imap_ext. intros j x _. simpl.
      now replace (m + S j)%nat with (S (m + j)) by lia.
Qed.

(** X7: the two halves of the program do not meet.  The tasks made from the
    action items of a meeting get the assignee's name as owner, and no owner
    at all when the assignee is 'Not specified'; the operations on a task
    ask for an owner equal to the caller's id.  So a task made from an item
    without assignee is stored without owner, and no user at all can change
    its status, edit it or delete it. *)
Theorem unassigned_item_task_is_frozen env api item items meetingId projectId w :
  isAirtableConfigured env = true ->
  forallb (fun item => negb (nullish item)) (item :: items) = true ->
  (forall records, tasks_create_rejected env records = None) ->
  (forall k, (List.length (tasks w) <= k)%nat ->
             find_record (record_id k) (tasks w) = None) ->
  exists ts w',
    createTasksFromActionItems env (VArr (item :: items)) meetingId projectId w
    = (inr ts, w')
    /\ Forall2
         (fun item t =>
            get_prop item K_assignee = inr (VStr "Not specified") ->
            owner_id t = VNull
            /\ forall userId,
                 (forall st,
                    updateTaskStatus env api (id t) st userId w'
                    = (inl (AppError "Failed to update task status" 500), w'))
                 /\ (forall updates,
                       updateTask env api (id t) updates userId w'
                       = (inl (AppError "Failed to update task" 500), w'))
                 /\ deleteTask env api (id t) userId w'
                    = (inl (AppError "Failed to delete task" 500), w'))
         (item :: items) ts.
Proof.
  intros Hc Hnn Hacc Hfresh.
  destruct (mapM_task_fields env meetingId projectId (item :: items) w Hnn)
    as (records & Hm & Hall).
  eexists _, _. split.
  { apply (createTasksFromActionItems_accepted env meetingId projectId
             item items records w Hc Hm (Hacc records)). }
  apply Forall2_same_length_lookup. split.
  { rewrite length_map. unfold created_records. rewrite length_imap.
    now apply Forall2_length in Hall. }
  intros i it t Hit Ht Has.
  rewrite list_lookup_fmap in Ht. unfold created_records in Ht.
  rewrite list_lookup_imap in Ht.
  destruct (records !! i) as [f|] eqn:Hr; [|discriminate Ht].
  injection Ht as <-. cbn [id owner_id formatTaskRecord fst snd].
  destruct (Forall2_lookup_lr _ _ _ _ _ _ Hall Hit Hr)
    as (task & assignee & deadline & prio & _ & Ha & _ & _ & ->).
  rewrite Has in Ha. injection Ha as <-.
  assert (field (task_record env meetingId projectId task
                   (VStr "Not specified") deadline prio)
            FIELDS.TASKS.OWNER_ID = VNull) as Hown by reflexivity.
  split; [exact Hown|]. intros userId.
  apply refused_run with (f := task_record env meetingId projectId task
                                 (VStr "Not specified") deadline prio).
  - unfold with_tasks, created_records. cbn [tasks].
    rewrite find_record_app, Hfresh by lia.
    now rewrite find_created.
  - apply not_owner_nullish. now rewrite Hown.
Qed.

(** A meeting with one item for nobody, on an empty Tasks table. *)
Lemma unassigned_item_task_is_frozen_witness :
  exists ts w',
    createTasksFromActionItems env_ok
      (VArr [VObj [("task", VStr "book a room");
                   ("assignee", VStr "Not specified")]])
      (VStr "m1") (VStr "p1") w0 = (inr ts, w')
    /\ Forall (fun t => owner_id t = VNull) ts.
Proof.
  destruct (unassigned_item_task_is_frozen env_ok api_ok
              (VObj [("task", VStr "book a room");
                     ("assignee", VStr "Not specified")]) []
              (VStr "m1") (VStr "p1") w0 eq_refl eq_refl)
    as (ts & w' & Hrun & Hall).
  - reflexivity.
  - reflexivity.
  - exists ts, w'. split; [exact Hrun|].
    apply Forall2_cons_inv_l in Hall as (t & ts' & Ht & Hnil & ->).
    apply Forall2_nil_inv_l in Hnil as ->.
    constructor; [|constructor]. now destruct (Ht eq_refl).
Defined.

(** ** The bulk update *)

(** One turn of the loop: nothing happens, or the caller's own record gets
    the status. *)
Lemma updateTaskStatus_step env api taskId st userId w :
  updateTaskStatus env api taskId st userId w
  = (inl (AppError "Failed to update task status" 500), w)
  \/ exists f,
       find_record taskId (tasks w) = Some f
       /\ field f FIELDS.TASKS.OWNER_ID = VStr userId
       /\ updateTaskStatus env api taskId st userId w
          = (inr (formatTaskRecord (taskId, {[ FIELDS.TASKS.STATUS := st ]} ∪ f)),
             with_table w
               (set_record taskId ({[ FIELDS.TASKS.STATUS := st ]} ∪ f)
                  (tasks w))).
Proof.
  rewrite updateTaskStatus_run. cbv zeta.
  destruct (isAirtableConfigured env); [|now left].
  destruct (tasks_find_rejected api taskId); [now left|].
  destruct (find_record taskId (tasks w)) as [f|] eqn:Hf; [|now left].
  destruct (not_owner (taskId, f) userId) eqn:Hno; [now left|].
  destruct (tasks_update_rejected api taskId _); [now left|].
  right. exists f. split; [reflexivity|]. split; [|reflexivity].
  unfold not_owner in Hno. now apply strict_neq_str_false in Hno.
Qed.

(** What the loop has done when it ends. *)
Lemma bulk_loop_spec env api st userId task_ids : forall results errs w,
  let out := bulk_loop env api st userId task_ids results errs w in
  exists new_results new_errs,
    out.1.1 = results ++ new_results
    /\ out.1.2 = errs ++ new_errs
    /\ (List.length new_results + List.length new_errs
        = List.length task_ids)%nat
    /\ Forall (fun e => e.2 = "Failed to update task status" /\ e.1 ∈ task_ids)
         new_errs
    /\ Forall (fun t => status t = st /\ owner_id t = VStr userId
                        /\ id t ∈ task_ids) new_results
    /\ List.map fst (tasks out.2) = List.map fst (tasks w)
    /\ meetings out.2 = meetings w
    /\ (forall rid f,
          find_record rid (tasks w) = Some f ->
          field f FIELDS.TASKS.OWNER_ID <> VStr userId ->
          find_record rid (tasks out.2) = Some f)
    /\ (forall rid, rid ∉ task_ids ->
          find_record rid (tasks out.2) = find_record rid (tasks w)).
Proof.
  induction task_ids as [|taskId rest IH]; intros results errs w; cbn zeta.
  - exists [], []. cbn [bulk_loop fst snd].
    rewrite !app_nil_r. repeat split; auto.
  - cbn [bulk_loop].
    destruct (updateTaskStatus_step env api taskId st userId w)
      as [->|(f & Hf & Hown & ->)].
    + specialize (IH results (errs ++ [(taskId, error_message
                     (AppError "Failed to update task status" 500))]) w).
      cbn zeta in IH.
      destruct IH as (nr & ne & H1 & H2 & H3 & H4 & H5 & H6 & H7 & H8 & H9).
      exists nr, ((taskId, "Failed to update task status") :: ne).
      split; [exact H1|]. split; [now rewrite H2, <- app_assoc|].
      split; [simpl; lia|].
      split.
      { constructor; [split; [reflexivity|left]|].
        eapply Forall_impl; [exact H4|]. intros e [He Hin].
        split; [exact He|now right]. }
      split.
      { eapply Forall_impl; [exact H5|]. intros t (Ha & Hb & Hin).
        repeat split; auto. now right. }
      split; [exact H6|]. split; [exact H7|]. split; [exact H8|].
      intros rid Hn. apply H9. intros Hin. apply Hn. now right.
    + set (g := ({[ FIELDS.TASKS.STATUS := st ]} ∪ f : Fields)).
      set (w1 := with_table w (set_record taskId g (tasks w))).
      specialize (IH (results ++ [formatTaskRecord (taskId, g)]) errs w1).
      cbn zeta in IH.
      destruct IH as (nr & ne & H1 & H2 & H3 & H4 & H5 & H6 & H7 & H8 & H9).
      exists (formatTaskRecord (taskId, g) :: nr), ne.
      split; [now rewrite H1, <- app_assoc|]. split; [exact H2|].
      split; [simpl; lia|].
      split.
      { eapply Forall_impl; [exact H4|]. intros e [He Hin].
        split; [exact He|now right]. }
      split.
      { constructor.
        - cbn [formatTaskRecord status owner_id id fst snd].
          subst g. rewrite !field_union.
          rewrite lookup_singleton_eq, lookup_singleton_ne by discriminate.
          split; [reflexivity|]. split; [exact Hown|left].
        - eapply Forall_impl; [exact H5|]. intros t (Ha & Hb & Hin).
          repeat split; auto. now right. }
      split; [rewrite H6; apply set_record_ids|].
      split; [exact H7|].
      split.
      { intros rid f' Hf' Hn. apply H8; [|exact Hn].
        subst w1. unfold with_table. cbn [tasks].
        rewrite find_record_set_other; [exact Hf'|].
        intros ->. rewrite Hf in Hf'. injection Hf' as ->. contradiction. }
      intros rid Hn. rewrite H9 by (intros Hin; apply Hn; now right).
      subst w1. unfold with_table. cbn [tasks].
      apply find_record_set_other. intros ->. apply Hn. left.
Qed.

Lemma patch_bulk_status_run env api task_ids st userId w :
  patch_bulk_status env api task_ids st userId w =
  if Nat.eqb (List.length task_ids) 0
  then (inl (AppError "Task IDs array is required" 400), w)
  else if negb (truthy st) then (inl (AppError "Status is required" 400), w)
  else if negb (includes_value validStatuses st) then (inl invalid_status, w)
  else
    let out := bulk_loop env api st userId task_ids [] [] w in
    (inr {| updated_tasks := out.1.1; errors := out.1.2;
            total_requested := List.length task_ids;
            successful := List.length out.1.1;
            failed := List.length out.1.2 |}, out.2).
Proof.
  unfold patch_bulk_status, throw_if. unfold_monad.
  destruct (Nat.eqb _ 0); [reflexivity|].
  destruct (negb (truthy st)); [reflexivity|].
  destruct (negb (includes_value validStatuses st)); [reflexivity|].
  cbv zeta. destruct (bulk_loop _ _ _ _ _ _ _ _) as [[r e] w']. reflexivity.
Qed.

(** X8: [PATCH /api/tasks/bulk/status] fails only on its input, with
    status 400 and before any task is read: no id, no status, or a status
    outside the four.  Otherwise it answers, whatever happens to the single
    updates: every id is counted once, as updated or as failed; each failure
    carries the id and the one message 'Failed to update task status'; each
    task returned has the new status and the caller as owner. *)
Theorem patch_bulk_status_outcome env api task_ids st userId w :
  let out := patch_bulk_status env api task_ids st userId w in
  match out.1 with
  | inl e =>
      out.2 = w
      /\ (e = AppError "Task IDs array is required" 400 /\ task_ids = []
          \/ e = AppError "Status is required" 400 /\ truthy st = false
          \/ e = AppError "Invalid status. Must be one of: pending, in_progress, done, cancelled" 400
             /\ includes_value validStatuses st = false)
  | inr r =>
      task_ids <> []
      /\ (exists s, st = VStr s /\ s ∈ validStatuses)
      /\ total_requested r = List.length task_ids
      /\ (successful r + failed r = total_requested r)%nat
      /\ List.length (updated_tasks r) = successful r
      /\ List.length (errors r) = failed r
      /\ Forall (fun e => e.2 = "Failed to update task status"
                          /\ e.1 ∈ task_ids) (errors r)
      /\ Forall (fun t => status t = st /\ owner_id t = VStr userId
                          /\ id t ∈ task_ids) (updated_tasks r)
  end.
Proof.
  intros out. subst out. rewrite patch_bulk_status_run.
  destruct (Nat.eqb (List.length task_ids) 0) eqn:Hl.
  { cbn [fst snd]. split; [reflexivity|]. left. split; [reflexivity|].
    apply Nat.eqb_eq in Hl. now apply nil_length_inv. }
  destruct (truthy st) eqn:Ht; cbn [negb].
  2:{ cbn [fst snd]. split; [reflexivity|]. right; left. now split. }
  destruct (includes_value validStatuses st) eqn:Hv; cbn [negb].
  2:{ cbn [fst snd]. split; [reflexivity|]. right; right. now split. }
  cbv zeta. cbn [fst snd updated_tasks errors total_requested successful failed].
  destruct (bulk_loop_spec env api st userId task_ids [] [] w)
    as (nr & ne & H1 & H2 & H3 & H4 & H5 & _).
  cbn [app] in H1, H2. rewrite H1, H2.
  split; [intros ->; discriminate Hl|].
  split.
  { destruct st as [| |b|n|s|items|props]; try discriminate Hv.
    exists s. split; [reflexivity|].
    unfold includes_value, string_in in Hv.
    apply existsb_exists in Hv as (x & Hin & Hx).
    apply String.eqb_eq in Hx. subst x. now apply list_elem_of_In. }
  split; [reflexivity|]. split; [exact H3|].
  split; [reflexivity|]. split; [reflexivity|]. split; [exact H4|exact H5].
Qed.

(** X9: the bulk update changes no record of somebody else and no record
    whose id was not sent; it adds and removes none, and it leaves the
    Meetings table alone. *)
Theorem patch_bulk_status_frame env api task_ids st userId w :
  let out := patch_bulk_status env api task_ids st userId w in
  List.map fst (tasks out.2) = List.map fst (tasks w)
  /\ meetings out.2 = meetings w
  /\ (forall rid f,
        find_record rid (tasks w) = Some f ->
        field f FIELDS.TASKS.OWNER_ID <> VStr userId ->
        find_record rid (tasks out.2) = Some f)
  /\ (forall rid, rid ∉ task_ids ->
        find_record rid (tasks out.2) = find_record rid (tasks w)).
Proof.
  intros out. subst out. rewrite patch_bulk_status_run.
  destruct (Nat.eqb _ 0); [repeat split; auto|].
  destruct (negb (truthy st)); [repeat split; auto|].
  destruct (negb (includes_value validStatuses st)); [repeat split; auto|].
  cbv zeta. cbn [fst snd].
  destruct (bulk_loop_spec env api st userId task_ids [] [] w)
    as (nr & ne & _ & _ & _ & _ & _ & H6 & H7 & H8 & H9).
  repeat split; auto.
Qed.

(** ** What validation would have bought *)

Lemma joi_string_inv bounds v :
  joi_string bounds v = true ->
  exists s, v = VStr s /\ s <> EmptyString
            /\ match bounds with
               | Some (lo, hi) => (lo <= String.length s <= hi)%nat
               | None => True
               end.
Proof.
  destruct v as [| |b|n|s|items|props]; try discriminate. simpl.
  intros H. apply andb_true_iff in H as [Hne Hb]. exists s.
  split; [reflexivity|]. split.
  - intros ->. discriminate Hne.
  - destruct bounds as [[lo hi]|]; [|exact I].
    apply andb_true_iff in Hb as [Hlo Hhi].
    apply Nat.leb_le in Hlo, Hhi. lia.
Qed.

(** X10: [validateActionItems] is defined by the Task model and called by
    nothing.  Had the items passed it, materializing them could not fail
    inside the process, and every task stored would have a name of 1 to 255
    characters, the status pending, a priority among the four of
    [TASK_PRIORITY] (medium when the item has none) and, as owner, [null],
    [undefined] or a non-empty text. *)
Theorem valid_items_make_valid_tasks env item items meetingId projectId w :
  isAirtableConfigured env = true ->
  validateActionItems (VArr (item :: items)) = true ->
  (forall records, tasks_create_rejected env records = None) ->
  exists ts w',
    createTasksFromActionItems env (VArr (item :: items)) meetingId projectId w
    = (inr ts, w')
    /\ List.length ts = List.length (item :: items)
    /\ Forall
         (fun t =>
            (exists s, name t = VStr s /\ (1 <= String.length s <= 255)%nat)
            /\ status t = VStr "pending"
            /\ (exists p, priority t = VStr p /\ p ∈ priorities)
            /\ (nullish (owner_id t) = true
                \/ exists s, owner_id t = VStr s /\ s <> EmptyString))
         ts.
Proof.
  intros Hc Hv Hacc.
  assert (forall it, it ∈ item :: items -> actionItemSchema it = true) as Hs.
  { intros it Hin. cbn [validateActionItems] in Hv.
    rewrite forallb_forall in Hv. apply Hv. now apply list_elem_of_In. }
  assert (forallb (fun item => negb (nullish item)) (item :: items) = true)
    as Hnn.
  { apply forallb_forall. intros it Hin. apply list_elem_of_In, Hs in Hin.
    now destruct it. }
  destruct (mapM_task_fields env meetingId projectId (item :: items) w Hnn)
    as (records & Hm & Hall).
  eexists _, _. split.
  { apply (createTasksFromActionItems_accepted env meetingId projectId
             item items records w Hc Hm (Hacc records)). }
  split.
  { rewrite length_map. unfold created_records. rewrite length_imap.
    symmetry. now apply Forall2_length in Hall. }
  apply Forall_lookup. intros i t Ht.
  rewrite list_lookup_fmap in Ht. unfold created_records in Ht.
  rewrite list_lookup_imap in Ht.
  destruct (records !! i) as [f|] eqn:Hr; [|discriminate Ht].
  injection Ht as <-.
  destruct (Forall2_lookup_r _ _ _ _ _ Hall Hr)
    as (it & Hit & task & assignee & deadline & prio & Ha & Hb & _ & Hd & ->).
  unfold task_record. rewrite formatTaskRecord_fields.
  cbn [name status priority owner_id].
  apply list_elem_of_lookup_2, Hs in Hit.
  destruct it as [| |b|n|s|l|props]; try discriminate Hit.
  cbn [get_prop key_name] in Ha, Hb, Hd.
  injection Ha as <-. injection Hb as <-. injection Hd as <-.
  cbn [actionItemSchema] in Hit.
  repeat (apply andb_true_iff in Hit as [Hit ?]).
  split.
  { destruct (joi_string_inv _ _ H3) as (s & -> & _ & Hlen). now exists s. }
  split; [reflexivity|]. split.
  { destruct (assoc "priority" props) as [| |b|n|s|l|props'] eqn:Hp;
      try discriminate H0.
    - exists "medium". split; [reflexivity|]. repeat constructor.
    - cbn [joi_optional] in H0. apply andb_true_iff in H0 as [Hj Hin].
      apply joi_string_inv in Hj as (s' & [= <-] & Hne & _).
      exists s. split.
      + unfold js_or. cbn [truthy].
        destruct (String.eqb s EmptyString) eqn:E; [|reflexivity].
        apply String.eqb_eq in E. contradiction.
      + unfold string_in in Hin. apply existsb_exists in Hin as (x & Hx & E).
        apply String.eqb_eq in E. subst x. now apply list_elem_of_In. }
  destruct (assoc "assignee" props) as [| |b|n|s|l|props'] eqn:Hp;
    try discriminate H2.
  - left. reflexivity.
  - cbn [joi_optional] in H2.
    apply joi_string_inv in H2 as (s' & [= <-] & Hne & _).
    cbn [strict_neq_str].
    destruct (negb (String.eqb s "Not specified")); [|now left].
    right. now exists s.
Qed.

Lemma valid_items_make_valid_tasks_witness :
  exists ts w',
    createTasksFromActionItems env_ok
      (VArr [VObj [("task", VStr "book a room")]]) (VStr "m1") (VStr "p1") w0
    = (inr ts, w')
    /\ List.length ts = 1%nat.
Proof.
  destruct (valid_items_make_valid_tasks env_ok
              (VObj [("task", VStr "book a room")]) []
              (VStr "m1") (VStr "p1") w0 eq_refl eq_refl)
    as (ts & w' & Hrun & Hlen & _).
  - reflexivity.
  - exists ts, w'. split; [exact Hrun|exact Hlen].
Defined.

(** ** The Meeting model: participants there and back *)

Lemma split_without sep s : contains sep s = false -> split sep s = [s].
Proof.
  induction s as [|c rest IH]; simpl; [reflexivity|].
  destruct (Ascii.eqb c sep); [discriminate|]. simpl. intros H.
  now rewrite (IH H).
Qed.

Lemma split_app_sep sep x rest :
  contains sep x = false ->
  split sep (x +:+ String sep rest) = x :: split sep rest.
Proof.
  induction x as [|c x IH]; simpl.
  - now rewrite Ascii.eqb_refl.
  - destruct (Ascii.eqb c sep); [discriminate|]. simpl. intros H.
    now rewrite (IH H).
Qed.

Lemma contains_app c a b : contains c (a +:+ b) = contains c a || contains c b.
Proof.
  induction a as [|d a IH]; simpl; [reflexivity|].
  now rewrite IH, orb_assoc.
Qed.

Lemma trimStart_app_blank pre x :
  all_whitespace pre = true -> trimStart (pre +:+ x) = trimStart x.
Proof.
  induction pre as [|c pre IH]; simpl; [reflexivity|].
  intros H. apply andb_prop in H as [-> H]. now apply IH.
Qed.

Lemma trimStart_clean x : starts_with_whitespace x = false -> trimStart x = x.
Proof. destruct x as [|c x]; simpl; [reflexivity|]. now intros ->. Qed.

Lemma trimEnd_clean x : ends_with_whitespace x = false -> trimEnd x = x.
Proof.
  induction x as [|c x IH]; simpl; [reflexivity|].
  destruct x as [|d x].
  - simpl. now intros ->.
  - intros H. rewrite (IH H). reflexivity.
Qed.

Lemma trim_blank_clean pre x :
  all_whitespace pre = true ->
  starts_with_whitespace x = false -> ends_with_whitespace x = false ->
  trim (pre +:+ x) = x.
Proof.
  intros Hp Hs He. unfold trim.
  now rewrite trimStart_app_blank, trimStart_clean, trimEnd_clean.
Qed.

Lemma clean_participant_inv p :
  clean_participant p = true ->
  p <> EmptyString /\ contains ","%char p = false
  /\ starts_with_whitespace p = false /\ ends_with_whitespace p = false.
Proof.
  unfold clean_participant. intros H.
  repeat (apply andb_prop in H as [H ?]).
  repeat match goal with
         | H : negb _ = true |- _ => apply negb_true_iff in H
         end.
  repeat split; auto. intros ->. discriminate H.
Qed.

Lemma formatParticipants_cons p q l :
  formatParticipants (p :: q :: l)
  = p +:+ String ","%char (" " +:+ formatParticipants (q :: l)).
Proof. reflexivity. Qed.

(** The entries of a formatted list, trimmed. *)
Lemma trim_split_format p l : forall pre,
  Forall (fun p => clean_participant p = true) (p :: l) ->
  all_whitespace pre = true -> contains ","%char pre = false ->
  List.map trim (split ","%char (pre +:+ formatParticipants (p :: l))) = p :: l.
Proof.
  revert p. induction l as [|q l IH]; intros p pre Hall Hpre Hc.
  - apply Forall_cons in Hall as [Hp _].
    apply clean_participant_inv in Hp as (_ & Hpc & Hps & Hpe).
    cbn [formatParticipants join].
    rewrite split_without by now rewrite contains_app, Hc, Hpc.
    cbn [List.map]. now rewrite trim_blank_clean.
  - apply Forall_cons in Hall as [Hp Hall].
    apply clean_participant_inv in Hp as (_ & Hpc & Hps & Hpe).
    rewrite formatParticipants_cons, <- append_assoc.
    rewrite split_app_sep by now rewrite contains_app, Hc, Hpc.
    cbn [List.map]. rewrite trim_blank_clean by assumption.
    f_equal. now apply IH.
Qed.

Lemma parse_format_clean l :
  Forall (fun p => clean_participant p = true) l ->
  parseParticipants (VStr (formatParticipants l)) = l.
Proof.
  destruct l as [|p l]; [reflexivity|]. intros Hall.
  rewrite parseParticipants_string.
  pose proof (trim_split_format p l EmptyString Hall eq_refl eq_refl) as Ht.
  change (EmptyString +:+ formatParticipants (p :: l))
    with (formatParticipants (p :: l)) in Ht.
  rewrite Ht. apply forallb_filter_id, forallb_forall. intros x Hx.
  apply length_pos_nonempty.
  rewrite Forall_forall in Hall. apply list_elem_of_In, Hall in Hx.
  now apply clean_participant_inv in Hx.
Qed.

Lemma parseParticipants_clean v :
  Forall (fun p => clean_participant p = true) (parseParticipants v).
Proof.
  destruct v as [| |b|n|s|items|props]; try constructor.
  rewrite parseParticipants_string.
  apply Forall_forall. intros p Hp.
  apply list_elem_of_In, filter_In in Hp as [Hp Hne].
  apply in_map_iff in Hp as (e & <- & He).
  apply split_no_sep in He.
  destruct (trim_decompose e) as (pre & post & Hd & _ & _).
  rewrite Hd, !contains_app in He.
  apply orb_false_iff in He as [_ He]. apply orb_false_iff in He as [He _].
  destruct (trim_edges e) as [Hs Ht].
  unfold clean_participant. rewrite He, Hs, Ht.
  apply length_pos_nonempty in Hne.
  destruct (String.eqb (trim e) EmptyString) eqn:E; [|reflexivity].
  apply String.eqb_eq in E. contradiction.
Qed.

(** X11: [formatParticipants] and [parseParticipants] are inverse of each
    other on the lists that [parseParticipants] can return: names that are
    not empty, hold no comma and neither start nor end with white space. *)
Theorem participants_round_trip l :
  Forall (fun p => clean_participant p = true) l ->
  parseParticipants (VStr (formatParticipants l)) = l.
Proof. apply parse_format_clean. Qed.

Lemma participants_round_trip_witness :
  parseParticipants (VStr (formatParticipants ["Ann Lee"; "Bob"; "C. D."]))
  = ["Ann Lee"; "Bob"; "C. D."].
Proof.
  apply (participants_round_trip ["Ann Lee"; "Bob"; "C. D."]).
  repeat constructor.
Defined.

(** X12: what [parseParticipants] returns is in normal form, whatever it
    was given: every name is clean, and formatting the list and parsing it
    again gives the same list. *)
Theorem parseParticipants_normal_form v :
  Forall (fun p => clean_participant p = true) (parseParticipants v)
  /\ parseParticipants (VStr (formatParticipants (parseParticipants v)))
     = parseParticipants v.
Proof.
  split; [apply parseParticipants_clean|].
  apply parse_format_clean, parseParticipants_clean.
Qed.

(** ** The Meeting model: media types *)

Lemma string_in_elem s l : string_in s l = true <-> s ∈ l.
Proof.
  unfold string_in. rewrite existsb_exists. split.
  - intros (x & Hin & E). apply String.eqb_eq in E. subst x.
    now apply list_elem_of_In.
  - intros Hin. exists s. split; [now apply list_elem_of_In|].
    apply String.eqb_refl.
Qed.

Lemma string_in_app s l1 l2 :
  string_in s (l1 ++ l2) = string_in s l1 || string_in s l2.
Proof. unfold string_in. apply existsb_app. Qed.

(** X13: the program lists the media types three times: in the upload
    route, in the schema of an uploaded file and in the two predicates of
    the model.  The three agree on every value: the route accepts a file
    exactly when the model calls it a media file, and then its type is a
    text that starts with audio/ or with video/, never both kinds. *)
Theorem media_types_agree mimetype :
  (fileFilter mimetype = None <-> isValidMediaFile mimetype = true)
  /\ fileUploadSchema_mimetype mimetype = isValidMediaFile mimetype
  /\ isValidAudioFile mimetype && isValidVideoFile mimetype = false
  /\ (isValidAudioFile mimetype = true ->
      exists rest, mimetype = VStr ("audio/" +:+ rest))
  /\ (isValidVideoFile mimetype = true ->
      exists rest, mimetype = VStr ("video/" +:+ rest)).
Proof.
  assert (includes_value allowedMimes mimetype = isValidMediaFile mimetype)
    as Hagree.
  { unfold isValidMediaFile, isValidAudioFile, isValidVideoFile.
    destruct mimetype as [| |b|n|s|items|props]; try reflexivity.
    cbn [includes_value]. rewrite <- string_in_app. reflexivity. }
  split; [|split; [exact Hagree|]].
  { unfold fileFilter. rewrite Hagree.
    destruct (isValidMediaFile mimetype); split; congruence. }
  unfold isValidAudioFile, isValidVideoFile.
  destruct mimetype as [| |b|n|s|items|props];
    try (split; [reflexivity|split; discriminate]).
  cbn [includes_value]. split; [|split].
  - destruct (string_in s validAudioTypes) eqn:Ha; [|reflexivity].
    apply string_in_elem in Ha. unfold validAudioTypes in Ha.
    repeat (apply elem_of_cons in Ha as [->|Ha]; [reflexivity|]).
    now apply elem_of_nil in Ha.
  - intros Ha. apply string_in_elem in Ha. unfold validAudioTypes in Ha.
    repeat (apply elem_of_cons in Ha as [->|Ha]; [eexists; reflexivity|]).
    now apply elem_of_nil in Ha.
  - intros Ha. apply string_in_elem in Ha. unfold validVideoTypes in Ha.
    repeat (apply elem_of_cons in Ha as [->|Ha]; [eexists; reflexivity|]).
    now apply elem_of_nil in Ha.
Qed.

(** ** The Meeting model: file names *)

Lemma lower_char_idem c : lower_char (lower_char c) = lower_char c.
Proof. destruct c as [[] [] [] [] [] [] [] []]; reflexivity. Qed.

Lemma lower_char_dot c :
  Ascii.eqb (lower_char c) "."%char = Ascii.eqb c "."%char.
Proof. destruct c as [[] [] [] [] [] [] [] []]; reflexivity. Qed.

Lemma lower_char_slash c :
  Ascii.eqb (lower_char c) "/"%char = Ascii.eqb c "/"%char.
Proof. destruct c as [[] [] [] [] [] [] [] []]; reflexivity. Qed.

Lemma lower_char_blank c : is_whitespace (lower_char c) = is_whitespace c.
Proof. destruct c as [[] [] [] [] [] [] [] []]; reflexivity. Qed.

Lemma toLowerCase_idem s : toLowerCase (toLowerCase s) = toLowerCase s.
Proof.
  induction s as [|c s IH]; simpl; [reflexivity|].
  now rewrite lower_char_idem, IH.
Qed.

Lemma contains_toLowerCase_dot s :
  contains "."%char (toLowerCase s) = contains "."%char s.
Proof.
  induction s as [|c s IH]; simpl; [reflexivity|].
  now rewrite lower_char_dot, IH.
Qed.

Lemma contains_toLowerCase_slash s :
  contains "/"%char (toLowerCase s) = contains "/"%char s.
Proof.
  induction s as [|c s IH]; simpl; [reflexivity|].
  now rewrite lower_char_slash, IH.
Qed.

Lemma getFileExtension_eq filename :
  getFileExtension filename
  = toLowerCase (List.last (split "."%char filename) EmptyString).
Proof.
  unfold getFileExtension. cbv zeta.
  destruct (String.eqb _ EmptyString) eqn:E; [|reflexivity].
  apply String.eqb_eq in E. now rewrite E.
Qed.

Lemma split_app sep a b :
  split sep (a +:+ String sep b) = split sep a ++ split sep b.
Proof.
  induction a as [|c a IH]; simpl.
  - now rewrite Ascii.eqb_refl.
  - destruct (Ascii.eqb c sep); [now rewrite IH|].
    rewrite IH. pose proof (split_not_nil sep a) as Hn.
    destruct (split sep a) as [|hd tl]; [contradiction|reflexivity].
Qed.

Lemma last_app_right {A} (l1 l2 : list A) d :
  l2 <> [] -> List.last (l1 ++ l2) d = List.last l2 d.
Proof.
  intros Hn. induction l1 as [|x l1 IH]; [reflexivity|].
  cbn [app]. rewrite <- IH.
  destruct (l1 ++ l2) as [|y r] eqn:E; [|reflexivity].
  apply app_eq_nil in E as [_ E]. contradiction.
Qed.

Lemma last_split_app sep a b :
  List.last (split sep (a +:+ String sep b)) EmptyString
  = List.last (split sep b) EmptyString.
Proof. rewrite split_app. apply last_app_right, split_not_nil. Qed.

Lemma last_split_no_sep sep s :
  contains sep (List.last (split sep s) EmptyString) = false.
Proof.
  apply split_no_sep with (s := s).
  pose proof (split_not_nil sep s) as Hn.
  destruct (split sep s) as [|hd tl]; [contradiction|].
  clear Hn. revert hd. induction tl as [|x tl IH]; intros hd.
  - now left.
  - right. apply (IH x).
Qed.

Lemma getFileExtension_ext stem ext :
  contains "."%char ext = false ->
  getFileExtension (stem +:+ String "."%char ext) = toLowerCase ext.
Proof.
  intros He. rewrite getFileExtension_eq.
  now rewrite last_split_app, split_without.
Qed.

Lemma getFileExtension_nodot filename :
  contains "."%char filename = false ->
  getFileExtension filename = toLowerCase filename.
Proof. intros Hf. rewrite getFileExtension_eq. now rewrite split_without. Qed.

(** X14: [getFileExtension] returns the text after the last dot, in lower
    case: it holds no dot and lower-casing it again changes nothing.  A name
    without any dot has no last dot, and then the whole name, in lower
    case, is returned as its extension. *)
Theorem getFileExtension_spec :
  (forall filename,
     contains "."%char (getFileExtension filename) = false
     /\ toLowerCase (getFileExtension filename) = getFileExtension filename)
  /\ (forall stem ext,
        contains "."%char ext = false ->
        getFileExtension (stem +:+ "." +:+ ext) = toLowerCase ext)
  /\ (forall filename,
        contains "."%char filename = false ->
        getFileExtension filename = toLowerCase filename).
Proof.
  split; [|split].
  - intros filename. rewrite getFileExtension_eq. split.
    + rewrite contains_toLowerCase_dot. apply last_split_no_sep.
    + apply toLowerCase_idem.
  - intros stem ext He. now apply getFileExtension_ext.
  - apply getFileExtension_nodot.
Qed.

Lemma every_app p a b : every p (a +:+ b) = every p a && every p b.
Proof.
  induction a as [|c a IH]; simpl; [reflexivity|].
  now rewrite IH, andb_assoc.
Qed.

Lemma every_impl (p q : ascii -> bool) s :
  (forall c, p c = true -> q c = true) -> every p s = true -> every q s = true.
Proof.
  intros Hpq. induction s as [|c s IH]; simpl; [reflexivity|].
  intros H. apply andb_prop in H as [Hc Hs].
  now rewrite (Hpq c Hc), (IH Hs).
Qed.

(** The pattern of [strip_extension] finds the last dot or nothing. *)
Lemma strip_extension_found stem ext :
  ext <> EmptyString ->
  every (fun d => negb (Ascii.eqb d "/"%char || Ascii.eqb d "."%char)) ext
  = true ->
  strip_extension (stem +:+ String "."%char ext) = stem.
Proof.
  intros Hne He. induction stem as [|c stem IH].
  - change (EmptyString +:+ String "."%char ext) with (String "."%char ext).
    unfold strip_extension; fold strip_extension. rewrite He.
    destruct ext; [contradiction|reflexivity].
  - change (String c stem +:+ String "."%char ext)
      with (String c (stem +:+ String "."%char ext)).
    unfold strip_extension; fold strip_extension.
    rewrite every_app. cbn [every]. rewrite Ascii.eqb_refl, orb_true_r.
    cbn [negb andb]. rewrite !andb_false_r.
    exact (f_equal (String c) IH).
Qed.

Lemma strip_extension_none s :
  contains "."%char s = false -> strip_extension s = s.
Proof.
  induction s as [|c s IH]; simpl; [reflexivity|].
  destruct (Ascii.eqb c "."%char); [discriminate|]. simpl.
  intros H. now rewrite (IH H).
Qed.

Lemma every_not_dot s p :
  every (fun d => negb (p d || Ascii.eqb d "."%char)) s = true ->
  contains "."%char s = false.
Proof.
  induction s as [|c s IH]; simpl; [reflexivity|].
  intros H. apply andb_prop in H as [Hc Hs].
  apply negb_true_iff, orb_false_iff in Hc as [_ ->]. now apply IH.
Qed.

Lemma sanitize_safe s :
  every (fun c => is_alnum c || Ascii.eqb c "_"%char) (sanitize s) = true.
Proof.
  induction s as [|c s IH]; simpl; [reflexivity|].
  rewrite IH, andb_true_r.
  destruct (is_alnum c) eqn:E; [now rewrite E|reflexivity].
Qed.

Lemma pretty_N_char_digit x : is_alnum (pretty_N_char x) = true.
Proof.
  destruct x as [|p]; [reflexivity|].
  do 4 (try destruct p as [p|p|]); reflexivity.
Qed.

Lemma pretty_N_go_alnum x : forall s,
  every is_alnum s = true -> every is_alnum (pretty_N_go x s) = true.
Proof.
  induction (N.lt_wf_0 x) as [x _ IH]. intros s Hs.
  destruct (decide (x = 0%N)) as [->|Hx]; [now rewrite pretty_N_go_0|].
  rewrite pretty_N_go_step by lia. apply IH.
  - apply N.div_lt; lia.
  - cbn [every]. now rewrite pretty_N_char_digit, Hs.
Qed.

Lemma pretty_N_alnum (x : N) : every is_alnum (pretty x) = true.
Proof.
  unfold pretty, pretty_N. destruct (decide (x = 0%N)); [reflexivity|].
  now apply pretty_N_go_alnum.
Qed.

(** X15: the file name [generateFileName] builds is the prefix, the
    timestamp in digits and the sanitized base, joined by underscores, then
    a dot and the extension.  Stamp and base hold letters, digits and
    underscores only; the extension is not sanitized.  For a name that ends
    in a dot and an extension without slash, the base is what comes before
    that dot; a name without dot is taken whole as base and, in lower case,
    as extension too. *)
Theorem generateFileName_spec timestamp prefix :
  (forall originalName,
     exists stamp base,
       generateFileName timestamp originalName prefix
       = prefix +:+ "_" +:+ stamp +:+ "_" +:+ base +:+ "."
           +:+ getFileExtension originalName
       /\ every (fun c => is_alnum c || Ascii.eqb c "_"%char)
            (stamp +:+ "_" +:+ base) = true)
  /\ (forall stem ext,
        ext <> EmptyString ->
        every (fun d => negb (Ascii.eqb d "/"%char || Ascii.eqb d "."%char))
          ext = true ->
        generateFileName timestamp (stem +:+ "." +:+ ext) prefix
        = prefix +:+ "_" +:+ pretty timestamp +:+ "_" +:+ sanitize stem
            +:+ "." +:+ toLowerCase ext)
  /\ (forall originalName,
        contains "."%char originalName = false ->
        generateFileName timestamp originalName prefix
        = prefix +:+ "_" +:+ pretty timestamp +:+ "_"
            +:+ sanitize originalName +:+ "." +:+ toLowerCase originalName).
Proof.
  split; [|split].
  - intros originalName.
    exists (pretty timestamp), (sanitize (strip_extension originalName)).
    split; [reflexivity|].
    rewrite !every_app. apply andb_true_intro. split.
    + apply (every_impl is_alnum); [|apply pretty_N_alnum].
      intros c ->. reflexivity.
    + apply andb_true_intro. split; [reflexivity|apply sanitize_safe].
  - intros stem ext Hne He. unfold generateFileName. cbv zeta.
    change (stem +:+ "." +:+ ext) with (stem +:+ String "."%char ext).
    rewrite strip_extension_found by assumption.
    now rewrite (getFileExtension_ext stem ext (every_not_dot ext _ He)).
  - intros originalName Hn. unfold generateFileName. cbv zeta.
    rewrite strip_extension_none by assumption.
    now rewrite (getFileExtension_nodot originalName Hn).
Qed.

(** ** The Meeting model: search *)

Lemma prefix_app t s : String.prefix t s = true <-> exists b, s = t +:+ b.
Proof.
  revert s. induction t as [|a t IH]; intros s.
  - split; [intros _; now exists s|intros _; destruct s; reflexivity].
  - destruct s as [|c s]; simpl;
      [split; [discriminate|intros [b H]; discriminate H]|].
    destruct (ascii_dec a c) as [->|Hne].
    + rewrite IH. split; intros [b H]; exists b.
      * now rewrite H.
      * now injection H.
    + split; [discriminate|]. intros [b H]. injection H as H _. congruence.
Qed.

(** [includes] finds a text exactly when it is there. *)
Lemma includes_spec s t :
  includes s t = true <-> exists a b, s = a +:+ t +:+ b.
Proof.
  induction s as [|c s IH].
  - cbn [includes]. rewrite orb_false_r, prefix_app. split.
    + intros [b H]. now exists EmptyString, b.
    + intros (a & b & H). destruct a; [now exists b|discriminate H].
  - cbn [includes]. rewrite orb_true_iff, prefix_app, IH. split.
    + intros [[b H]|(a & b & H)].
      * now exists EmptyString, b.
      * exists (String c a), b. now rewrite H.
    + intros (a & b & H). destruct a as [|d a].
      * left. now exists b.
      * right. exists a, b. now injection H.
Qed.

Lemma toLowerCase_trimStart s :
  toLowerCase (trimStart s) = trimStart (toLowerCase s).
Proof.
  induction s as [|c s IH]; simpl; [reflexivity|].
  rewrite lower_char_blank. destruct (is_whitespace c); [exact IH|reflexivity].
Qed.

Lemma toLowerCase_trimEnd s :
  toLowerCase (trimEnd s) = trimEnd (toLowerCase s).
Proof.
  induction s as [|c s IH]; simpl; [reflexivity|].
  rewrite <- IH, lower_char_blank.
  destruct (trimEnd s) as [|d r]; simpl; [|reflexivity].
  destruct (is_whitespace c); reflexivity.
Qed.

Lemma toLowerCase_trim s : toLowerCase (trim s) = trim (toLowerCase s).
Proof. unfold trim. now rewrite toLowerCase_trimEnd, toLowerCase_trimStart. Qed.

Lemma toLowerCase_empty s : toLowerCase s = EmptyString <-> s = EmptyString.
Proof. destruct s; simpl; split; congruence. Qed.

Lemma trim_idem s : trim (trim s) = trim s.
Proof.
  destruct (trim_edges s) as [Hs He]. unfold trim at 1.
  now rewrite trimStart_clean, trimEnd_clean.
Qed.

Lemma trimEnd_app_blank x post :
  all_whitespace post = true -> trimEnd (x +:+ post) = trimEnd x.
Proof.
  intros Hp. induction x as [|c x IH].
  - now apply trimEnd_empty.
  - change (String c x +:+ post) with (String c (x +:+ post)).
    cbn [trimEnd]. now rewrite IH.
Qed.

Lemma trimStart_app x post :
  trimStart (x +:+ post)
  = if all_whitespace x then trimStart post else trimStart x +:+ post.
Proof.
  induction x as [|c x IH]; simpl; [reflexivity|].
  destruct (is_whitespace c); [exact IH|reflexivity].
Qed.

Lemma trim_around pre s post :
  all_whitespace pre = true -> all_whitespace post = true ->
  trim (pre +:+ s +:+ post) = trim s.
Proof.
  intros Hpre Hpost. unfold trim.
  rewrite trimStart_app_blank by assumption. rewrite trimStart_app.
  destruct (all_whitespace s) eqn:Hs.
  - transitivity EmptyString.
    + apply trimEnd_empty. now rewrite all_whitespace_trimStart.
    + symmetry. apply trimEnd_empty. now rewrite all_whitespace_trimStart.
  - now apply trimEnd_app_blank.
Qed.

Lemma eqb_empty_trim_lower s :
  String.eqb (trim (toLowerCase s)) EmptyString
  = String.eqb (trim s) EmptyString.
Proof.
  rewrite <- toLowerCase_trim.
  destruct (String.eqb (trim s) EmptyString) eqn:E.
  - apply String.eqb_eq in E. now rewrite E.
  - apply String.eqb_neq. apply String.eqb_neq in E.
    now rewrite toLowerCase_empty.
Qed.

Lemma field_includes_text fname v term :
  text_or_nothing v = true -> field_includes fname v term = inr (mentions term v).
Proof. destruct v; simpl; congruence. Qed.

Lemma meeting_matches_searchable term meeting :
  searchable meeting = true ->
  meeting_matches term meeting = inr (meeting_mentions term meeting).
Proof.
  unfold searchable, meeting_matches, meeting_mentions. intros H.
  repeat (apply andb_prop in H as [H ?]).
  rewrite !field_includes_text by assumption.
  destruct (mentions term (m_title meeting)),
    (mentions term (m_transcript meeting)),
    (mentions term (m_mom meeting)); reflexivity.
Qed.

Lemma js_filter_total {A} (f : A -> Thrown + bool) (g : A -> bool) l :
  Forall (fun x => f x = inr (g x)) l -> js_filter f l = inr (List.filter g l).
Proof.
  induction 1 as [|x l Hx _ IH]; simpl; [reflexivity|].
  now rewrite Hx, IH.
Qed.

(** X16: [searchMeetings] with a term that is empty, blank or missing
    returns the list it was given, whatever the meetings hold.  With any
    other text, on meetings whose title, transcript, minutes and summary
    are texts or absent, it returns, in their order, the meetings of which
    one of the four holds the term, letter case apart; the term is taken
    in lower case and without the white space around it.  A title that is
    neither a text nor absent, in the first meeting, makes the search
    throw a TypeError. *)
Theorem searchMeetings_spec meetings :
  (forall searchTerm,
     truthy searchTerm = false
     \/ (exists s, searchTerm = VStr s /\ all_whitespace s = true) ->
     searchMeetings meetings searchTerm = inr meetings)
  /\ (forall s,
        all_whitespace s = false ->
        forallb searchable meetings = true ->
        searchMeetings meetings (VStr s)
        = inr (List.filter (meeting_mentions (trim (toLowerCase s))) meetings))
  /\ (forall term v,
        mentions term v = true <->
        exists text a b, v = VStr text /\ toLowerCase text = a +:+ term +:+ b)
  /\ (forall s meeting,
        all_whitespace s = false ->
        text_or_nothing (m_title meeting) = false ->
        searchMeetings (meeting :: meetings) (VStr s)
        = inl (JsError "TypeError"
                 "meeting.title?.toLowerCase is not a function")).
Proof.
  split; [|split; [|split]].
  - intros searchTerm [Hf|(s & -> & Hb)]; unfold searchMeetings.
    + now rewrite Hf.
    + apply trim_empty in Hb. rewrite Hb.
      destruct (negb (truthy (VStr s))); reflexivity.
  - intros s Hb Hall. unfold searchMeetings.
    assert (trim s <> EmptyString) as Hne.
    { intros E. apply trim_empty in E. congruence. }
    assert (truthy (VStr s) = true) as ->.
    { destruct s; [contradiction Hne; reflexivity|reflexivity]. }
    cbn [negb]. apply String.eqb_neq in Hne. rewrite Hne.
    apply js_filter_total. rewrite forallb_forall in Hall.
    apply Forall_forall. intros m Hm.
    apply meeting_matches_searchable, Hall. now apply list_elem_of_In.
  - intros term v. destruct v as [| |b|n|s|items|props]; cbn [mentions];
      try (split; [discriminate|intros (? & ? & ? & [=] & _)]).
    rewrite includes_spec. split.
    + intros (a & b & H). now exists s, a, b.
    + intros (text & a & b & [= <-] & H). now exists a, b.
  - intros s meeting Hb Ht. unfold searchMeetings.
    assert (trim s <> EmptyString) as Hne.
    { intros E. apply trim_empty in E. congruence. }
    assert (truthy (VStr s) = true) as ->.
    { destruct s; [contradiction Hne; reflexivity|reflexivity]. }
    cbn [negb]. apply String.eqb_neq in Hne. rewrite Hne.
    cbn [js_filter]. unfold meeting_matches.
    destruct (m_title meeting); try discriminate Ht; reflexivity.
Qed.

(** X17: a search does not change when the term is given in another letter
    case or with white space around it. *)
Theorem searchMeetings_term_normalized meetings s :
  searchMeetings meetings (VStr (toLowerCase s)) = searchMeetings meetings (VStr s)
  /\ searchMeetings meetings (VStr (trim s)) = searchMeetings meetings (VStr s)
  /\ (forall pre post,
        all_whitespace pre = true -> all_whitespace post = true ->
        searchMeetings meetings (VStr (pre +:+ s +:+ post))
        = searchMeetings meetings (VStr s)).
Proof.
  assert (forall x y,
            trim x = trim y ->
            searchMeetings meetings (VStr x) = searchMeetings meetings (VStr y))
    as Hsame.
  { intros x y H. unfold searchMeetings.
    rewrite <- !toLowerCase_trim, H.
    destruct (String.eqb (trim y) EmptyString) eqn:E.
    - destruct (negb (truthy (VStr x))), (negb (truthy (VStr y))); reflexivity.
    - apply String.eqb_neq in E.
      assert (truthy (VStr x) = true) as ->.
      { destruct x; [contradiction E; now rewrite <- H|reflexivity]. }
      assert (truthy (VStr y) = true) as ->.
      { destruct y; [contradiction E; reflexivity|reflexivity]. }
      reflexivity. }
  split; [|split].
  - unfold searchMeetings. rewrite toLowerCase_idem, eqb_empty_trim_lower.
    destruct (String.eqb (trim s) EmptyString) eqn:E.
    + destruct (negb (truthy _)), (negb (truthy _)); reflexivity.
    + apply String.eqb_neq in E.
      assert (truthy (VStr s) = true) as ->.
      { destruct s; [contradiction E; reflexivity|reflexivity]. }
      assert (truthy (VStr (toLowerCase s)) = true) as ->.
      { destruct s; [contradiction E; reflexivity|reflexivity]. }
      reflexivity.
  - apply Hsame, trim_idem.
  - intros pre post Hpre Hpost. now apply Hsame, trim_around.
Qed.

(** ** The upload route and the participants *)

(** X28: the upload route splits the participants of the form at the
    commas itself and does not call [parseParticipants]: the entries keep
    their white space and the blank ones stay.  What [parseParticipants]
    would have returned is that list trimmed and without its blank
    entries.  The route's list is empty only when the form has no
    participants or an empty text, and joined by commas it is the text of
    the form again. *)
Theorem upload_participants_raw :
  (forall s,
     parseParticipants (VStr s)
     = List.filter (fun p => (0 <? String.length p)%nat)
         (List.map trim (upload_participants (Some s))))
  /\ (forall participants,
        upload_participants participants = []
        <-> participants = None \/ participants = Some EmptyString)
  /\ (forall s,
        s <> EmptyString ->
        join "," (upload_participants (Some s)) = s
        /\ forall e, e ∈ upload_participants (Some s) ->
                     contains ","%char e = false).
Proof.
  split; [|split].
  - intros s. rewrite parseParticipants_string. unfold upload_participants.
    destruct s; reflexivity.
  - intros [s|]; unfold upload_participants.
    + destruct s as [|c s]; cbn [truthy String.eqb negb].
      * split; [intros _; now right|reflexivity].
      * split.
        -- intros H. now apply split_not_nil in H.
        -- intros [H|H]; discriminate H.
    + split; [intros _; now left|reflexivity].
  - intros s Hs. unfold upload_participants.
    assert (truthy (VStr s) = true) as -> by (destruct s; [contradiction|reflexivity]).
    split; [apply (join_split ","%char)|].
    intros e He. apply (split_no_sep ","%char s). now apply list_elem_of_In.
Qed.

(** ** aiService.js: the service as a whole *)

(** X18: without a key for OpenAI nothing is called.  Each of the four
    stages fails with its own failure of status 500 (the message
    'OpenAI API not configured' is thrown and caught inside), the world is
    as it was, and the whole processing fails as its first stage does. *)
Theorem openai_not_configured env :
  isOpenAIConfigured env = false ->
  (forall file w,
     transcribeAudio env file w
     = (inl (AppError "Failed to transcribe audio" 500), w))
  /\ (forall transcript title participants w,
        generateMOM env transcript title participants w
        = (inl (AppError "Failed to generate Minutes of Meeting" 500), w))
  /\ (forall txt context w,
        extractActionItems env txt context w
        = (inl (AppError "Failed to extract action items" 500), w))
  /\ (forall minutes items w,
        generateEmailSummary env minutes items w
        = (inl (AppError "Failed to generate email summary" 500), w))
  /\ (forall file title participants w,
        processCompleteeMeeting env file title participants w
        = (inl (AppError "Failed to transcribe audio" 500), w)).
Proof.
  intros Hk. repeat split; intros.
  - rewrite transcribeAudio_run. now rewrite Hk.
  - rewrite generateMOM_run. cbv zeta. now rewrite Hk.
  - rewrite extractActionItems_run. cbv zeta. now rewrite Hk.
  - rewrite generateEmailSummary_run. now rewrite Hk.
  - rewrite processCompleteeMeeting_run, transcribeAudio_run. now rewrite Hk.
Qed.

Lemma openai_not_configured_witness :
  processCompleteeMeeting env_no_key recording "Standup" [] w0
  = (inl (AppError "Failed to transcribe audio" 500), w0).
Proof.
  destruct (openai_not_configured env_no_key eq_refl) as (_ & _ & _ & _ & H).
  apply H.
Defined.

Lemma rethrown_failure failure e : service_failure (rethrown failure e).
Proof.
  unfold rethrown. destruct (response_status_is e 429); simpl; auto.
Qed.

Lemma transcribeAudio_rethrown_failure e :
  service_failure (transcribeAudio_rethrown e).
Proof.
  unfold transcribeAudio_rethrown.
  destruct (response_status_is e 429); [simpl; auto|].
  destruct (response_status_is e 401); [simpl; auto|].
  destruct (response_status_is e 413); simpl; auto.
Qed.

(** What a stage has done when it returns or fails. *)
Lemma transcribeAudio_outcome env file w :
  match transcribeAudio env file w with
  | (inr _, w1) => w1 = traced w [E_transcription file]
  | (inl e, w1) =>
      service_failure e
      /\ exists es, w1 = traced w es /\ (List.length es <= 1)%nat
  end.
Proof.
  rewrite transcribeAudio_run.
  destruct (isOpenAIConfigured env).
  - destruct (transcriptions_create env file); [|reflexivity].
    split; [apply transcribeAudio_rethrown_failure|].
    eexists. split; [reflexivity|]. simpl. lia.
  - split; [simpl; auto|]. exists []. split; [now rewrite traced_nil|simpl; lia].
Qed.

Lemma generateMOM_outcome env transcript title participants w :
  match generateMOM env transcript title participants w with
  | (inr _, w1) =>
      w1 = traced w [E_chat (MOM_request transcript title participants)]
  | (inl e, w1) =>
      service_failure e
      /\ exists es, w1 = traced w es /\ (List.length es <= 1)%nat
  end.
Proof.
  rewrite generateMOM_run. cbv zeta.
  destruct (isOpenAIConfigured env).
  - destruct (chat_completions_create env _) as [e|[|c cs]]; [| |reflexivity].
    + split; [apply rethrown_failure|].
      eexists. split; [reflexivity|]. simpl. lia.
    + split; [simpl; auto|]. eexists. split; [reflexivity|]. simpl. lia.
  - split; [simpl; auto|]. exists []. split; [now rewrite traced_nil|simpl; lia].
Qed.

Lemma extractActionItems_outcome env txt context w :
  match extractActionItems env txt context w with
  | (inr _, w1) => w1 = traced w [E_chat (extract_request txt context)]
  | (inl e, w1) =>
      service_failure e
      /\ exists es, w1 = traced w es /\ (List.length es <= 1)%nat
  end.
Proof.
  rewrite extractActionItems_run. cbv zeta.
  destruct (isOpenAIConfigured env).
  - destruct (chat_completions_create env _) as [e|choices].
    + split; [apply rethrown_failure|].
      eexists. split; [reflexivity|]. simpl. lia.
    + destruct (parsed_items_pure env choices
                  (traced w [E_chat (extract_request txt context)]))
        as (r & -> & _).
      destruct r as [e|items]; [|reflexivity].
      split; [simpl; auto|]. eexists. split; [reflexivity|]. simpl. lia.
  - split; [simpl; auto|]. exists []. split; [now rewrite traced_nil|simpl; lia].
Qed.

Lemma generateEmailSummary_outcome env minutes items w :
  match generateEmailSummary env minutes items w with
  | (inr _, w1) =>
      exists t,
        action_items_text env (or_empty_array items) w = (inr t, w)
        /\ w1 = traced w [E_chat (summary_request minutes t)]
  | (inl e, w1) =>
      service_failure e
      /\ exists es, w1 = traced w es /\ (List.length es <= 1)%nat
  end.
Proof.
  rewrite generateEmailSummary_run.
  destruct (isOpenAIConfigured env).
  - destruct (action_items_text_pure env (or_empty_array items) w)
      as (r & Hr & _). rewrite Hr.
    destruct r as [e|t].
    + split; [simpl; auto|]. exists []. split; [now rewrite traced_nil|simpl; lia].
    + cbv zeta.
      destruct (chat_completions_create env _) as [e|[|c cs]].
      * split; [apply rethrown_failure|].
        eexists. split; [reflexivity|]. simpl. lia.
      * split; [simpl; auto|]. eexists. split; [reflexivity|]. simpl. lia.
      * exists t. split; reflexivity.
  - split; [simpl; auto|]. exists []. split; [now rewrite traced_nil|simpl; lia].
Qed.

(** X19: the flow of data through [processCompleteeMeeting].  When it
    returns, OpenAI was called four times and nothing else was: for the
    transcription of the file, for the minutes of the transcript, for the
    action items of the transcript (not of the minutes) and for the summary
    of the minutes and of the items just extracted.  When it fails, the
    failure is an [AppError] of status 400, 429 or 500 and at most four
    calls were made.  The two tables are never touched. *)
Theorem processCompleteeMeeting_outcome env file title participants w :
  let out := processCompleteeMeeting env file title participants w in
  meetings out.2 = meetings w /\ tasks out.2 = tasks w
  /\ match out.1 with
     | inr r =>
         exists t w',
           action_items_text env (or_empty_array (actionItems r)) w' = (inr t, w')
           /\ trace out.2
              = trace w
                ++ [E_transcription file;
                    E_chat (MOM_request (text (transcription r)) title
                              participants);
                    E_chat (extract_request (text (transcription r))
                              "transcript");
                    E_chat (summary_request (mom r) t)]
     | inl e =>
         service_failure e
         /\ exists es,
              trace out.2 = trace w ++ es /\ (List.length es <= 4)%nat
     end.
Proof.
  intros out. subst out. rewrite processCompleteeMeeting_run.
  pose proof (transcribeAudio_outcome env file w) as H1.
  destruct (transcribeAudio env file w) as [[e|tr] w1].
  { destruct H1 as (He & es & -> & Hl). cbn [fst snd traced meetings tasks trace].
    repeat split; auto. exists es. split; [reflexivity|lia]. }
  pose proof (generateMOM_outcome env (text tr) title participants w1) as H2.
  destruct (generateMOM env (text tr) title participants w1) as [[e|minutes] w2].
  { destruct H2 as (He & es & -> & Hl). subst w1.
    cbn [fst snd traced meetings tasks trace].
    repeat split; auto. eexists. rewrite <- app_assoc.
    split; [reflexivity|]. rewrite length_app. simpl. lia. }
  pose proof (extractActionItems_outcome env (text tr) "transcript" w2) as H3.
  destruct (extractActionItems env (text tr) "transcript" w2) as [[e|items] w3].
  { destruct H3 as (He & es & -> & Hl). subst w2 w1.
    cbn [fst snd traced meetings tasks trace].
    repeat split; auto. eexists. rewrite <- !app_assoc.
    split; [reflexivity|]. rewrite !length_app. simpl. lia. }
  pose proof (generateEmailSummary_outcome env minutes items w3) as H4.
  destruct (generateEmailSummary env minutes items w3) as [[e|summary] w4].
  { destruct H4 as (He & es & -> & Hl). subst w3 w2 w1.
    cbn [fst snd traced meetings tasks trace].
    repeat split; auto. eexists. rewrite <- !app_assoc.
    split; [reflexivity|]. rewrite !length_app. simpl. lia. }
  destruct H4 as (t & Ht & ->). subst w3 w2 w1.
  cbn [fst snd traced meetings tasks trace transcription mom actionItems].
  repeat split; auto. exists t. eexists. split; [exact Ht|].
  now rewrite <- !app_assoc.
Qed.

Lemma mapM_action_item_line objs w :
  mapM action_item_line (List.map VObj objs) w
  = (inr (List.map summary_line objs), w).
Proof.
  induction objs as [|props objs IH]; [reflexivity|].
  cbn [List.map mapM]. unfold bind at 1.
  change (action_item_line (VObj props) w)
    with (@inr Thrown string (summary_line props), w).
  cbv beta iota. unfold bind at 1. rewrite IH. reflexivity.
Qed.

Lemma mapM_action_item_line_nullish l w :
  existsb nullish l = true ->
  exists e, mapM action_item_line l w = (inl e, w).
Proof.
  induction l as [|item l IH]; [discriminate|].
  cbn [existsb mapM]. intros H. unfold bind at 1.
  destruct (nullish item) eqn:Hn.
  { destruct item; try discriminate Hn; eexists; reflexivity. }
  destruct (action_item_line_pure item w) as (r & -> & _).
  destruct r as [e|line]; [now exists e|].
  cbn [orb] in H. destruct (IH H) as (e & He).
  unfold bind at 1. rewrite He. now exists e.
Qed.

(** X20: the action items in the prompt of the summary.  Without items
    (none given, or an empty array) the prompt says that no specific action
    item was identified.  Items that are objects give one line each, a
    missing task, assignee or deadline printed as 'undefined'.  With [null]
    for the items, or with an item that is [null] or [undefined], the stage
    fails before OpenAI is called. *)
Theorem generateEmailSummary_action_items env minutes w :
  isOpenAIConfigured env = true ->
  (forall items,
     items = VUndefined \/ items = VArr [] ->
     (generateEmailSummary env minutes items w).2
     = traced w [E_chat (summary_request minutes
                           "No specific action items identified.")])
  /\ (forall props objs,
        (generateEmailSummary env minutes
           (VArr (List.map VObj (props :: objs))) w).2
        = traced w [E_chat (summary_request minutes
                              (join nl (List.map summary_line (props :: objs))))])
  /\ (forall items,
        items = VNull
        \/ (exists l, items = VArr l /\ existsb nullish l = true) ->
        generateEmailSummary env minutes items w
        = (inl (AppError "Failed to generate email summary" 500), w)).
Proof.
  intros Hk. split; [|split].
  - intros items Hi. rewrite generateEmailSummary_run, Hk.
    assert (or_empty_array items = VArr []) as -> by (destruct Hi; now subst).
    rewrite action_items_text_empty. cbv zeta.
    destruct (chat_completions_create env _) as [e|[|c cs]]; reflexivity.
  - intros props objs. rewrite generateEmailSummary_run, Hk.
    assert (action_items_text env
              (or_empty_array (VArr (List.map VObj (props :: objs)))) w
            = (inr (join nl (List.map summary_line (props :: objs))), w)) as ->.
    { unfold action_items_text. cbn [or_empty_array get_prop].
      unfold bind at 1. unfold lift. cbn [gt_zero].
      assert ((0 <? Z.of_nat (List.length (List.map VObj (props :: objs))))
              = true) as -> by (apply Z.ltb_lt; simpl; lia).
      unfold js_map, bind. now rewrite mapM_action_item_line. }
    cbv zeta.
    destruct (chat_completions_create env _) as [e|[|c cs]]; reflexivity.
  - intros items Hi. rewrite generateEmailSummary_run, Hk.
    assert (exists e, action_items_text env (or_empty_array items) w
                      = (inl e, w)) as (e & ->); [|reflexivity].
    destruct Hi as [->|(l & -> & Hl)].
    + eexists. reflexivity.
    + unfold action_items_text. cbn [or_empty_array get_prop].
      unfold bind at 1. unfold lift. cbn [gt_zero].
      assert ((0 <? Z.of_nat (List.length l)) = true) as ->.
      { apply Z.ltb_lt. destruct l; [discriminate Hl|simpl; lia]. }
      unfold js_map, bind.
      destruct (mapM_action_item_line_nullish l w Hl) as (e & ->).
      now exists e.
Qed.

Lemma generateEmailSummary_action_items_witness :
  generateEmailSummary env_ok (VStr "1. Meeting Overview") VNull w0
  = (inl (AppError "Failed to generate email summary" 500), w0).
Proof.
  destruct (generateEmailSummary_action_items env_ok
              (VStr "1. Meeting Overview") w0 eq_refl) as (_ & _ & H).
  apply H. now left.
Defined.

(** ** errorHandler.js *)

(** X21: what a client sees of an [AppError].  The handler answers with
    the status and the message of the error, 500 in place of a status 0 and
    'Internal Server Error' in place of an empty message; but an
    [AppError] whose message holds the letters JWT is answered with 401
    'Authentication failed', whatever its status was. *)
Theorem errorHandler_AppError message statusCode :
  errorHandler (AppError_object message statusCode)
  = inr (if includes message "JWT"
         then {| res_status := VNum 401;
                 res_message := "Authentication failed" |}
         else {| res_status := VNum (if statusCode =? 0 then 500
                                     else statusCode);
                 res_message := if String.eqb message EmptyString
                                then "Internal Server Error"
                                else message |}).
Proof.
  unfold errorHandler, AppError_object, replaced_if.
  cbn [err_name err_code err_message err_statusCode err_response_status
       err_errors String.eqb Ascii.eqb Bool.eqb strict_eq_num strict_eq_str
       truthy].
  destruct (String.eqb message EmptyString) eqn:E.
  - apply String.eqb_eq in E. subst message.
    change (includes EmptyString "JWT") with false.
    cbn [negb andb fst snd String.eqb]. unfold js_or. cbn [truthy].
    destruct (statusCode =? 0); reflexivity.
  - cbn [negb andb]. destruct (includes message "JWT"); [reflexivity|].
    cbn [fst snd]. unfold js_or. cbn [truthy]. rewrite E.
    destruct (statusCode =? 0); reflexivity.
Qed.

(** The statuses the handler can put in place of the error's own. *)
Lemma replaced_if_status (own : value) c statusCode message error :
  statusCode ∈ [400; 401; 404; 429; 500] ->
  (error.1 = own \/ exists n, error.1 = VNum n /\ n ∈ [400; 401; 404; 429; 500]) ->
  (replaced_if c statusCode message error).1 = own
  \/ exists n, (replaced_if c statusCode message error).1 = VNum n
               /\ n ∈ [400; 401; 404; 429; 500].
Proof.
  intros Hin He. unfold replaced_if. destruct c; [|exact He].
  right. now exists statusCode.
Qed.

Lemma js_or_status (own s : value) :
  (s = own \/ exists n, s = VNum n /\ n ∈ [400; 401; 404; 429; 500]) ->
  js_or s (VNum 500) = own
  \/ exists n, js_or s (VNum 500) = VNum n /\ n ∈ [400; 401; 404; 429; 500].
Proof.
  intros Hs. unfold js_or. destruct (truthy s); [exact Hs|].
  right. exists 500. split; [reflexivity|repeat constructor].
Qed.

Lemma js_or_truthy s : truthy (js_or s (VNum 500)) = true.
Proof. unfold js_or. destruct (truthy s) eqn:E; [exact E|reflexivity]. Qed.

Lemma or_default_nonempty (m d : string) :
  d <> EmptyString -> (if String.eqb m EmptyString then d else m) <> EmptyString.
Proof.
  intros Hd. destruct (String.eqb m EmptyString) eqn:E; [exact Hd|].
  now apply String.eqb_neq in E.
Qed.

(** X22: the answers of the global handler.  It fails itself on one kind
    of error only, a [ValidationError] without [errors].  Otherwise the
    message it sends is never empty, and the status is the error's own
    [statusCode] or one of 400, 401, 404, 429 and 500, never a falsy
    value.  The checks are not alternatives: the last that applies wins, so
    an error with the code LIMIT_FILE_SIZE is always answered with 400
    'File too large'. *)
Theorem errorHandler_answers err :
  match errorHandler err with
  | inl e =>
      err_name err = "ValidationError" /\ err_errors err = None
      /\ e = JsError "TypeError" "Cannot convert undefined or null to object"
  | inr r =>
      res_message r <> EmptyString
      /\ truthy (res_status r) = true
      /\ (res_status r = err_statusCode err
          \/ exists c, res_status r = VNum c /\ c ∈ [400; 401; 404; 429; 500])
      /\ (strict_eq_str (err_code err) "LIMIT_FILE_SIZE" = true ->
          r = {| res_status := VNum 400; res_message := "File too large" |})
  end.
Proof.
  unfold errorHandler. cbv zeta.
  set (before := replaced_if (strict_eq_num (err_code err) 11000) _ _ _).
  assert (before.1 = err_statusCode err
          \/ exists n, before.1 = VNum n /\ n ∈ [400; 401; 404; 429; 500])
    as Hbefore.
  { subst before.
    do 2 (apply replaced_if_status; [repeat constructor|]). now left. }
  clearbody before.
  assert (exists validated,
            (if String.eqb (err_name err) "ValidationError"
             then match err_errors err with
                  | Some messages => inr (VNum 400, join "," messages)
                  | None => inl (JsError "TypeError"
                                   "Cannot convert undefined or null to object")
                  end
             else inr before) = validated
            /\ match validated with
               | inl e =>
                   err_name err = "ValidationError" /\ err_errors err = None
                   /\ e = JsError "TypeError"
                            "Cannot convert undefined or null to object"
               | inr error =>
                   error.1 = err_statusCode err
                   \/ exists n, error.1 = VNum n
                                /\ n ∈ [400; 401; 404; 429; 500]
               end) as (validated & -> & Hv).
  { eexists. split; [reflexivity|].
    destruct (String.eqb (err_name err) "ValidationError") eqn:E;
      [|exact Hbefore].
    destruct (err_errors err).
    - right. exists 400. split; [reflexivity|repeat constructor].
    - apply String.eqb_eq in E. repeat split; assumption. }
  destruct validated as [e|error]; [exact Hv|].
  split; [now apply or_default_nonempty|].
  split; [apply js_or_truthy|]. split.
  - cbn [res_status]. apply js_or_status.
    apply replaced_if_status; [repeat constructor|].
    destruct (truthy (err_response_status err)).
    + destruct (strict_eq_num (err_response_status err) 429);
        [right; exists 429; split; [reflexivity|repeat constructor]|].
      destruct (strict_eq_num (err_response_status err) 401);
        [right; exists 500; split; [reflexivity|repeat constructor]|].
      do 3 (apply replaced_if_status; [repeat constructor|]). exact Hv.
    + do 3 (apply replaced_if_status; [repeat constructor|]). exact Hv.
  - intros Hl. unfold replaced_if at 1. rewrite Hl. reflexivity.
Qed.

(** X23: a caller who does not own the task asks for a valid status.  The
    service raises 403 'Not authorized to update this task', catches it
    itself, and what the client is answered is 500
    'Failed to update task status'. *)
Theorem not_owner_is_answered_500 env api taskId st userId f w :
  includes_value validStatuses st = true ->
  find_record taskId (tasks w) = Some f ->
  field f FIELDS.TASKS.OWNER_ID <> VStr userId ->
  exists e,
    patch_task_status env api taskId st userId w = (inl e, w)
    /\ error_response e
       = Some (inr {| res_status := VNum 500;
                      res_message := "Failed to update task status" |}).
Proof.
  intros Hv Hf Hown.
  exists (AppError "Failed to update task status" 500). split.
  - unfold patch_task_status, throw_if. rewrite Hv.
    assert (truthy st = true) as ->.
    { destruct st as [| |b|n|s|items|props]; try discriminate Hv.
      destruct s; [discriminate Hv|reflexivity]. }
    cbn [negb]. unfold_monad.
    destruct (refused_run env api taskId userId f w Hf
                (not_owner_true taskId f userId Hown)) as (H & _).
    apply H.
  - reflexivity.
Qed.

Lemma not_owner_is_answered_500_witness :
  exists e,
    patch_task_status env_ok api_ok "rec0" (VStr "done") "u2" w_tasks
    = (inl e, w_tasks)
    /\ error_response e
       = Some (inr {| res_status := VNum 500;
                      res_message := "Failed to update task status" |}).
Proof.
  apply (not_owner_is_answered_500 env_ok api_ok "rec0" (VStr "done") "u2"
           task_of_u1 w_tasks eq_refl eq_refl).
  vm_compute. discriminate.
Defined.

(** The first digit of a number in decimal. *)
Lemma pretty_N_go_first (d : N) (k : nat) : forall x s,
  (1 <= d <= 9)%N ->
  (d * 10 ^ N.of_nat k <= x < (d + 1) * 10 ^ N.of_nat k)%N ->
  exists rest, pretty_N_go x s = String (pretty_N_char d) rest.
Proof.
  induction k as [|k IH]; intros x s Hd Hx.
  - change (10 ^ N.of_nat 0)%N with 1%N in Hx.
    assert (x = d) as -> by lia.
    rewrite pretty_N_go_step by lia.
    rewrite N.div_small, N.mod_small, pretty_N_go_0 by lia. now exists s.
  - rewrite Nat2N.inj_succ, N.pow_succ_r' in Hx.
    rewrite pretty_N_go_step by nia.
    apply IH; [exact Hd|]. split.
    + apply N.div_le_lower_bound; nia.
    + apply N.Div0.div_lt_upper_bound; nia.
Qed.

Lemma pretty_Z_first (d : N) (k : nat) (c : Z) :
  (1 <= d <= 9)%N ->
  Z.of_N d * 10 ^ Z.of_nat k <= c < (Z.of_N d + 1) * 10 ^ Z.of_nat k ->
  exists rest, pretty c = String (pretty_N_char d) rest.
Proof.
  intros Hd Hc.
  assert (0 < 10 ^ Z.of_nat k) as Hp by (apply Z.pow_pos_nonneg; lia).
  destruct c as [|p|p]; [nia| |nia].
  unfold pretty, pretty_Z, pretty, pretty_N.
  destruct (decide (N.pos p = 0%N)) as [E|_]; [discriminate E|].
  apply (pretty_N_go_first d k); [exact Hd|].
  assert (Z.of_N (10 ^ N.of_nat k) = 10 ^ Z.of_nat k) as Hpow.
  { rewrite N2Z.inj_pow, nat_N_Z. reflexivity. }
  change (Z.pos p) with (Z.of_N (N.pos p)) in Hc. lia.
Qed.

(** X24: the [status] of an [AppError] is 'fail' when the decimal writing
    of its status code starts with a 4 and 'error' otherwise: 'fail' from
    400 to 499 and 'error' from 500 to 599, but 'fail' as well for 4, 40 or
    4000, and 'error' for everything that is not positive. *)
Theorem AppError_status_spec :
  (forall c k,
     4 * 10 ^ Z.of_nat k <= c < 5 * 10 ^ Z.of_nat k ->
     AppError_status c = "fail")
  /\ (forall c d k,
        1 <= d <= 9 -> d <> 4 ->
        d * 10 ^ Z.of_nat k <= c < (d + 1) * 10 ^ Z.of_nat k ->
        AppError_status c = "error")
  /\ (forall c, c <= 0 -> AppError_status c = "error")
  /\ (forall c, 400 <= c <= 499 -> AppError_status c = "fail")
  /\ (forall c, 500 <= c <= 599 -> AppError_status c = "error").
Proof.
  assert (forall c k,
            4 * 10 ^ Z.of_nat k <= c < 5 * 10 ^ Z.of_nat k ->
            AppError_status c = "fail") as Hfail.
  { intros c k Hc. destruct (pretty_Z_first 4 k c) as (rest & E); [lia|lia|].
    unfold AppError_status. rewrite E. destruct rest; reflexivity. }
  assert (forall c d k,
            1 <= d <= 9 -> d <> 4 ->
            d * 10 ^ Z.of_nat k <= c < (d + 1) * 10 ^ Z.of_nat k ->
            AppError_status c = "error") as Herror.
  { intros c d k Hd Hne Hc.
    destruct (pretty_Z_first (Z.to_N d) k c) as (rest & E); [lia|lia|].
    unfold AppError_status. rewrite E.
    assert (d = 1 \/ d = 2 \/ d = 3 \/ d = 5 \/ d = 6 \/ d = 7 \/ d = 8
            \/ d = 9) as Hcases by lia.
    destruct Hcases as [->|[->|[->|[->|[->|[->|[->| ->]]]]]]];
      destruct rest; reflexivity. }
  split; [exact Hfail|]. split; [exact Herror|]. split; [|split].
  - intros c Hc. unfold AppError_status.
    destruct c as [|p|p]; [reflexivity|lia|reflexivity].
  - intros c Hc. apply (Hfail c 2%nat). simpl. lia.
  - intros c Hc. apply (Herror c 5 2%nat); simpl; lia.
Qed.

(** ** auth.js *)

Lemma authorize_passes roles u :
  authorize roles (Some u) = None
  <-> exists r, user_role u = VStr r /\ r ∈ roles.
Proof.
  unfold authorize. destruct (includes_value roles (user_role u)) eqn:E;
    cbn [negb]; split; try discriminate; try reflexivity.
  - intros _. destruct (user_role u) as [| |b|n|s|items|props];
      try discriminate E.
    exists s. split; [reflexivity|]. now apply string_in_elem.
  - intros (r & Hr & Hin). rewrite Hr in E. cbn [includes_value] in E.
    apply string_in_elem in Hin. congruence.
Qed.

Lemma authorize_subset roles roles' user :
  roles ⊆ roles' ->
  authorize roles user = None -> authorize roles' user = None.
Proof.
  intros Hsub. destruct user as [u|]; [|discriminate].
  rewrite !authorize_passes. intros (r & Hr & Hin).
  exists r. split; [exact Hr|]. now apply Hsub.
Qed.

(** X25: the role checks.  Without an authenticated user every check
    answers 401.  With one, a check passes exactly when the user's role is
    a text that is in the list, and refuses with 403 otherwise; so a check
    with more roles passes whenever one with fewer does: who passes
    [isSuperAdmin] passes [isAdmin], who passes [isAdmin] passes
    [canAccess]. *)
Theorem authorize_spec :
  (forall roles,
     authorize roles None = Some (AppError "Access denied. Please authenticate." 401))
  /\ (forall roles u,
        (authorize roles (Some u) = None
         <-> exists r, user_role u = VStr r /\ r ∈ roles)
        /\ (authorize roles (Some u) = None
            \/ authorize roles (Some u)
               = Some (AppError ("Access denied. Required roles: "
                                 +:+ join ", " roles) 403)))
  /\ (forall roles roles' user,
        roles ⊆ roles' ->
        authorize roles user = None -> authorize roles' user = None)
  /\ (forall user,
        (isSuperAdmin user = None -> isAdmin user = None)
        /\ (isAdmin user = None -> canAccess user = None)).
Proof.
  split; [reflexivity|]. split; [|split].
  - intros roles u. split; [apply authorize_passes|].
    unfold authorize. destruct (includes_value roles (user_role u));
      [now left|now right].
  - apply authorize_subset.
  - intros user. split; apply authorize_subset; intros r Hr;
      repeat (apply elem_of_cons in Hr as [->|Hr]; [repeat constructor|]);
      now apply elem_of_nil in Hr.
Qed.

(** X26: [canModifyResource] lets the owner of the resource and the two
    kinds of admin through, and nobody else.  The task service has its own
    check, and that one knows no admin: an admin who is not the owner of a
    task passes [canModifyResource] and is refused by [updateTaskStatus],
    [updateTask] and [deleteTask]. *)
Theorem canModifyResource_spec resourceUserId u :
  (canModifyResource resourceUserId (Some u) = None
   <-> resourceUserId = VStr (user_id u) \/ isAdmin (Some u) = None)
  /\ (forall env api taskId f w,
        isAdmin (Some u) = None ->
        find_record taskId (tasks w) = Some f ->
        field f FIELDS.TASKS.OWNER_ID <> VStr (user_id u) ->
        canModifyResource (field f FIELDS.TASKS.OWNER_ID) (Some u) = None
        /\ (forall st,
              updateTaskStatus env api taskId st (user_id u) w
              = (inl (AppError "Failed to update task status" 500), w))
        /\ (forall updates,
              updateTask env api taskId updates (user_id u) w
              = (inl (AppError "Failed to update task" 500), w))
        /\ deleteTask env api taskId (user_id u) w
           = (inl (AppError "Failed to delete task" 500), w)).
Proof.
  assert (canModifyResource resourceUserId (Some u) = None
          <-> resourceUserId = VStr (user_id u) \/ isAdmin (Some u) = None)
    as Hiff.
  { unfold canModifyResource, isAdmin, authorize. cbv zeta.
    destruct (includes_value _ (user_role u)); cbn [negb];
      [rewrite andb_false_r; tauto|rewrite andb_true_r].
    destruct (strict_eq_str resourceUserId (user_id u)) eqn:E; cbn [negb].
    - split; [intros _; left|reflexivity].
      destruct resourceUserId as [| |b|n|s|items|props]; try discriminate E.
      apply String.eqb_eq in E. now subst.
    - split; [discriminate|]. intros [->|H]; [|discriminate H].
      cbn [strict_eq_str] in E. now rewrite String.eqb_refl in E. }
  split; [exact Hiff|].
  intros env api taskId f w Hadmin Hf Hown. split.
  - unfold canModifyResource, isAdmin, authorize in *. cbv zeta.
    destruct (includes_value _ (user_role u)); [|discriminate Hadmin].
    cbn [negb]. now rewrite andb_false_r.
  - apply (refused_run env api taskId (user_id u) f w Hf).
    now apply not_owner_true.
Qed.

(** X27: [extractToken] returns the second of the pieces of the header
    between single spaces, when the header starts with the six letters
    Bearer: the token of a header 'Bearer token', and equally that of
    'BearerX token'.  The token never holds a space; anything after a
    second space is dropped; a header without space, or one that does not
    start with Bearer, or no header, gives [undefined]. *)
Theorem extractToken_spec :
  (forall x token,
     contains " "%char x = false -> contains " "%char token = false ->
     extractToken (Some ("Bearer" +:+ x +:+ " " +:+ token)) = VStr token
     /\ forall rest,
          extractToken (Some ("Bearer" +:+ x +:+ " " +:+ token +:+ " " +:+ rest))
          = VStr token)
  /\ (forall authorization token,
        extractToken authorization = VStr token ->
        contains " "%char token = false)
  /\ (forall header,
        contains " "%char header = false \/ String.prefix "Bearer" header = false ->
        extractToken (Some header) = VUndefined)
  /\ extractToken None = VUndefined.
Proof.
  split; [|split; [|split; [|reflexivity]]].
  - intros x token Hx Ht.
    assert (contains " "%char ("Bearer" +:+ x) = false) as Hbx
      by (rewrite contains_app; now rewrite Hx).
    assert (forall tail,
              negb (String.eqb ("Bearer" +:+ tail) EmptyString)
              && String.prefix "Bearer" ("Bearer" +:+ tail) = true) as Hcond.
    { intros tail. apply andb_true_intro. split; [reflexivity|].
      apply prefix_app. now exists tail. }
    split; [|intros rest]; unfold extractToken; rewrite Hcond.
    + change ("Bearer" +:+ x +:+ " " +:+ token)
        with ("Bearer" +:+ (x +:+ String " "%char token)).
      rewrite <- append_assoc, split_app_sep, split_without by assumption.
      reflexivity.
    + change ("Bearer" +:+ x +:+ " " +:+ token +:+ " " +:+ rest)
        with ("Bearer" +:+ (x +:+ String " "%char (token +:+ String " "%char rest))).
      rewrite <- append_assoc, !split_app_sep by assumption.
      reflexivity.
  - intros [header|] token; [|discriminate]. unfold extractToken.
    destruct (_ && _); [|discriminate]. unfold js_nth.
    destruct (split " "%char header !! 1%nat) as [t|] eqn:E; [|discriminate].
    intros [= <-]. apply (split_no_sep " "%char header).
    apply list_elem_of_In. now apply list_elem_of_lookup_2 in E.
  - intros header [Hs|Hp]; unfold extractToken.
    + rewrite split_without by assumption.
      destruct (_ && _); reflexivity.
    + rewrite Hp, andb_false_r. reflexivity.
Qed.

(** ** Statistics of tasks *)

Lemma bump_lookup k0 stats k :
  bump k0 stats !! k
  = if String.eqb k0 k then Some (default 0 (stats !! k) + 1) else stats !! k.
Proof.
  unfold bump. destruct (String.eqb k0 k) eqn:E.
  - apply String.eqb_eq in E. subst k0. apply lookup_insert_eq.
  - apply String.eqb_neq in E. now apply lookup_insert_ne.
Qed.

Lemma raised_raised old d1 d2 :
  0 <= d1 -> 0 <= d2 -> raised (raised old d1) d2 = raised old (d1 + d2).
Proof.
  intros H1 H2. unfold raised.
  destruct (Z.eqb_spec d1 0) as [->|Hd1].
  - now rewrite Z.add_0_l.
  - destruct (Z.eqb_spec d2 0) as [->|Hd2].
    + rewrite Z.add_0_r. destruct (Z.eqb_spec d1 0); [contradiction|reflexivity].
    + destruct (Z.eqb_spec (d1 + d2) 0); [lia|].
      simpl. f_equal. lia.
Qed.

Lemma raised_some init d : 0 <= d -> raised (Some init) d = Some (init + d).
Proof.
  intros Hd. unfold raised. destruct (Z.eqb_spec d 0) as [->|_].
  - now rewrite Z.add_0_r.
  - reflexivity.
Qed.

Lemma bump_raised k0 stats k :
  bump k0 stats !! k = raised (stats !! k) (if String.eqb k0 k then 1 else 0).
Proof. rewrite bump_lookup. now destruct (String.eqb k0 k). Qed.

Lemma added_nonneg clock k task : 0 <= added clock k task.
Proof.
  unfold added.
  destruct (named k task), (_ && is_overdue clock task),
    (_ && is_due_soon clock task), (_ && is_high_priority task); lia.
Qed.

Lemma added_by_nonneg clock k tasks : 0 <= added_by clock k tasks.
Proof.
  induction tasks as [|task tasks IH]; simpl; [lia|].
  pose proof (added_nonneg clock k task). lia.
Qed.

Lemma bump_if_raised (c : bool) k0 stats k :
  (if c then bump k0 stats else stats) !! k
  = raised (stats !! k) (if String.eqb k k0 && c then 1 else 0).
Proof.
  destruct c; [|now rewrite andb_false_r].
  rewrite bump_raised, andb_true_r. now rewrite String.eqb_sym.
Qed.

Lemma count_task_eq clock stats task :
  count_task clock stats task
  = let s1 := bump (to_string (status task)) stats in
    let s2 := if is_overdue clock task then bump "overdue" s1 else s1 in
    let s3 := if is_due_soon clock task then bump "due_soon" s2 else s2 in
    if is_high_priority task then bump "high_priority" s3 else s3.
Proof.
  unfold count_task, is_overdue, is_due_soon, is_high_priority. cbv zeta.
  destruct (includes_value _ (priority task));
    destruct (truthy (deadline task) && strict_neq_str (status task) _);
    cbn [andb]; try reflexivity;
    destruct (getTime clock (deadline task)) as [t|]; try reflexivity;
    destruct (t <? current_time clock); cbn [negb andb]; try reflexivity;
    destruct (t <=? current_time clock + 7 * 24 * 60 * 60 * 1000);
    reflexivity.
Qed.

Lemma count_task_lookup clock stats task k :
  count_task clock stats task !! k = raised (stats !! k) (added clock k task).
Proof.
  rewrite count_task_eq. cbv zeta.
  rewrite !bump_if_raised, bump_raised. unfold added, named.
  rewrite !raised_raised;
    repeat match goal with
           | |- context [if ?c then _ else _] => destruct c
           end; try lia.
  all: reflexivity.
Qed.

Lemma fold_count_task_lookup clock tasks k : forall stats,
  fold_left (count_task clock) tasks stats !! k
  = raised (stats !! k) (added_by clock k tasks).
Proof.
  induction tasks as [|task tasks IH]; intros stats; [reflexivity|].
  cbn [fold_left added_by]. rewrite IH, count_task_lookup.
  apply raised_raised; [apply added_nonneg|apply added_by_nonneg].
Qed.

Lemma count_where_cons {A} (p : A -> bool) x l :
  Z.of_nat (count_where p (x :: l))
  = (if p x then 1 else 0) + Z.of_nat (count_where p l).
Proof.
  unfold count_where. cbn [List.filter]. destruct (p x); cbn [List.length]; lia.
Qed.

Lemma count_where_ext {A} (p q : A -> bool) l :
  Forall (fun x => p x = q x) l -> count_where p l = count_where q l.
Proof.
  unfold count_where. induction 1 as [|x l Hx _ IH]; [reflexivity|].
  cbn [List.filter]. rewrite Hx. destruct (q x); cbn [List.length]; congruence.
Qed.

Lemma count_where_none {A} (p : A -> bool) l :
  Forall (fun x => p x = false) l -> count_where p l = 0%nat.
Proof.
  unfold count_where. induction 1 as [|x l Hx _ IH]; [reflexivity|].
  cbn [List.filter]. now rewrite Hx.
Qed.

Lemma added_by_counts clock k tasks :
  added_by clock k tasks
  = Z.of_nat (count_where (named k) tasks)
    + (if String.eqb k "overdue"
       then Z.of_nat (count_where (is_overdue clock) tasks) else 0)
    + (if String.eqb k "due_soon"
       then Z.of_nat (count_where (is_due_soon clock) tasks) else 0)
    + (if String.eqb k "high_priority"
       then Z.of_nat (count_where is_high_priority tasks) else 0).
Proof.
  induction tasks as [|task tasks IH].
  - cbn [added_by]. unfold count_where. cbn [List.filter List.length].
    destruct (String.eqb k "overdue"), (String.eqb k "due_soon"),
      (String.eqb k "high_priority"); reflexivity.
  - cbn [added_by]. rewrite IH, !count_where_cons. unfold added.
    destruct (String.eqb k "overdue"), (String.eqb k "due_soon"),
      (String.eqb k "high_priority"); cbn [andb];
      destruct (named k task), (is_overdue clock task),
        (is_due_soon clock task), (is_high_priority task); lia.
Qed.

Lemma lookup_insert_string k0 (v : Z) (m : gmap string Z) k :
  <[k0 := v]> m !! k = if String.eqb k k0 then Some v else m !! k.
Proof.
  destruct (String.eqb k k0) eqn:E.
  - apply String.eqb_eq in E. subst k. apply lookup_insert_eq.
  - apply String.eqb_neq in E. apply lookup_insert_ne. congruence.
Qed.

(** The counters, for a key that is one of the eight initial ones or not. *)
Lemma calculateTaskStats_lookup clock tasks stats k :
  calculateTaskStats clock tasks = Some stats ->
  stats !! k
  = raised
      (if String.eqb k "total" then Some (Z.of_nat (List.length tasks))
       else if string_in k ["pending"; "in_progress"; "done"; "cancelled";
                            "overdue"; "due_soon"; "high_priority"]
            then Some 0 else None)
      (added_by clock k tasks).
Proof.
  unfold calculateTaskStats. destruct (existsb _ tasks); [discriminate|].
  intros [= <-]. rewrite fold_count_task_lookup. f_equal.
  unfold string_in. cbn [existsb].
  rewrite !lookup_insert_string, lookup_empty.
  repeat match goal with
         | |- context [String.eqb k ?c] => destruct (String.eqb k c)
         end; reflexivity.
Qed.

(** The eight counters the table starts with. *)
Lemma calculateTaskStats_eight clock tasks stats :
  calculateTaskStats clock tasks = Some stats ->
  stats !! "total"
  = Some (Z.of_nat (List.length tasks)
          + Z.of_nat (count_where (named "total") tasks))
  /\ (forall k, k ∈ validStatuses ->
        stats !! k = Some (Z.of_nat (count_where (named k) tasks)))
  /\ stats !! "overdue"
     = Some (Z.of_nat (count_where (is_overdue clock) tasks)
             + Z.of_nat (count_where (named "overdue") tasks))
  /\ stats !! "due_soon"
     = Some (Z.of_nat (count_where (is_due_soon clock) tasks)
             + Z.of_nat (count_where (named "due_soon") tasks))
  /\ stats !! "high_priority"
     = Some (Z.of_nat (count_where is_high_priority tasks)
             + Z.of_nat (count_where (named "high_priority") tasks)).
Proof.
  intros Hs.
  split; [|split; [|split; [|split]]].
  - rewrite (calculateTaskStats_lookup clock tasks stats "total" Hs).
    rewrite added_by_counts. cbn [String.eqb Ascii.eqb Bool.eqb andb].
    rewrite raised_some by lia. f_equal. lia.
  - intros k Hk. rewrite (calculateTaskStats_lookup clock tasks stats k Hs).
    rewrite added_by_counts. unfold validStatuses in Hk.
    repeat (apply elem_of_cons in Hk as [->|Hk];
            [cbn [String.eqb Ascii.eqb Bool.eqb andb string_in existsb orb];
             rewrite raised_some by lia; f_equal; lia|]).
    now apply elem_of_nil in Hk.
  - rewrite (calculateTaskStats_lookup clock tasks stats "overdue" Hs).
    rewrite added_by_counts.
    cbn [String.eqb Ascii.eqb Bool.eqb andb string_in existsb orb].
    rewrite raised_some by lia. f_equal. lia.
  - rewrite (calculateTaskStats_lookup clock tasks stats "due_soon" Hs).
    rewrite added_by_counts.
    cbn [String.eqb Ascii.eqb Bool.eqb andb string_in existsb orb].
    rewrite raised_some by lia. f_equal. lia.
  - rewrite (calculateTaskStats_lookup clock tasks stats "high_priority" Hs).
    rewrite added_by_counts.
    cbn [String.eqb Ascii.eqb Bool.eqb andb string_in existsb orb].
    rewrite raised_some by lia. f_equal. lia.
Qed.

(** X29: the counters of [calculateTaskStats].  A status is counted in the
    property of that name, whatever the name: the four counters of the
    statuses hold the tasks of each status, a status that is none of the
    four gets a counter of its own, and a status that is called like one of
    the other counters is added to it, so that [total] is the number of
    tasks plus the number of tasks whose status reads 'total'. *)
Theorem calculateTaskStats_counters clock tasks stats :
  calculateTaskStats clock tasks = Some stats ->
  let occurrences k := Z.of_nat (count_where (named k) tasks) in
  stats !! "total" = Some (Z.of_nat (List.length tasks) + occurrences "total")
  /\ (forall k, k ∈ validStatuses -> stats !! k = Some (occurrences k))
  /\ stats !! "overdue"
     = Some (Z.of_nat (count_where (is_overdue clock) tasks)
             + occurrences "overdue")
  /\ stats !! "due_soon"
     = Some (Z.of_nat (count_where (is_due_soon clock) tasks)
             + occurrences "due_soon")
  /\ stats !! "high_priority"
     = Some (Z.of_nat (count_where is_high_priority tasks)
             + occurrences "high_priority")
  /\ (forall k,
        string_in k ["total"; "pending"; "in_progress"; "done"; "cancelled";
                     "overdue"; "due_soon"; "high_priority"] = false ->
        stats !! k = if occurrences k =? 0 then None else Some (occurrences k)).
Proof.
  intros Hs occurrences. subst occurrences. cbv beta.
  destruct (calculateTaskStats_eight clock tasks stats Hs)
    as (H1 & H2 & H3 & H4 & H5).
  split; [exact H1|]. split; [exact H2|]. split; [exact H3|].
  split; [exact H4|]. split; [exact H5|].
  intros k Hk. rewrite (calculateTaskStats_lookup clock tasks stats k Hs).
  rewrite added_by_counts. unfold string_in in *. cbn [existsb] in *.
  repeat (apply orb_false_iff in Hk as [? Hk]).
  repeat match goal with
         | H : String.eqb k _ = false |- _ => rewrite !H; clear H
         end.
  cbn [orb]. rewrite !Z.add_0_r. reflexivity.
Qed.

(** One task whose status reads 'total'. *)
Lemma calculateTaskStats_counters_witness :
  exists stats,
    calculateTaskStats clock_double [task_double "total" (VNum 500) "high"]
    = Some stats
    /\ stats !! "total" = Some 2.
Proof.
  eexists. split; [reflexivity|].
  destruct (calculateTaskStats_counters clock_double
              [task_double "total" (VNum 500) "high"] _ eq_refl) as (H & _).
  exact H.
Defined.

Lemma valid_status_named t :
  (exists s, status t = VStr s /\ s ∈ validStatuses) ->
  inherited_key (to_string (status t)) = false
  /\ named "total" t = false /\ named "overdue" t = false
  /\ named "due_soon" t = false /\ named "high_priority" t = false
  /\ (forall k, named k t = strict_eq_str (status t) k)
  /\ (if named "pending" t then 1 else 0)
     + (if named "in_progress" t then 1 else 0)
     + (if named "done" t then 1 else 0)
     + (if named "cancelled" t then 1 else 0) = 1.
Proof.
  intros (s & Hs & Hin). unfold named. rewrite Hs. cbn [to_string strict_eq_str].
  unfold validStatuses in Hin.
  repeat (apply elem_of_cons in Hin as [->|Hin]; [repeat split; reflexivity|]).
  now apply elem_of_nil in Hin.
Qed.

Lemma valid_statuses_sum tasks :
  Forall (fun t => exists s, status t = VStr s /\ s ∈ validStatuses) tasks ->
  Z.of_nat (count_where (named "pending") tasks)
  + Z.of_nat (count_where (named "in_progress") tasks)
  + Z.of_nat (count_where (named "done") tasks)
  + Z.of_nat (count_where (named "cancelled") tasks)
  = Z.of_nat (List.length tasks).
Proof.
  induction 1 as [|t tasks Ht _ IH]; [reflexivity|].
  rewrite !count_where_cons. cbn [List.length].
  destruct (valid_status_named t Ht) as (_ & _ & _ & _ & _ & _ & H). lia.
Qed.

Lemma service_predicates clock t :
  (if negb (truthy (deadline t)) then false
   else match getTime clock (deadline t) with
        | Some time => time <? current_time clock
        | None => false
        end
        && strict_neq_str (status t) TASK_STATUS.DONE)
  = is_overdue clock t
  /\ strict_eq_str (priority t) TASK_PRIORITY.HIGH
     || strict_eq_str (priority t) TASK_PRIORITY.URGENT
     = is_high_priority t.
Proof.
  unfold is_overdue, is_high_priority. split.
  - destruct (truthy (deadline t)); cbn [negb andb]; [|reflexivity].
    now rewrite andb_comm.
  - destruct (priority t); try reflexivity.
    cbn [strict_eq_str includes_value]. unfold string_in. cbn [existsb].
    now rewrite orb_false_r.
Qed.

(** X30: the program counts tasks twice, in [calculateTaskStats] of the
    model and in [getTaskStatistics] of the service.  On tasks whose status
    is one of the four, the two agree on every number both give: total,
    pending, in progress, done, overdue and high priority; and the four
    counters of the statuses add up to the total. *)
Theorem task_statistics_agree clock tasks :
  Forall (fun t => exists s, status t = VStr s /\ s ∈ validStatuses) tasks ->
  exists stats,
    calculateTaskStats clock tasks = Some stats
    /\ stats !! "total" = Some (Z.of_nat (stat_total (getTaskStatistics clock tasks)))
    /\ stats !! "pending"
       = Some (Z.of_nat (stat_pending (getTaskStatistics clock tasks)))
    /\ stats !! "in_progress"
       = Some (Z.of_nat (stat_in_progress (getTaskStatistics clock tasks)))
    /\ stats !! "done"
       = Some (Z.of_nat (stat_done (getTaskStatistics clock tasks)))
    /\ stats !! "overdue"
       = Some (Z.of_nat (stat_overdue (getTaskStatistics clock tasks)))
    /\ stats !! "high_priority"
       = Some (Z.of_nat (stat_high_priority (getTaskStatistics clock tasks)))
    /\ exists cancelled,
         stats !! "cancelled" = Some cancelled
         /\ Z.of_nat (stat_pending (getTaskStatistics clock tasks))
            + Z.of_nat (stat_in_progress (getTaskStatistics clock tasks))
            + Z.of_nat (stat_done (getTaskStatistics clock tasks))
            + cancelled
            = Z.of_nat (stat_total (getTaskStatistics clock tasks)).
Proof.
  intros Hvalid.
  assert (existsb (fun task => inherited_key (to_string (status task))) tasks
          = false) as Hkeys.
  { induction Hvalid as [|t tasks Ht _ IH]; [reflexivity|].
    cbn [existsb]. rewrite IH.
    now destruct (valid_status_named t Ht) as (-> & _). }
  assert (forall k, k ∈ ["total"; "overdue"; "due_soon"; "high_priority"] ->
            count_where (named k) tasks = 0%nat) as Hnone.
  { intros k Hk. apply count_where_none.
    eapply Forall_impl; [exact Hvalid|]. intros t Ht.
    destruct (valid_status_named t Ht) as (_ & H1 & H2 & H3 & H4 & _).
    repeat (apply elem_of_cons in Hk as [->|Hk]; [assumption|]).
    now apply elem_of_nil in Hk. }
  assert (forall k,
            count_where (named k) tasks
            = count_where (fun t => strict_eq_str (status t) k) tasks) as Hstr.
  { intros k. apply count_where_ext.
    eapply Forall_impl; [exact Hvalid|]. intros t Ht.
    now destruct (valid_status_named t Ht) as (_ & _ & _ & _ & _ & H & _). }
  pose proof (valid_statuses_sum tasks Hvalid) as Hsum.
  destruct (calculateTaskStats clock tasks) as [stats|] eqn:Hs.
  2:{ unfold calculateTaskStats in Hs. rewrite Hkeys in Hs. discriminate Hs. }
  exists stats. split; [reflexivity|].
  destruct (calculateTaskStats_eight clock tasks stats Hs)
    as (H1 & H2 & H3 & _ & H5).
  cbn [getTaskStatistics stat_total stat_pending stat_in_progress stat_done
       stat_overdue stat_high_priority].
  rewrite <- !Hstr.
  rewrite (count_where_ext
             (fun t =>
                if negb (truthy (deadline t)) then false
                else match getTime clock (deadline t) with
                     | Some time => time <? current_time clock
                     | None => false
                     end
                     && strict_neq_str (status t) TASK_STATUS.DONE)
             (is_overdue clock) tasks)
    by (apply Forall_forall; intros t _; apply (service_predicates clock t)).
  rewrite (count_where_ext
             (fun t => strict_eq_str (priority t) TASK_PRIORITY.HIGH
                       || strict_eq_str (priority t) TASK_PRIORITY.URGENT)
             is_high_priority tasks)
    by (apply Forall_forall; intros t _; apply (service_predicates clock t)).
  rewrite H1, H3, H5.
  rewrite (Hnone "total"), (Hnone "overdue"), (Hnone "high_priority")
    by repeat constructor.
  rewrite !H2 by repeat constructor. rewrite !Z.add_0_r.
  do 6 (split; [reflexivity|]).
  exists (Z.of_nat (count_where (named "cancelled") tasks)).
  split; [reflexivity|exact Hsum].
Qed.

Lemma task_statistics_agree_witness :
  exists stats,
    calculateTaskStats clock_double
      [task_double "pending" (VNum 500) "high";
       task_double "done" (VNum 500) "low"] = Some stats
    /\ stats !! "overdue" = Some 1.
Proof.
  destruct (task_statistics_agree clock_double
              [task_double "pending" (VNum 500) "high";
               task_double "done" (VNum 500) "low"])
    as (stats & Hs & _ & _ & _ & _ & Ho & _).
  - repeat constructor; eexists; (split; [reflexivity|repeat constructor]).
  - exists stats. split; [exact Hs|exact Ho].
Defined.
